(** * Bulletin assets: sync engine and retention-based garbage collector

    A shallow embedding of [bulletin_assets_with_prune.py] (and of the
    folder derivation of [bulletin_assets.py]) together with the properties
    the design document states about them. *)

From Stdlib Require Import List String Ascii ZArith Bool Lia DecimalString.
Import ListNotations.
Local Open Scope string_scope.
Local Open Scope Z_scope.

(** ** The Python values the scripts manipulate *)

(** A Python [str] is modelled by [string], a sequence of code points
    below 256; comparison of two [str] values is lexicographic on code
    points, which is [String.ltb]. *)

(** An exception carries its class name and the text [str(e)] yields. *)
Record exn := mkExn { exn_class : string; exn_msg : string }.

(** A computation that returns or raises. *)
Inductive exc (A : Type) : Type :=
| Ok (a : A)
| Raise (e : exn).
Arguments Ok {A} a.
Arguments Raise {A} e.

Definition bind {A B} (m : exc A) (k : A -> exc B) : exc B :=
  match m with
  | Ok a => k a
  | Raise e => Raise e
  end.

Notation "x <- m ;; k" := (bind m (fun x => k))
  (at level 61, m at next level, right associativity).
Notation "' pat <- m ;; k" := (bind m (fun x => match x with pat => k end))
  (at level 61, pat pattern, m at next level, right associativity).

Definition IndexError : exn := mkExn "IndexError" "list index out of range".
Definition KeyError (k : string) : exn := mkExn "KeyError" ("'" ++ k ++ "'").
Definition RuntimeError (msg : string) : exn := mkExn "RuntimeError" msg.
Definition OverflowError (msg : string) : exn := mkExn "OverflowError" msg.

(** JSON leaves as the scraper and the manifest hold them: a string or
    [null]. *)
Inductive pyval :=
| PNone
| PStr (s : string).

(** Python truthiness: [None] and the empty string are falsy. *)
Definition truthy (v : pyval) : bool :=
  match v with
  | PNone => false
  | PStr s => negb (s =? "")%string
  end.

(** [a or b] on values. *)
Definition py_or (a b : pyval) : pyval := if truthy a then a else b.

(** [v or ""] where the result is used as a string. *)
Definition str_or_empty (v : pyval) : string :=
  match v with
  | PNone => ""
  | PStr s => s
  end.

(** A [dict] keeps its keys unique and in insertion order. *)
Definition pydict (V : Type) := list (string * V).

Section Dict.
Context {V : Type}.

(** [d.get(k)] as an option; [None] when the key is absent. *)
Fixpoint dict_get (d : pydict V) (k : string) : option V :=
  match d with
  | [] => None
  | (k', v) :: d' => if (k' =? k)%string then Some v else dict_get d' k
  end.

(** [d[k] = v]: overwrite in place, or append a new key. *)
Fixpoint dict_set (d : pydict V) (k : string) (v : V) : pydict V :=
  match d with
  | [] => [(k, v)]
  | (k', v') :: d' =>
      if (k' =? k)%string then (k', v) :: d' else (k', v') :: dict_set d' k v
  end.

(** [d.pop(k, None)] for its effect on [d]. *)
Fixpoint dict_pop (d : pydict V) (k : string) : pydict V :=
  match d with
  | [] => []
  | (k', v') :: d' =>
      if (k' =? k)%string then d' else (k', v') :: dict_pop d' k
  end.

Definition dict_keys (d : pydict V) : list string := map fst d.

Definition dict_mem (d : pydict V) (k : string) : bool :=
  match dict_get d k with
  | Some _ => true
  | None => false
  end.

(** The invariant of a [dict]: no key occurs twice. *)
Fixpoint unique_keys (d : pydict V) : bool :=
  match d with
  | [] => true
  | (k, _) :: d' => negb (dict_mem d' k) && unique_keys d'
  end.
End Dict.

(** [d.get(k)] on a dict of leaves: a missing key reads as [None]. *)
Definition get_val (d : pydict pyval) (k : string) : pyval :=
  match dict_get d k with
  | Some v => v
  | None => PNone
  end.

(** A [set] of strings, used for membership only. *)
Definition pyset := list string.

Definition set_mem (x : string) (s : pyset) : bool :=
  existsb (fun y => (y =? x)%string) s.

Definition set_add (x : string) (s : pyset) : pyset :=
  if set_mem x s then s else (s ++ [x])%list.

(** ** String operations *)

(** [str.isspace] on the code points a [string] character can hold:
    TAB..CR, FS..US, SPACE, NEL and NBSP. *)
Definition isspace (c : ascii) : bool :=
  let n := N_of_ascii c in
  ((9 <=? n) && (n <=? 13) || (28 <=? n) && (n <=? 32)
   || (n =? 133) || (n =? 160))%N.

Definition is_empty (s : string) : bool :=
  match s with
  | EmptyString => true
  | String _ _ => false
  end.

Fixpoint lstrip (s : string) : string :=
  match s with
  | EmptyString => EmptyString
  | String c s' => if isspace c then lstrip s' else s
  end.

Fixpoint rstrip (s : string) : string :=
  match s with
  | EmptyString => EmptyString
  | String c s' =>
      let r := rstrip s' in
      if isspace c && is_empty r then EmptyString else String c r
  end.

(** [s.strip()] *)
Definition strip (s : string) : string := rstrip (lstrip s).

(** [s.split()] scans left to right; [cur] is the token being read. *)
Fixpoint split_from (cur : string) (s : string) : list string :=
  match s with
  | EmptyString => if is_empty cur then [] else [cur]
  | String c s' =>
      if isspace c then
        (if is_empty cur then split_from "" s' else cur :: split_from "" s')
      else split_from (cur ++ String c "") s'
  end.

Definition split (s : string) : list string := split_from "" s.

(** [s[:n]] *)
Fixpoint take (n : nat) (s : string) : string :=
  match n, s with
  | S n', String c s' => String c (take n' s')
  | _, _ => EmptyString
  end.

(** [s.startswith(pref)] is [String.prefix pref s]. *)
Definition startswith (s pref : string) : bool := prefix pref s.

(** [parts[-1]] *)
Definition index_last (parts : list string) : exc string :=
  match rev parts with
  | [] => Raise IndexError
  | y :: _ => Ok y
  end.

(** [parts[i]] for a non-negative [i] *)
Definition index_nth (parts : list string) (i : nat) : exc string :=
  match nth_error parts i with
  | Some x => Ok x
  | None => Raise IndexError
  end.

(** ** PathNamer *)

Definition months : pydict string :=
  [("Jan","01"); ("Feb","02"); ("Mar","03"); ("Apr","04"); ("May","05");
   ("Jun","06"); ("Jul","07"); ("Aug","08"); ("Sep","09"); ("Oct","10");
   ("Nov","11"); ("Dec","12")].

(** [months.get(mon, '00')] *)
Definition months_get (mon : string) : string :=
  match dict_get months mon with
  | Some m => m
  | None => "00"
  end.

(** [months[mon]] *)
Definition months_item (mon : string) : exc string :=
  match dict_get months mon with
  | Some m => Ok m
  | None => Raise (KeyError mon)
  end.

(** The body of the [try] of [month_folder_from_date]. *)
Definition month_folder_from_date_try (datestr : string) : exc string :=
  let parts := split (strip datestr) in
  year <- index_last parts ;;
  mon <- index_nth parts 2 ;;
  Ok (year ++ "/" ++ months_get mon).

(** [month_folder_from_date] of [bulletin_assets_with_prune.py]:
    [except Exception] turns every raise into ["undated"]. *)
Definition month_folder_from_date (datestr : string) : string :=
  match month_folder_from_date_try datestr with
  | Ok s => s
  | Raise _ => "undated"
  end.

(** The body of the [try] of [month_folder] of [bulletin_assets.py]. *)
Definition month_folder_try (date_str : string) : exc string :=
  let parts := split date_str in
  y <- index_last parts ;;
  mon <- index_nth parts 2 ;;
  m <- months_item mon ;;
  Ok (y ++ "/" ++ m).

Definition month_folder (date_str : string) : string :=
  match month_folder_try date_str with
  | Ok s => s
  | Raise _ => "undated"
  end.

(** A token of a date string: not empty and free of whitespace. *)
Fixpoint no_space (s : string) : bool :=
  match s with
  | EmptyString => true
  | String c s' => negb (isspace c) && no_space s'
  end.

Definition is_token (s : string) : bool := negb (is_empty s) && no_space s.

(** ** Timestamps *)

(** [str(n)] for an integer. *)
Definition str_of_Z (z : Z) : string := NilZero.string_of_int (Z.to_int z).

(** A naive [datetime.datetime] value. *)
Record datetime := mkDT {
  dt_year : Z; dt_month : Z; dt_day : Z;
  dt_hour : Z; dt_minute : Z; dt_second : Z; dt_microsecond : Z }.

(** The ranges the [datetime] constructor enforces (day against 31 only:
    nothing below depends on the month's length). *)
Definition dt_valid (t : datetime) : bool :=
  (1 <=? dt_year t) && (dt_year t <=? 9999)
  && (1 <=? dt_month t) && (dt_month t <=? 12)
  && (1 <=? dt_day t) && (dt_day t <=? 31)
  && (0 <=? dt_hour t) && (dt_hour t <=? 23)
  && (0 <=? dt_minute t) && (dt_minute t <=? 59)
  && (0 <=? dt_second t) && (dt_second t <=? 59)
  && (0 <=? dt_microsecond t) && (dt_microsecond t <=? 999999).

(** [.replace(microsecond=0)] *)
Definition replace_microsecond0 (t : datetime) : datetime :=
  mkDT (dt_year t) (dt_month t) (dt_day t)
       (dt_hour t) (dt_minute t) (dt_second t) 0.

(** Chronological order of naive datetimes: field by field. *)
Definition dt_fields (t : datetime) : list Z :=
  [dt_year t; dt_month t; dt_day t; dt_hour t; dt_minute t; dt_second t;
   dt_microsecond t].

Fixpoint lex_compare (a b : list Z) : comparison :=
  match a, b with
  | x :: a', y :: b' =>
      match x ?= y with
      | Eq => lex_compare a' b'
      | c => c
      end
  | [], [] => Eq
  | [], _ :: _ => Lt
  | _ :: _, [] => Gt
  end.

Definition dt_compare (a b : datetime) : comparison :=
  lex_compare (dt_fields a) (dt_fields b).

(** [a < b] and [a <= b] on datetimes. *)
Definition dt_ltb (a b : datetime) : bool :=
  match dt_compare a b with
  | Lt => true
  | _ => false
  end.

Definition dt_leb (a b : datetime) : bool :=
  match dt_compare a b with
  | Gt => false
  | _ => true
  end.

(** Decimal digits and zero-padded fields, as ["%02d"] and ["%04d"] print
    them for the ranges of [dt_valid]. *)
Definition digit (n : Z) : ascii := ascii_of_N (48 + Z.to_N (n mod 10)).

Definition pad2 (n : Z) : string :=
  String (digit (n / 10)) (String (digit n) "").

Definition pad4 (n : Z) : string :=
  String (digit (n / 1000)) (String (digit (n / 100))
    (String (digit (n / 10)) (String (digit n) ""))).

Definition pad6 (n : Z) : string :=
  String (digit (n / 100000)) (String (digit (n / 10000))
    (String (digit (n / 1000)) (String (digit (n / 100))
      (String (digit (n / 10)) (String (digit n) ""))))).

(** [.isoformat()]: the fraction is printed only when it is not zero. *)
Definition isoformat (t : datetime) : string :=
  pad4 (dt_year t) ++ "-" ++ pad2 (dt_month t) ++ "-" ++ pad2 (dt_day t)
  ++ "T" ++ pad2 (dt_hour t) ++ ":" ++ pad2 (dt_minute t) ++ ":"
  ++ pad2 (dt_second t)
  ++ (if dt_microsecond t =? 0 then "" else "." ++ pad6 (dt_microsecond t)).

(** [now_iso()], given the clock reading [utcnow()]. *)
Definition now_iso (utcnow : datetime) : string :=
  isoformat (replace_microsecond0 utcnow) ++ "Z".

(** Proleptic Gregorian ordinals, as [date.toordinal] and
    [date.fromordinal] compute them. *)
Definition is_leap (y : Z) : bool :=
  (y mod 4 =? 0) && (negb (y mod 100 =? 0) || (y mod 400 =? 0)).

Definition days_before_year (y : Z) : Z :=
  let y1 := y - 1 in y1 * 365 + y1 / 4 - y1 / 100 + y1 / 400.

Definition DAYS_IN_MONTH : list Z :=
  [-1; 31; 28; 31; 30; 31; 30; 31; 31; 30; 31; 30; 31].

Definition DAYS_BEFORE_MONTH : list Z :=
  [-1; 0; 31; 59; 90; 120; 151; 181; 212; 243; 273; 304; 334].

Definition b2z (b : bool) : Z := if b then 1 else 0.

Definition days_before_month (y m : Z) : Z :=
  nth (Z.to_nat m) DAYS_BEFORE_MONTH 0 + b2z ((2 <? m) && is_leap y).

Definition ymd2ord (y m d : Z) : Z :=
  days_before_year y + days_before_month y m + d.

Definition MAXORDINAL : Z := 3652059.

Definition ord2ymd (n0 : Z) : Z * Z * Z :=
  let n := n0 - 1 in
  let n400 := n / 146097 in
  let n := n mod 146097 in
  let n100 := n / 36524 in
  let n := n mod 36524 in
  let n4 := n / 1461 in
  let n := n mod 1461 in
  let n1 := n / 365 in
  let n := n mod 365 in
  let y := n400 * 400 + 1 + n100 * 100 + n4 * 4 + n1 in
  if (n1 =? 4) || (n100 =? 4) then (y - 1, 12, 31)
  else
    let leapyear := (n1 =? 3) && (negb (n4 =? 24) || (n100 =? 3)) in
    let m := Z.shiftr (n + 50) 5 in
    let preceding := nth (Z.to_nat m) DAYS_BEFORE_MONTH 0
                     + b2z ((2 <? m) && leapyear) in
    if n <? preceding then
      let m' := m - 1 in
      let preceding' := preceding
                        - (nth (Z.to_nat m') DAYS_IN_MONTH 0
                           + b2z ((m' =? 2) && leapyear)) in
      (y, m', n - preceding' + 1)
    else (y, m, n - preceding + 1).

(** [t - datetime.timedelta(days=n)]: the time of day is kept; building the
    timedelta or leaving the years 1..9999 raises [OverflowError]. *)
Definition minus_days (t : datetime) (n : Z) : exc datetime :=
  if 999999999 <? Z.abs n then
    Raise (OverflowError ("days=" ++ str_of_Z n
                          ++ "; must have magnitude <= 999999999"))
  else
    let o := ymd2ord (dt_year t) (dt_month t) (dt_day t) - n in
    if (0 <? o) && (o <=? MAXORDINAL) then
      let '(y, m, d) := ord2ymd o in
      Ok (mkDT y m d (dt_hour t) (dt_minute t) (dt_second t)
               (dt_microsecond t))
    else Raise (OverflowError "date value out of range").

(** ** Configuration *)

Definition OWNER : string := "LogunLACC".
Definition REPO : string := "lacc-bulletin-assets".
Definition BRANCH : string := "main".
Definition PAGES_BASE : string := "https://" ++ OWNER ++ ".github.io/" ++ REPO.
Definition MANIFEST_PATH : string := "manifest.json".
Definition PROTECT_PREFIXES : list string := ["img/static/"].

(** ** The environment: credential, network and standard output *)

Inductive method := GET | PUT | DELETE.

(** A call of [requests.get], [requests.put] or [requests.delete]. *)
Record request := mkReq {
  req_method : method;
  req_url : string;
  req_headers : option (pydict string);
  req_json : option (pydict pyval) }.

(** A response; [text] is its body, whether read as [r.text] or as
    [r.content]. *)
Record response := mkResp {
  status_code : Z;
  reason : string;
  text : string }.

(** The state a run threads: the value of [GITHUB_TOKEN] in the
    environment, the network, the requests sent so far (latest first) and
    the lines printed so far (latest first).  The network answers a request,
    given everything sent before it, with a response or with an exception
    (connection error, timeout). *)
Record world := mkWorld {
  environ_token : pyval;
  net : list request -> exc response;
  sent : list request;
  stdout : list string }.

(** Code that returns or raises, and changes the world either way. *)
Definition M (A : Type) : Type := world -> exc A * world.

Definition ret {A} (a : A) : M A := fun w => (Ok a, w).
Definition raise {A} (e : exn) : M A := fun w => (Raise e, w).
Definition lift {A} (m : exc A) : M A := fun w => (m, w).

Definition bindM {A B} (m : M A) (k : A -> M B) : M B :=
  fun w =>
    match m w with
    | (Ok a, w') => k a w'
    | (Raise e, w') => (Raise e, w')
    end.

Notation "x <-- m ;; k" := (bindM m (fun x => k))
  (at level 61, m at next level, right associativity).

(** Sending a request records it and asks the network. *)
Definition record_request (r : request) (w : world) : world :=
  mkWorld (environ_token w) (net w) (r :: sent w) (stdout w).

Definition send (r : request) : M response :=
  fun w => (net w (r :: sent w), record_request r w).

Definition print (line : string) : M unit :=
  fun w =>
    (Ok tt, mkWorld (environ_token w) (net w) (sent w) (line :: stdout w)).

(** The manifest: [{"images": {path: record}}], a record being a dict of
    JSON leaves. *)
Definition images_t := pydict (pydict pyval).
Definition manifest_t := pydict images_t.

(** The manifest as [json.loads] hands it over, the file being taken to
    hold a JSON object: where a record is expected the file may hold a leaf
    (a string or [null]) instead, and so may ["images"] itself. *)
Inductive stored :=
| Rec (rec : pydict pyval)
| NotRec (v : pyval).

Inductive stored_images :=
| Images (images : pydict stored)
| NotImages (v : pyval).

Definition stored_manifest := pydict stored_images.

(** The libraries the scripts call: [slugify], [hashlib.md5(..).hexdigest()],
    the Pillow transcoding of [to_jpg_bytes], [base64.b64encode], and the
    JSON codec at the three places it is used ([r.json()] on a contents
    response, [json.loads] on the manifest, [json.dumps] of the manifest). *)
Record libs := mkLibs {
  slugify : string -> string;
  md5_hexdigest : string -> string;
  to_jpg_bytes : string -> exc string;
  b64encode : string -> string;
  json_object : string -> exc (pydict pyval);
  json_loads_manifest : string -> exc stored_manifest;
  json_dumps_manifest : stored_manifest -> string }.

(** ** BlobStore *)

Definition sha8 (L : libs) (s : string) : string := take 8 (md5_hexdigest L s).

Definition missing_token : exn :=
  RuntimeError "Missing GITHUB_TOKEN environment variable.".

Definition auth_headers (token : pyval) : pydict string :=
  [("Authorization", "Bearer " ++ str_or_empty token);
   ("Accept", "application/vnd.github+json")].

Definition gh_headers : M (pydict string) :=
  fun w =>
    let token := environ_token w in
    if negb (truthy token) then (Raise missing_token, w)
    else (Ok (auth_headers token), w).

Definition contents_url (path : string) : string :=
  "https://api.github.com/repos/" ++ OWNER ++ "/" ++ REPO ++ "/contents/"
  ++ path.

Definition gh_get_sha (L : libs) (path : string) : M pyval :=
  let url := contents_url path in
  headers <-- gh_headers ;;
  r <-- send (mkReq GET url (Some headers) None) ;;
  if status_code r =? 200 then
    j <-- lift (json_object L (text r)) ;;
    ret (get_val j "sha")
  else ret PNone.

Definition gh_put_file (L : libs) (path content_bytes message : string)
  : M unit :=
  let url := contents_url path in
  sha <-- gh_get_sha L path ;;
  let payload := [("message", PStr message);
                  ("content", PStr (b64encode L content_bytes));
                  ("branch", PStr BRANCH)] in
  let payload := if truthy sha then dict_set payload "sha" sha else payload in
  headers <-- gh_headers ;;
  resp <-- send (mkReq PUT url (Some headers) (Some payload)) ;;
  if 400 <=? status_code resp then
    raise (RuntimeError ("PUT " ++ path ++ " failed: "
                         ++ str_of_Z (status_code resp) ++ " " ++ text resp))
  else ret tt.

Definition gh_delete_file (L : libs) (path message : string) (dry_run : bool)
  : M bool :=
  if dry_run then
    _ <-- print ("[DRY-RUN] Would delete: " ++ path) ;;
    ret true
  else
    sha <-- gh_get_sha L path ;;
    if negb (truthy sha) then ret false
    else
      let url := contents_url path in
      let payload := [("message", PStr message); ("sha", sha);
                      ("branch", PStr BRANCH)] in
      headers <-- gh_headers ;;
      r <-- send (mkReq DELETE url (Some headers) (Some payload)) ;;
      if negb ((status_code r =? 200) || (status_code r =? 204)) then
        raise (RuntimeError ("Delete failed for " ++ path ++ ": "
                             ++ str_of_Z (status_code r) ++ " " ++ text r))
      else ret true.

(** ** ManifestStore *)

Definition empty_manifest : stored_manifest := [("images", Images [])].

Definition raw_manifest_url : string :=
  "https://raw.githubusercontent.com/" ++ OWNER ++ "/" ++ REPO ++ "/"
  ++ BRANCH ++ "/" ++ MANIFEST_PATH.

Definition load_manifest (L : libs) : M stored_manifest :=
  r <-- send (mkReq GET raw_manifest_url None None) ;;
  if status_code r =? 200 then
    match json_loads_manifest L (text r) with
    | Ok m => ret m
    | Raise _ => ret empty_manifest
    end
  else ret empty_manifest.

Definition save_manifest (L : libs) (manifest : stored_manifest) : M unit :=
  let content := json_dumps_manifest L manifest in
  gh_put_file L MANIFEST_PATH content "Update manifest.json (auto)".

Definition is_protected (path : string) : bool :=
  existsb (fun pref => startswith path pref) PROTECT_PREFIXES.

(** ** SyncEngine *)

Definition event := pydict pyval.

(** A cell of the mapping report: the index or a text. *)
Inductive cell :=
| CInt (n : nat)
| CStr (s : string).

Definition HTTPError (msg : string) : exn := mkExn "HTTPError" msg.

(** [r.raise_for_status()] for the response to a request of [url]. *)
Definition raise_for_status (url : string) (r : response) : exc unit :=
  let c := status_code r in
  if (400 <=? c) && (c <? 500) then
    Raise (HTTPError (str_of_Z c ++ " Client Error: " ++ reason r
                      ++ " for url: " ++ url))
  else if (500 <=? c) && (c <? 600) then
    Raise (HTTPError (str_of_Z c ++ " Server Error: " ++ reason r
                      ++ " for url: " ++ url))
  else Ok tt.

(** The file name and the repository path of an asset. *)
Definition asset_fname (L : libs) (title src : string) : string :=
  let slug := take 60 (slugify L title) in
  let stem := if is_empty slug then "img" else slug in
  stem ++ "-" ++ sha8 L src ++ ".jpg".

Definition asset_path (L : libs) (title src date : string) : string :=
  "img/" ++ month_folder_from_date date ++ "/" ++ asset_fname L title src.

(** The statements of the [try] block that can raise: fetch, transcode,
    name, upload.  Returns [(rel_path, public_url)]. *)
Definition fetch_and_upload (L : libs) (title src date : string)
  : M (string * string) :=
  r <-- send (mkReq GET src None None) ;;
  _ <-- lift (raise_for_status src r) ;;
  jpg <-- lift (to_jpg_bytes L (text r)) ;;
  let fname := asset_fname L title src in
  let rel_path := asset_path L title src date in
  let public_url := PAGES_BASE ++ "/" ++ rel_path in
  _ <-- gh_put_file L rel_path jpg ("Add/Update " ++ fname) ;;
  ret (rel_path, public_url).

(** [type(v).__name__] of a leaf. *)
Definition type_name (v : pyval) : string :=
  match v with
  | PNone => "NoneType"
  | PStr _ => "str"
  end.

(** What [v.attr] raises on a leaf. *)
Definition AttributeError (v : pyval) (attr : string) : exn :=
  mkExn "AttributeError"
        ("'" ++ type_name v ++ "' object has no attribute '" ++ attr ++ "'").

(** What [v[key] = x] raises on a leaf. *)
Definition no_item_assignment (v : pyval) : exn :=
  mkExn "TypeError"
        ("'" ++ type_name v ++ "' object does not support item assignment").

(** The three assignments to [rec]. *)
Definition refreshed (rec : pydict pyval) (now title src : string)
  : pydict pyval :=
  let rec := dict_set rec "last_seen" (PStr now) in
  let rec := dict_set rec "title" (py_or (PStr title) (get_val rec "title")) in
  let rec := dict_set rec "source" (PStr src) in
  rec.

(** The manifest bookkeeping that follows a successful upload:
    [images.get] needs [images] to be a dict and the assignments need what
    it finds to be one. *)
Definition upsert (images : stored_images) (rel_path now title src : string)
  : exc stored_images :=
  match images with
  | NotImages v => Raise (AttributeError v "get")
  | Images d =>
      rec <- match dict_get d rel_path with
             | Some (Rec r) => Ok r
             | Some (NotRec v) => Raise (no_item_assignment v)
             | None => Ok [("first_added", PStr now); ("title", PStr title);
                           ("source", PStr src)]
             end ;;
      Ok (Images (dict_set d rel_path (Rec (refreshed rec now title src))))
  end.

(** What the loop of [process_events] mutates. *)
Record sync_state := mkSync {
  st_images : stored_images;
  st_seen : pyset;
  st_rows : list (list cell);
  st_updated : list event }.

(** One iteration of the loop.  The [try] block runs from the fetch to
    [seen_paths.add]: when the bookkeeping raises, the event has already
    been annotated and appended with its row, and the handler annotates the
    same event object again and appends it and a second row. *)
Definition process_event (L : libs) (now : string) (i : nat) (ev : event)
  (st : sync_state) (w : world) : sync_state * world :=
  let src := get_val ev "image" in
  let title := str_or_empty (py_or (get_val ev "title") (PStr "")) in
  let date := str_or_empty (py_or (get_val ev "date") (PStr "")) in
  if negb (truthy src) then
    (mkSync (st_images st) (st_seen st)
       (st_rows st ++ [[CInt i; CStr title; CStr ""; CStr "";
                        CStr "no_image"]])%list
       (st_updated st ++ [ev])%list, w)
  else
    let src := str_or_empty src in
    match fetch_and_upload L title src date w with
    | (Ok (rel_path, public_url), w') =>
        let ev := dict_set ev "image_jpg" (PStr public_url) in
        let rows := (st_rows st ++ [[CInt i; CStr title; CStr src;
                                     CStr public_url; CStr "ok"]])%list in
        match upsert (st_images st) rel_path now title src with
        | Ok images =>
            (mkSync images (set_add rel_path (st_seen st)) rows
               (st_updated st ++ [ev])%list, w')
        | Raise e =>
            let ev := dict_set ev "image_jpg_error" (PStr (exn_msg e)) in
            (mkSync (st_images st) (st_seen st)
               (rows ++ [[CInt i; CStr title; CStr src; CStr "";
                          CStr ("error: " ++ exn_msg e)]])%list
               (st_updated st ++ [ev; ev])%list, w')
        end
    | (Raise e, w') =>
        let ev := dict_set ev "image_jpg_error" (PStr (exn_msg e)) in
        (mkSync (st_images st) (st_seen st)
           (st_rows st ++ [[CInt i; CStr title; CStr src; CStr "";
                            CStr ("error: " ++ exn_msg e)]])%list
           (st_updated st ++ [ev])%list, w')
    end.

(** [for i, ev in enumerate(events)] from index [i]. *)
Fixpoint process_loop (L : libs) (now : string) (i : nat)
  (events : list event) (st : sync_state) (w : world) : sync_state * world :=
  match events with
  | [] => (st, w)
  | ev :: rest =>
      let '(st', w') := process_event L now i ev st w in
      process_loop L now (S i) rest st' w'
  end.

(** What [process_events] hands on: the two files it writes and the pair it
    returns. *)
Record sync_result := mkResult {
  res_updated_events : list event;
  res_rows : list (list cell);
  res_manifest : stored_manifest;
  res_seen : pyset }.

(** [manifest.get("images", {})] on a manifest of records. *)
Definition manifest_images (manifest : manifest_t) : images_t :=
  match dict_get manifest "images" with
  | Some images => images
  | None => []
  end.

(** [manifest.setdefault("images", {})] for the object it returns. *)
Definition setdefault_images (manifest : stored_manifest) : stored_images :=
  match dict_get manifest "images" with
  | Some images => images
  | None => Images []
  end.

(** [process_events], given the decoded content of the input file and the
    clock reading of [now_iso()].  [setdefault] followed by the in-place
    updates of [images] leaves the manifest with its ["images"] entry
    replaced (or appended when it was missing). *)
Definition process_events (L : libs) (events : list event) (utcnow : datetime)
  : M sync_result :=
  manifest <-- load_manifest L ;;
  fun w =>
    let images := setdefault_images manifest in
    let now := now_iso utcnow in
    let header := [CStr "index"; CStr "title"; CStr "original_image";
                   CStr "final_jpg_url"; CStr "status"] in
    let '(st, w') :=
      process_loop L now 0 events (mkSync images [] [header] []) w in
    (Ok (mkResult (st_updated st) (st_rows st)
           (dict_set manifest "images" (st_images st)) (st_seen st)), w').

(** ** GarbageCollector *)

Definition cutoff_iso_of (utcnow : datetime) (retention_days : Z)
  : exc string :=
  cutoff_dt <- minus_days utcnow retention_days ;;
  Ok (isoformat (replace_microsecond0 cutoff_dt) ++ "Z").

(** The test of the first loop of [prune_old] on one manifest item. *)
Definition is_candidate (seen_paths : pyset) (cutoff_iso : string)
  (item : string * pydict pyval) : bool :=
  let '(path, rec) := item in
  let last_seen := get_val rec "last_seen" in
  if is_protected path then false
  else negb (set_mem path seen_paths) && truthy last_seen
       && (str_or_empty last_seen <? cutoff_iso)%string.

Definition to_delete_of (manifest : manifest_t) (seen_paths : pyset)
  (cutoff_iso : string) : list string :=
  map fst (filter (is_candidate seen_paths cutoff_iso)
                  (manifest_images manifest)).

(** [manifest["images"].pop(path, None)] *)
Definition pop_image (manifest : manifest_t) (path : string)
  : exc manifest_t :=
  match dict_get manifest "images" with
  | Some images => Ok (dict_set manifest "images" (dict_pop images path))
  | None => Raise (KeyError "images")
  end.

(** The second loop of [prune_old].  The manifest is a shared object: what
    was popped before an exception stays popped, so the manifest is kept
    next to the outcome. *)
Record gc_result := mkGc {
  gc_outcome : exc (list string);
  gc_manifest : manifest_t;
  gc_world : world }.

Definition prune_message (retention_days : Z) (path : string) : string :=
  "Prune unused asset (> " ++ str_of_Z retention_days ++ "d): " ++ path.

Fixpoint prune_loop (L : libs) (retention_days : Z) (dry_run : bool)
  (to_delete deleted : list string) (manifest : manifest_t) (w : world)
  : gc_result :=
  match to_delete with
  | [] => mkGc (Ok deleted) manifest w
  | path :: rest =>
      match gh_delete_file L path (prune_message retention_days path)
              dry_run w with
      | (Raise e, w') => mkGc (Raise e) manifest w'
      | (Ok false, w') =>
          prune_loop L retention_days dry_run rest deleted manifest w'
      | (Ok true, w') =>
          let deleted := (deleted ++ [path])%list in
          if negb dry_run then
            match pop_image manifest path with
            | Ok manifest' =>
                prune_loop L retention_days dry_run rest deleted manifest' w'
            | Raise e => mkGc (Raise e) manifest w'
            end
          else prune_loop L retention_days dry_run rest deleted manifest w'
      end
  end.

(** [prune_old], given the clock reading of its [utcnow()]. *)
Definition prune_old (L : libs) (manifest : manifest_t) (seen_paths : pyset)
  (retention_days : Z) (dry_run : bool) (utcnow : datetime) (w : world)
  : gc_result :=
  match cutoff_iso_of utcnow retention_days with
  | Raise e => mkGc (Raise e) manifest w
  | Ok cutoff_iso =>
      let to_delete := to_delete_of manifest seen_paths cutoff_iso in
      prune_loop L retention_days dry_run to_delete [] manifest w
  end.

(** ** The entry point *)

Record args := mkArgs {
  arg_input : string;
  arg_output : string;
  arg_mapcsv : string;
  arg_prune : bool;
  arg_retention : Z;
  arg_dry_run : bool }.

Definition str_of_nat (n : nat) : string := str_of_Z (Z.of_nat n).

Fixpoint print_each (ps : list string) : M unit :=
  match ps with
  | [] => ret tt
  | p :: ps' => _ <-- print ("  - " ++ p) ;; print_each ps'
  end.

(** What a completed run leaves behind. *)
Record run_result := mkRun {
  run_sync : sync_result;
  run_deleted : list string;
  run_saved : stored_manifest }.

(** The records [prune_old] reads in its first loop: [rec.get] raises on the
    first stored value that is not a record. *)
Fixpoint records_of (images : pydict stored) : exc images_t :=
  match images with
  | [] => Ok []
  | (path, Rec rec) :: rest =>
      rest' <- records_of rest ;; Ok ((path, rec) :: rest')
  | (path, NotRec v) :: _ => Raise (AttributeError v "get")
  end.

(** [manifest.get("images", {}).items()] with the records read from it. *)
Definition records_view (manifest : stored_manifest) : exc images_t :=
  match dict_get manifest "images" with
  | Some (Images images) => records_of images
  | Some (NotImages v) => Raise (AttributeError v "items")
  | None => Ok []
  end.

Definition stored_records (images : images_t) : pydict stored :=
  map (fun item => (fst item, Rec (snd item))) images.

(** A manifest of records as the manifest object it is. *)
Definition stored_manifest_of (manifest : manifest_t) : stored_manifest :=
  map (fun item => (fst item, Images (stored_records (snd item)))) manifest.

(** What a call of [prune_old] in [main] leaves. *)
Record phase_result := mkPhase {
  ph_outcome : exc (list string);
  ph_manifest : stored_manifest;
  ph_world : world }.

(** [prune_old] on the manifest object of the run.  The cutoff is computed
    first; the first loop then raises on a stored value that is not a
    record, before anything is deleted; on a manifest of records the call is
    [prune_old] on these records, and what it pops is popped from the
    manifest object. *)
Definition prune_manifest (L : libs) (manifest : stored_manifest)
  (seen_paths : pyset) (retention_days : Z) (dry_run : bool)
  (utcnow : datetime) (w : world) : phase_result :=
  match cutoff_iso_of utcnow retention_days with
  | Raise e => mkPhase (Raise e) manifest w
  | Ok _ =>
      match records_view manifest with
      | Raise e => mkPhase (Raise e) manifest w
      | Ok images =>
          let g := prune_old L [("images", images)] seen_paths retention_days
                     dry_run utcnow w in
          mkPhase (gc_outcome g)
            (match dict_get manifest "images" with
             | Some _ =>
                 dict_set manifest "images"
                   (Images (stored_records (manifest_images (gc_manifest g))))
             | None => manifest
             end)
            (gc_world g)
      end
  end.

(** The [if args.prune:] block of [main]; printing does not raise. *)
Definition prune_phase (L : libs) (a : args) (r : sync_result)
  (utcnow_prune : datetime) (w : world) : phase_result :=
  if arg_prune a then
    let g := prune_manifest L (res_manifest r) (res_seen r) (arg_retention a)
               (arg_dry_run a) utcnow_prune w in
    match ph_outcome g with
    | Ok deleted =>
        let '(_, w2) :=
          print ((if arg_dry_run a then "(DRY-RUN) " else "")
                 ++ "Prune candidates deleted: "
                 ++ str_of_nat (List.length deleted)) (ph_world g) in
        let '(_, w3) :=
          (if arg_dry_run a && negb (Nat.eqb (List.length deleted) 0)
           then print_each deleted else ret tt) w2 in
        mkPhase (Ok deleted) (ph_manifest g) w3
    | Raise e => g
    end
  else mkPhase (Ok []) (res_manifest r) w.

(** [main], given the parsed arguments, the decoded input file and the two
    clock readings. *)
Definition main (L : libs) (a : args) (events : list event)
  (utcnow_sync utcnow_prune : datetime) : M run_result :=
  r <-- process_events L events utcnow_sync ;;
  fun w =>
    let g := prune_phase L a r utcnow_prune w in
    match ph_outcome g with
    | Raise e => (Raise e, ph_world g)
    | Ok deleted =>
        (_ <-- save_manifest L (ph_manifest g) ;;
         _ <-- print ("Finished. Wrote " ++ arg_output a ++ " and "
                      ++ arg_mapcsv a ++ ". "
                      ++ str_of_nat (List.length deleted) ++ " file(s) "
                      ++ (if arg_dry_run a then "would be " else "")
                      ++ "deleted.") ;;
         ret (mkRun r deleted (ph_manifest g))) (ph_world g)
    end.

(** ** Observations on a run *)

(** From [w] to [w'] the environment is the same and every request sent in
    between satisfies [P]. *)
Definition sent_only (P : request -> Prop) (w w' : world) : Prop :=
  environ_token w' = environ_token w /\ net w' = net w
  /\ exists new, sent w' = (new ++ sent w)%list /\ Forall P new.


(** The requests the scripts send. *)
Definition manifest_request : request := mkReq GET raw_manifest_url None None.

Definition image_request (src : string) : request := mkReq GET src None None.

Definition sha_lookup (w : world) (path : string) : request :=
  mkReq GET (contents_url path) (Some (auth_headers (environ_token w))) None.

Definition delete_request (w : world) (path message : string) (sha : pyval)
  : request :=
  mkReq DELETE (contents_url path) (Some (auth_headers (environ_token w)))
        (Some [("message", PStr message); ("sha", sha);
               ("branch", PStr BRANCH)]).

(** The error [gh_delete_file] raises on the response [r]. *)
Definition delete_failed (path : string) (r : response) : exn :=
  RuntimeError ("Delete failed for " ++ path ++ ": "
                ++ str_of_Z (status_code r) ++ " " ++ text r).

(** The store reports no object at [path] whenever its revision is looked
    up. *)
Definition absent_in_store (w : world) (path : string) : Prop :=
  forall headers log,
    exists r, net w (mkReq GET (contents_url path) headers None :: log) = Ok r
              /\ status_code r <> 200.

(** The three locals the loop reads from an event. *)
Definition event_title (ev : event) : string :=
  str_or_empty (py_or (get_val ev "title") (PStr "")).

Definition event_date (ev : event) : string :=
  str_or_empty (py_or (get_val ev "date") (PStr "")).

Definition event_src (ev : event) : string :=
  str_or_empty (get_val ev "image").

(** The repository path and the public URL of the asset of an event. *)
Definition event_path (L : libs) (ev : event) : string :=
  asset_path L (event_title ev) (event_src ev) (event_date ev).

Definition public_url_of (L : libs) (ev : event) : string :=
  PAGES_BASE ++ "/" ++ event_path L ev.



(** The images of a manifest, for lookups: none when ["images"] is missing
    or is not a dict. *)
Definition images_of (manifest : stored_manifest) : pydict stored :=
  match dict_get manifest "images" with
  | Some (Images images) => images
  | _ => []
  end.

(** What the bookkeeping raises for [path] on the images object [images],
    if anything: it raises when [images] is not a dict, or holds under
    [path] something that is not a record. *)
Definition bookkeeping_error (images : stored_images) (path : string)
  : option exn :=
  match images with
  | NotImages v => Some (AttributeError v "get")
  | Images d =>
      match dict_get d path with
      | Some (NotRec v) => Some (no_item_assignment v)
      | _ => None
      end
  end.



(** An upload the loop recorded: path, title, source. *)
Definition upload : Type := string * string * string.

Definition upload_path (u : upload) : string := fst (fst u).

(** The record the bookkeeping starts from under [path]. *)
Definition found_record (images : pydict stored) (path now title src : string)
  : pydict pyval :=
  match dict_get images path with
  | Some (Rec r) => r
  | _ => [("first_added", PStr now); ("title", PStr title);
          ("source", PStr src)]
  end.

(** The bookkeeping of an upload that was recorded. *)
Definition apply_upload (now : string) (images : pydict stored) (u : upload)
  : pydict stored :=
  dict_set images (upload_path u)
    (Rec (refreshed (found_record images (upload_path u) now (snd (fst u))
                       (snd u))
            now (snd (fst u)) (snd u))).

Definition apply_seen (seen : pyset) (u : upload) : pyset :=
  set_add (upload_path u) seen.

(** An upload filed under the path of one of [events]. *)
Definition from_events (L : libs) (events : list event) (u : upload) : Prop :=
  exists ev, In ev events /\ truthy (get_val ev "image") = true
             /\ upload_path u = event_path L ev.

(** Every record carries both stamps, in order, and none later than
    [stamp]. *)
Definition ordered_records (stamp : string) (images : pydict stored)
  : Prop :=
  forall p rec,
    dict_get images p = Some (Rec rec) ->
    exists fa ls,
      dict_get rec "first_added" = Some (PStr fa)
      /\ dict_get rec "last_seen" = Some (PStr ls)
      /\ (fa <=? ls)%string = true
      /\ (ls <=? stamp)%string = true.

(** The uploads a run records when every event with an image goes
    through. *)
Definition uploads_of (L : libs) (events : list event) : list upload :=
  map (fun ev => (event_path L ev, event_title ev, event_src ev))
      (filter (fun ev => truthy (get_val ev "image")) events).

(** The bookkeeping can record every event of [events] in [images]. *)
Definition recordable (L : libs) (events : list event)
  (images : stored_images) : Prop :=
  forall ev, In ev events -> truthy (get_val ev "image") = true ->
             bookkeeping_error images (event_path L ev) = None.

(** A response with which the request [q] of an upload goes through: an
    image is served with a status [raise_for_status] lets pass and a body
    that transcodes; a revision lookup answered with 200 has a body that
    decodes; a PUT is answered with a status below 400. *)
Definition accepts (L : libs) (q : request) (r : response) : Prop :=
  match req_method q, req_headers q with
  | GET, None =>
      raise_for_status (req_url q) r = Ok tt
      /\ exists jpg, to_jpg_bytes L (text r) = Ok jpg
  | GET, Some _ =>
      status_code r = 200 -> exists j, json_object L (text r) = Ok j
  | PUT, _ => status_code r < 400
  | DELETE, _ => True
  end.

(** A run started in [w] has the credential, and once its first request
    (for the manifest) is sent, every request is answered with a response
    that lets the upload go through. *)
Definition accepting (L : libs) (w : world) : Prop :=
  truthy (environ_token w) = true
  /\ forall q past,
       (List.length (sent w) < List.length past)%nat ->
       exists r, net w (q :: past) = Ok r /\ accepts L q r.

(** [w] is a world of the run started in [w0], after its first request. *)
Definition later_in_run (w0 w : world) : Prop :=
  environ_token w = environ_token w0 /\ net w = net w0
  /\ (List.length (sent w0) < List.length (sent w))%nat.

(** The result of a sync that returned. *)
Definition result_of (x : exc sync_result * world) : sync_result :=
  match fst x with
  | Ok r => r
  | Raise _ => mkResult [] [] [] []
  end.

(** ** Test doubles *)

(** Libraries for examples: titles are their own slugs, the digest is a
    constant, transcoding and base64 are the identity, a contents response
    carries its revision as its body, and the manifest file decodes to
    [stored]. *)
Definition demo_libs (stored : stored_manifest) : libs :=
  mkLibs (fun title => title)
         (fun _ => "d41d8cd98f00b204e9800998ecf8427e")
         (fun data => Ok data)
         (fun data => data)
         (fun body => Ok [("sha", PStr body)])
         (fun _ => Ok stored)
         (fun _ => "{}").

(** The same, with a manifest file that is not JSON. *)
Definition demo_libs_undecodable : libs :=
  mkLibs (fun title => title)
         (fun _ => "d41d8cd98f00b204e9800998ecf8427e")
         (fun data => Ok data)
         (fun data => data)
         (fun body => Ok [("sha", PStr body)])
         (fun _ => Raise (mkExn "JSONDecodeError" "Expecting value"))
         (fun _ => "{}").

Definition resp_ok : exc response := Ok (mkResp 200 "OK" "3f2a").
Definition resp_not_found : exc response := Ok (mkResp 404 "Not Found" "").
Definition resp_server_error : exc response :=
  Ok (mkResp 500 "Internal Server Error" "boom").
Definition ConnectionError : exn := mkExn "ConnectionError" "network is down".

(** A network that answers by method only. *)
Definition net_by_method (on_get on_put on_delete : exc response)
  : list request -> exc response :=
  fun log =>
    match log with
    | q :: _ =>
        match req_method q with
        | GET => on_get
        | PUT => on_put
        | DELETE => on_delete
        end
    | [] => on_get
    end.

(** Every request answered with 200. *)
Definition net_all_ok : list request -> exc response :=
  net_by_method resp_ok resp_ok resp_ok.

(** Objects exist, deletes are refused with 500. *)
Definition demo_failing_store : list request -> exc response :=
  net_by_method resp_ok resp_ok resp_server_error.

(** No connection at all. *)
Definition net_down : list request -> exc response :=
  fun _ => Raise ConnectionError.

(** A store in which the manifest file does not exist yet. *)
Definition net_first_run : list request -> exc response :=
  fun log =>
    match log with
    | q :: _ =>
        if (req_url q =? raw_manifest_url)%string then resp_not_found
        else resp_ok
    | [] => resp_ok
    end.

(** A store in which the first request finds nothing and every later one
    is answered with 200. *)
Definition net_fresh_store : list request -> exc response :=
  fun log =>
    match log with
    | [_] => resp_not_found
    | _ => resp_ok
    end.

(** A store that serves the manifest file and nothing else. *)
Definition net_manifest_only : list request -> exc response :=
  fun log =>
    match log with
    | q :: _ =>
        if (req_url q =? raw_manifest_url)%string then resp_ok
        else resp_not_found
    | [] => resp_ok
    end.

Definition demo_world (token : pyval) (network : list request -> exc response)
  : world :=
  mkWorld token network [] [].

Definition demo_record (first_added last_seen : string) : pydict pyval :=
  [("first_added", PStr first_added); ("title", PStr "Farmers Market");
   ("source", PStr "https://x/a.png"); ("last_seen", PStr last_seen)].

(** A manifest with a pinned asset, two stale assets and a recent one. *)
Definition demo_manifest : manifest_t :=
  [("images",
    [("img/static/logo.jpg",
      demo_record "2024-01-01T00:00:00Z" "2024-01-01T00:00:00Z");
     ("img/2025/01/old-a.jpg",
      demo_record "2025-01-01T00:00:00Z" "2025-01-02T00:00:00Z");
     ("img/2025/02/old-b.jpg",
      demo_record "2025-02-01T00:00:00Z" "2025-02-02T00:00:00Z");
     ("img/2025/09/new.jpg",
      demo_record "2025-09-01T00:00:00Z" "2025-10-30T00:00:00Z")])].

(** A manifest whose only entry never recorded when it was last seen. *)
Definition demo_manifest_unstamped : manifest_t :=
  [("images",
    [("img/2019/05/ancient.jpg",
      [("first_added", PStr "2019-05-01T00:00:00Z");
       ("title", PStr "Ancient"); ("last_seen", PStr "")])])].

Definition demo_now : datetime := mkDT 2025 11 5 3 4 5 0.
Definition demo_t1 : datetime := mkDT 2025 9 6 12 0 0 0.
Definition demo_t2 : datetime := mkDT 2025 9 7 12 0 0 0.

Definition demo_event : event :=
  [("image", PStr "https://x/a.png"); ("title", PStr "farmers-market");
   ("date", PStr "Sat, 06 Sep 2025")].


Definition demo_args : args :=
  mkArgs "events.json" "updated_events.json" "image_map.csv" true 60 false.

(** The manifest a first run over [demo_event] leaves, and libraries that
    decode the stored manifest file to it. *)
Definition demo_first_manifest : stored_manifest :=
  res_manifest
    (result_of (process_events (demo_libs []) [demo_event] demo_t1
                  (demo_world (PStr "t") net_first_run))).

Definition demo_resync_libs : libs := demo_libs demo_first_manifest.

(** ** More on paths *)

(** Whether the character [c] occurs in [s]. *)
Fixpoint has_char (c : ascii) (s : string) : bool :=
  match s with
  | EmptyString => false
  | String x s' => Ascii.eqb x c || has_char c s'
  end.

(** ** The uploader of bulletin_assets.py *)

Definition missing_token_simple : exn :=
  RuntimeError "Set GITHUB_TOKEN env var.".

(** [gh_headers] of bulletin_assets.py. *)
Definition gh_headers_simple : M (pydict string) :=
  fun w =>
    let tok := environ_token w in
    if negb (truthy tok) then (Raise missing_token_simple, w)
    else (Ok (auth_headers tok), w).

(** [gh_put] of bulletin_assets.py: the lookup is inlined and the answer to
    the PUT goes through [raise_for_status]. *)
Definition gh_put (L : libs) (path content message : string) : M unit :=
  let url := contents_url path in
  headers <-- gh_headers_simple ;;
  r <-- send (mkReq GET url (Some headers) None) ;;
  sha <-- (if status_code r =? 200 then
             j <-- lift (json_object L (text r)) ;;
             ret (get_val j "sha")
           else ret PNone) ;;
  let payload := [("message", PStr message);
                  ("content", PStr (b64encode L content));
                  ("branch", PStr BRANCH)] in
  let payload := if truthy sha then dict_set payload "sha" sha else payload in
  headers <-- gh_headers_simple ;;
  x <-- send (mkReq PUT url (Some headers) (Some payload)) ;;
  lift (raise_for_status url x).

(** The PUT [gh_put_file] sends for [path], given the revision found. *)
Definition put_request (L : libs) (w : world) (path content message : string)
  (sha : pyval) : request :=
  let payload := [("message", PStr message);
                  ("content", PStr (b64encode L content));
                  ("branch", PStr BRANCH)] in
  mkReq PUT (contents_url path) (Some (auth_headers (environ_token w)))
        (Some (if truthy sha then dict_set payload "sha" sha else payload)).

(** The revision [gh_get_sha] reads off the response [r]. *)
Definition sha_of_response (L : libs) (r : response) : exc pyval :=
  if status_code r =? 200 then
    j <- json_object L (text r) ;; Ok (get_val j "sha")
  else Ok PNone.

(** ** More observations on the sync *)

Definition report_header : list cell :=
  [CStr "index"; CStr "title"; CStr "original_image"; CStr "final_jpg_url";
   CStr "status"].

(** The report rows and the output events the loop produces for the event
    [ev] at index [i] on the images object [images]: one row and one event,
    or, when the bookkeeping raises after the upload, the [ok] row and the
    [error] row with the event written twice. *)
Inductive report_rows (L : libs) (images : stored_images) (i : nat)
  (ev : event) : list (list cell) -> list event -> Prop :=
| rows_no_image :
    truthy (get_val ev "image") = false ->
    report_rows L images i ev
      [[CInt i; CStr (event_title ev); CStr ""; CStr ""; CStr "no_image"]]
      [ev]
| rows_ok :
    truthy (get_val ev "image") = true ->
    bookkeeping_error images (event_path L ev) = None ->
    report_rows L images i ev
      [[CInt i; CStr (event_title ev); CStr (event_src ev);
        CStr (public_url_of L ev); CStr "ok"]]
      [dict_set ev "image_jpg" (PStr (public_url_of L ev))]
| rows_error (msg : string) :
    truthy (get_val ev "image") = true ->
    report_rows L images i ev
      [[CInt i; CStr (event_title ev); CStr (event_src ev); CStr "";
        CStr ("error: " ++ msg)]]
      [dict_set ev "image_jpg_error" (PStr msg)]
| rows_ok_error (e : exn) :
    truthy (get_val ev "image") = true ->
    bookkeeping_error images (event_path L ev) = Some e ->
    report_rows L images i ev
      [[CInt i; CStr (event_title ev); CStr (event_src ev);
        CStr (public_url_of L ev); CStr "ok"];
       [CInt i; CStr (event_title ev); CStr (event_src ev); CStr "";
        CStr ("error: " ++ exn_msg e)]]
      [dict_set (dict_set ev "image_jpg" (PStr (public_url_of L ev)))
         "image_jpg_error" (PStr (exn_msg e));
       dict_set (dict_set ev "image_jpg" (PStr (public_url_of L ev)))
         "image_jpg_error" (PStr (exn_msg e))].

(** Rows and output events, event by event, from index [i] on. *)
Inductive reported (L : libs) (images : stored_images)
  : nat -> list event -> list (list (list cell)) -> list (list event)
    -> Prop :=
| reported_nil (i : nat) : reported L images i [] [] []
| reported_cons (i : nat) (ev : event) (evs : list event)
    (row : list (list cell)) (rows : list (list (list cell)))
    (out : list event) (outs : list (list event)) :
    report_rows L images i ev row out ->
    reported L images (S i) evs rows outs ->
    reported L images i (ev :: evs) (row :: rows) (out :: outs).

Definition has_image (ev : event) : bool := truthy (get_val ev "image").

(** From [w] to [w'] at most [n] requests were sent. *)
Definition sends_at_most (n : nat) (w w' : world) : Prop :=
  exists new, sent w' = (new ++ sent w)%list /\ (List.length new <= n)%nat.

(** A request [process_events] may send for [events]: the manifest fetch,
    the fetch of an event's image, or a lookup or PUT, with the credential,
    at the contents URL of an event's asset. *)
Inductive sync_request (L : libs) (events : list event) : request -> Prop :=
| sync_manifest : sync_request L events manifest_request
| sync_image (ev : event) :
    In ev events -> truthy (get_val ev "image") = true ->
    sync_request L events (image_request (event_src ev))
| sync_store (ev : event) (q : request) :
    In ev events -> truthy (get_val ev "image") = true ->
    req_url q = contents_url (event_path L ev) ->
    req_method q = GET \/ req_method q = PUT ->
    req_headers q <> None ->
    sync_request L events q.

(** Between [w] and [w'] a PUT for [path] was sent and answered with a
    status below 400. *)
Definition accepted_put (w w' : world) (path : string) : Prop :=
  exists after before q r,
    sent w' = (after ++ q :: before ++ sent w)%list
    /\ req_method q = PUT
    /\ req_url q = contents_url path
    /\ net w (q :: before ++ sent w) = Ok r
    /\ status_code r < 400.

(** What [fetch_and_upload] sends, whatever its outcome. *)
Definition asset_request (L : libs) (title src date : string) (q : request)
  : Prop :=
  q = image_request src
  \/ (req_url q = contents_url (asset_path L title src date)
      /\ (req_method q = GET \/ req_method q = PUT)
      /\ req_headers q <> None).

(** ** More observations on the prune pass *)

(** Between [w] and [w'] a DELETE for [path] was sent and answered with 200
    or 204. *)
Definition confirmed_delete (w w' : world) (path : string) : Prop :=
  exists after before q r,
    sent w' = (after ++ q :: before ++ sent w)%list
    /\ req_method q = DELETE
    /\ req_url q = contents_url path
    /\ net w (q :: before ++ sent w) = Ok r
    /\ (status_code r = 200 \/ status_code r = 204).

(** A request the prune pass may send for the candidates [cands]: the
    lookup of a candidate, or its DELETE with the revision looked up. *)
Inductive gc_request (w : world) (retention_days : Z) (cands : list string)
  : request -> Prop :=
| gc_lookup (p : string) :
    In p cands -> gc_request w retention_days cands (sha_lookup w p)
| gc_delete (p : string) (sha : pyval) :
    In p cands -> truthy sha = true ->
    gc_request w retention_days cands
      (delete_request w p (prune_message retention_days p) sha).

(** [xs] is [ys] with some elements left out. *)
Inductive subseq {A : Type} : list A -> list A -> Prop :=
| subseq_nil : subseq [] []
| subseq_skip (x : A) (xs ys : list A) : subseq xs ys -> subseq xs (x :: ys)
| subseq_take (x : A) (xs ys : list A) :
    subseq xs ys -> subseq (x :: xs) (x :: ys).

(** The lines the dry run prints for [ps], latest first. *)
Definition dry_run_lines (ps : list string) : list string :=
  rev (map (fun p => "[DRY-RUN] Would delete: " ++ p) ps).

(** A store that holds every object asked for and accepts every delete. *)
Definition cooperative (L : libs) (w : world) : Prop :=
  truthy (environ_token w) = true
  /\ forall q log,
      (req_method q = GET ->
       exists r j, net w (q :: log) = Ok r /\ status_code r = 200
                   /\ json_object L (text r) = Ok j
                   /\ truthy (get_val j "sha") = true)
      /\ (req_method q = DELETE ->
          exists r, net w (q :: log) = Ok r
                    /\ (status_code r = 200 \/ status_code r = 204)).

(** ** More observations on a whole run *)

(** A request a run of [main] may send: one of the sync, one of a live prune
    pass, or the lookup and PUT that save the manifest. *)
Inductive run_request (L : libs) (a : args) (events : list event) (w : world)
  : request -> Prop :=
| run_sync_request (q : request) :
    sync_request L events q -> run_request L a events w q
| run_gc_request (cands : list string) (q : request) :
    arg_prune a = true -> arg_dry_run a = false ->
    gc_request w (arg_retention a) cands q ->
    run_request L a events w q
| run_save_request (q : request) :
    req_url q = contents_url MANIFEST_PATH ->
    req_method q = GET \/ req_method q = PUT ->
    req_headers q <> None ->
    run_request L a events w q.

(** The line [main] prints last. *)
Definition finished_line (a : args) (deleted : list string) : string :=
  "Finished. Wrote " ++ arg_output a ++ " and " ++ arg_mapcsv a ++ ". "
  ++ str_of_nat (List.length deleted) ++ " file(s) "
  ++ (if arg_dry_run a then "would be " else "") ++ "deleted.".

(** ** bulletin_assets.py: the loop of [main] *)

(** The statements of the [try] block of [main] in bulletin_assets.py:
    fetch, transcode with [to_jpg], name, upload with [gh_put].  Returns the
    public URL. *)
Definition simple_fetch_and_upload (L : libs) (to_jpg : string -> exc string)
  (title url date : string) : M string :=
  raw <-- send (mkReq GET url None None) ;;
  _ <-- lift (raise_for_status url raw) ;;
  jpg <-- lift (to_jpg (text raw)) ;;
  let fname := asset_fname L title url in
  let rel := "img/" ++ month_folder date ++ "/" ++ fname in
  _ <-- gh_put L rel jpg ("Add/Update " ++ fname) ;;
  ret (PAGES_BASE ++ "/" ++ rel).

(** One iteration of [for ev in events]: the event appended to [out]. *)
Definition simple_event (L : libs) (to_jpg : string -> exc string)
  (ev : event) (w : world) : event * world :=
  let url := get_val ev "image" in
  let title := str_or_empty (py_or (get_val ev "title") (PStr "")) in
  let date := str_or_empty (py_or (get_val ev "date") (PStr "")) in
  if negb (truthy url) then (ev, w)
  else
    let url := str_or_empty url in
    match simple_fetch_and_upload L to_jpg title url date w with
    | (Ok public_url, w') => (dict_set ev "image_jpg" (PStr public_url), w')
    | (Raise e, w') => (dict_set ev "image_jpg_error" (PStr (exn_msg e)), w')
    end.

Fixpoint simple_loop (L : libs) (to_jpg : string -> exc string)
  (events out : list event) (w : world) : list event * world :=
  match events with
  | [] => (out, w)
  | ev :: rest =>
      let '(ev', w') := simple_event L to_jpg ev w in
      simple_loop L to_jpg rest (out ++ [ev'])%list w'
  end.

(** [main] of bulletin_assets.py, given the decoded input file; returns the
    list it dumps to the output file. *)
Definition main_simple (L : libs) (to_jpg : string -> exc string)
  (events : list event) : M (list event) :=
  fun w =>
    let '(out, w') := simple_loop L to_jpg events [] w in
    (_ <-- print "Done. Wrote updated_events.json" ;; ret out) w'.

(** The repository path bulletin_assets.py gives the asset of an event. *)
Definition simple_path (L : libs) (ev : event) : string :=
  "img/" ++ month_folder (event_date ev) ++ "/"
  ++ asset_fname L (event_title ev) (event_src ev).

(** How an output event of bulletin_assets.py relates to its input. *)
Inductive simple_annotated (L : libs) (ev : event) : event -> Prop :=
| simple_no_image :
    truthy (get_val ev "image") = false -> simple_annotated L ev ev
| simple_ok :
    truthy (get_val ev "image") = true ->
    simple_annotated L ev
      (dict_set ev "image_jpg" (PStr (PAGES_BASE ++ "/" ++ simple_path L ev)))
| simple_error (msg : string) :
    truthy (get_val ev "image") = true ->
    simple_annotated L ev (dict_set ev "image_jpg_error" (PStr msg)).

(** A request bulletin_assets.py may send for [events]. *)
Inductive simple_request (L : libs) (events : list event) : request -> Prop :=
| simple_image (ev : event) :
    In ev events -> truthy (get_val ev "image") = true ->
    simple_request L events (image_request (event_src ev))
| simple_store (ev : event) (q : request) :
    In ev events -> truthy (get_val ev "image") = true ->
    req_url q = contents_url (simple_path L ev) ->
    req_method q = GET \/ req_method q = PUT ->
    req_headers q <> None ->
    simple_request L events q.

(** ** gather_events.py: the events file *)

(** The key of the comprehension of [save_events]: the tuple
    [(e["title"], e["date"], e["location"])]. *)
Definition key3 : Type := pyval * pyval * pyval.

Definition pyval_eqb (a b : pyval) : bool :=
  match a, b with
  | PNone, PNone => true
  | PStr s, PStr t => (s =? t)%string
  | _, _ => false
  end.

Definition key3_eqb (a b : key3) : bool :=
  let '(a1, a2, a3) := a in
  let '(b1, b2, b3) := b in
  pyval_eqb a1 b1 && pyval_eqb a2 b2 && pyval_eqb a3 b3.

(** A dict keyed by such tuples, in insertion order. *)
Definition kdict : Type := list (key3 * event).

Fixpoint kdict_get (d : kdict) (k : key3) : option event :=
  match d with
  | [] => None
  | (k', v) :: d' => if key3_eqb k' k then Some v else kdict_get d' k
  end.

Fixpoint kdict_set (d : kdict) (k : key3) (v : event) : kdict :=
  match d with
  | [] => [(k, v)]
  | (k', v') :: d' =>
      if key3_eqb k' k then (k', v) :: d' else (k', v') :: kdict_set d' k v
  end.

(** [e[k]] *)
Definition getitem (e : event) (k : string) : exc pyval :=
  match dict_get e k with
  | Some v => Ok v
  | None => Raise (KeyError k)
  end.

(** [load_existing_events], given the decoded content of events.json when
    the file exists. *)
Definition load_existing_events (file : option (list event)) : list event :=
  match file with
  | Some events => events
  | None => []
  end.

(** The dict comprehension of [save_events], from the dict [d] built so far:
    the condition is evaluated first, then the key. *)
Fixpoint unique_loop (all_combined : list event) (d : kdict) : exc kdict :=
  match all_combined with
  | [] => Ok d
  | e :: rest =>
      title <- getitem e "title" ;;
      keep <- (if truthy title then
                 date <- getitem e "date" ;; Ok (truthy date)
               else Ok false) ;;
      if keep : bool then
        title <- getitem e "title" ;;
        date <- getitem e "date" ;;
        location <- getitem e "location" ;;
        unique_loop rest (kdict_set d (title, date, location) e)
      else unique_loop rest d
  end.

(** U+2705 in UTF-8, as the message of [save_events] starts. *)
Definition check_mark : string :=
  String (ascii_of_nat 226) (String (ascii_of_nat 156)
    (String (ascii_of_nat 133) "")).

(** [save_events]: the new content of events.json and the line printed. *)
Definition save_events (file : option (list event)) (events : list event)
  : exc (list event * string) :=
  let existing := load_existing_events file in
  let all_combined := (existing ++ events)%list in
  unique_events <- unique_loop all_combined [] ;;
  Ok (map snd unique_events,
      check_mark ++ " Saved " ++ str_of_nat (List.length unique_events)
      ++ " total unique events to events.json").

(** What the comprehension does with one event: skip it, keep it under a
    key, or raise. *)
Definition event_key (e : event) : exc (option key3) :=
  title <- getitem e "title" ;;
  if truthy title then
    date <- getitem e "date" ;;
    if truthy date then
      location <- getitem e "location" ;; Ok (Some (title, date, location))
    else Ok None
  else Ok None.

(** The last event of [xs] kept under the key [k]. *)
Fixpoint last_with (k : key3) (xs : list event) : option event :=
  match xs with
  | [] => None
  | e :: rest =>
      match last_with k rest with
      | Some e' => Some e'
      | None =>
          match event_key e with
          | Ok (Some k') => if key3_eqb k' k then Some e else None
          | _ => None
          end
      end
  end.

(** Entries sit under the keys of their events. *)
Definition keyed (d : kdict) : Prop :=
  forall k e, In (k, e) d -> event_key e = Ok (Some k).

(** An event the comprehension of [save_events] can process: it has a
    title; if the title is not empty it has a date; if the date is not empty
    either it has a location. *)
Definition well_keyed (e : event) : Prop :=
  dict_mem e "title" = true
  /\ (truthy (get_val e "title") = true ->
      dict_mem e "date" = true
      /\ (truthy (get_val e "date") = true ->
          dict_mem e "location" = true)).

(** ** gather_events.py: the date of a scraped event *)

Definition day_names : list string :=
  ["Mon"; "Tue"; "Wed"; "Thu"; "Fri"; "Sat"; "Sun"].

Definition month_names : list string :=
  ["Jan"; "Feb"; "Mar"; "Apr"; "May"; "Jun"; "Jul"; "Aug"; "Sep"; "Oct";
   "Nov"; "Dec"].

(** [dt.weekday()]: Monday is 0. *)
Definition weekday (t : datetime) : Z :=
  (ymd2ord (dt_year t) (dt_month t) (dt_day t) + 6) mod 7.

(** [dt.strftime("%a, %d %b %Y")], as [scrape_allevents] writes the date of
    an event; the names are those of the C locale, and [%Y] prints the year
    as the C library does, in decimal without padding (the year 999 as
    ["999"]). *)
Definition strftime_a_d_b_Y (t : datetime) : string :=
  nth (Z.to_nat (weekday t)) day_names "" ++ ", " ++ pad2 (dt_day t) ++ " "
  ++ nth (Z.to_nat (dt_month t - 1)) month_names "" ++ " "
  ++ str_of_Z (dt_year t).

(** * Properties *)

Example month_folder_from_date_sample :
  month_folder_from_date "Sat, 06 Sep 2025" = "2025/09".
Proof. reflexivity. Qed.

Example month_folder_from_date_garbage :
  month_folder_from_date "garbage" = "undated".
Proof. reflexivity. Qed.

Example month_folder_from_date_unknown :
  month_folder_from_date "Sat, 06 Xyz 2025" = "2025/00".
Proof. reflexivity. Qed.

Example month_folder_unknown :
  month_folder "Sat, 06 Xyz 2025" = "undated".
Proof. reflexivity. Qed.

Example ymd2ord_sample : ymd2ord 2025 9 6 = 739500.
Proof. reflexivity. Qed.

Example ord2ymd_sample : ord2ymd 739500 = (2025, 9, 6).
Proof. reflexivity. Qed.

Example now_iso_sample :
  now_iso (mkDT 2025 9 6 3 4 5 123) = "2025-09-06T03:04:05Z".
Proof. reflexivity. Qed.

Example minus_days_sample :
  minus_days (mkDT 2025 11 5 3 4 5 0) 60 = Ok (mkDT 2025 9 6 3 4 5 0).
Proof. reflexivity. Qed.

(** ** Splitting and stripping *)

Lemma append_empty_r (s : string) : s ++ "" = s.
Proof. induction s as [|c s IH]; simpl; [reflexivity | now rewrite IH]. Qed.

Lemma append_assoc (a b c : string) : (a ++ b) ++ c = a ++ (b ++ c).
Proof. induction a as [|x a IH]; simpl; [reflexivity | now rewrite IH]. Qed.

Lemma is_empty_true (s : string) : is_empty s = true -> s = "".
Proof. destruct s; [reflexivity | discriminate]. Qed.

Lemma is_empty_append (a b : string) :
  is_empty (a ++ b) = is_empty a && is_empty b.
Proof. destruct a; reflexivity. Qed.

Lemma split_lstrip (s : string) : split_from "" (lstrip s) = split_from "" s.
Proof.
  induction s as [|c s IH]; simpl; [reflexivity|].
  destruct (isspace c) eqn:Hc; simpl.
  - exact IH.
  - now rewrite Hc.
Qed.

Lemma split_from_rstrip_empty (s : string) :
  rstrip s = "" -> split_from "" s = [].
Proof.
  induction s as [|c s IH]; simpl; [reflexivity|].
  destruct (isspace c) eqn:Hc; simpl.
  - destruct (is_empty (rstrip s)) eqn:He; [|discriminate].
    intros _. apply IH. now apply is_empty_true.
  - discriminate.
Qed.

Lemma split_rstrip (s cur : string) :
  split_from cur (rstrip s) = split_from cur s.
Proof.
  revert cur; induction s as [|c s IH]; intros cur; simpl; [reflexivity|].
  destruct (isspace c) eqn:Hc; simpl.
  - destruct (is_empty (rstrip s)) eqn:He; simpl.
    + rewrite (split_from_rstrip_empty s (is_empty_true _ He)).
      reflexivity.
    + rewrite Hc. now rewrite IH.
  - rewrite Hc. apply IH.
Qed.

Lemma split_strip (s : string) : split (strip s) = split s.
Proof.
  unfold split, strip. rewrite split_rstrip. apply split_lstrip.
Qed.

Lemma split_from_no_space (t cur rest : string) :
  no_space t = true -> split_from cur (t ++ rest) = split_from (cur ++ t) rest.
Proof.
  revert cur; induction t as [|c t IH]; intros cur H; simpl in *.
  - now rewrite append_empty_r.
  - apply andb_prop in H as [Hc Ht].
    apply negb_true_iff in Hc. rewrite Hc.
    rewrite IH by exact Ht. now rewrite append_assoc.
Qed.

Lemma split_from_token (t rest : string) :
  is_token t = true ->
  split_from "" (t ++ String " " rest) = t :: split_from "" rest.
Proof.
  intros H. apply andb_prop in H as [Hne Hns].
  rewrite split_from_no_space by exact Hns. simpl.
  apply negb_true_iff in Hne. now rewrite Hne.
Qed.

Lemma split_from_last_token (t : string) :
  is_token t = true -> split_from "" t = [t].
Proof.
  intros H. apply andb_prop in H as [Hne Hns].
  rewrite <- (append_empty_r t) at 1.
  rewrite split_from_no_space by exact Hns. simpl.
  apply negb_true_iff in Hne. now rewrite Hne.
Qed.

Lemma split_four_tokens (a b c d : string) :
  is_token a = true -> is_token b = true ->
  is_token c = true -> is_token d = true ->
  split (a ++ " " ++ b ++ " " ++ c ++ " " ++ d) = [a; b; c; d].
Proof.
  intros Ha Hb Hc Hd. unfold split.
  change (a ++ " " ++ b ++ " " ++ c ++ " " ++ d)
    with (a ++ String " " (b ++ String " " (c ++ String " " d))).
  rewrite split_from_token by exact Ha.
  rewrite split_from_token by exact Hb.
  rewrite split_from_token by exact Hc.
  now rewrite split_from_last_token by exact Hd.
Qed.

Lemma index_last_last (parts : list string) :
  parts <> [] -> index_last parts = Ok (last parts "").
Proof.
  intros H. unfold index_last.
  destruct (exists_last H) as [l [x ->]].
  rewrite rev_app_distr, last_last. reflexivity.
Qed.

Lemma months_values (mon mm : string) :
  dict_get months mon = Some mm -> String.length mm = 2%nat.
Proof.
  unfold months; simpl.
  repeat (match goal with
          | |- context [if ?b then _ else _] => destruct b
          end; [intros H; injection H as <-; reflexivity|]).
  discriminate.
Qed.

(** How both folder functions read the token list. *)
Lemma month_folder_from_date_tokens (datestr : string) :
  month_folder_from_date datestr =
  match nth_error (split datestr) 2 with
  | Some mon => last (split datestr) "" ++ "/" ++ months_get mon
  | None => "undated"
  end.
Proof.
  unfold month_folder_from_date, month_folder_from_date_try.
  rewrite split_strip.
  destruct (split datestr) as [|a [|b [|c r]]] eqn:E; try reflexivity.
  rewrite index_last_last by discriminate.
  reflexivity.
Qed.

Lemma month_folder_tokens (date_str : string) :
  month_folder date_str =
  match nth_error (split date_str) 2 with
  | Some mon =>
      match dict_get months mon with
      | Some m => last (split date_str) "" ++ "/" ++ m
      | None => "undated"
      end
  | None => "undated"
  end.
Proof.
  unfold month_folder, month_folder_try.
  destruct (split date_str) as [|a [|b [|c r]]] eqn:E; try reflexivity.
  rewrite index_last_last by discriminate.
  unfold index_nth, months_item; cbn [nth_error bind].
  destruct (dict_get months c); reflexivity.
Qed.

(** C5, as the code has it.  Both folder functions are total (every raise
    inside the [try] is turned into ["undated"]).  On a string of the form
    ["<weekday> <day> <month-abbrev> <year>"] they return
    ["<year>/<two-digit month>"]; on fewer than three whitespace-separated
    tokens they return ["undated"]; on three tokens or more the year is the
    last token and the month is read from the third one, where an unknown
    abbreviation gives ["<year>/00"] in [month_folder_from_date] and
    ["undated"] in [month_folder]. *)
Theorem month_folder_from_date_cases :
  (forall wd dd mon yr mm,
      is_token wd = true -> is_token dd = true ->
      is_token mon = true -> is_token yr = true ->
      dict_get months mon = Some mm ->
      month_folder_from_date (wd ++ " " ++ dd ++ " " ++ mon ++ " " ++ yr)
      = yr ++ "/" ++ mm
      /\ month_folder (wd ++ " " ++ dd ++ " " ++ mon ++ " " ++ yr)
         = yr ++ "/" ++ mm
      /\ String.length mm = 2%nat)
  /\ (forall datestr,
         (List.length (split datestr) < 3)%nat ->
         month_folder_from_date datestr = "undated"
         /\ month_folder datestr = "undated")
  /\ (forall datestr mon,
         nth_error (split datestr) 2 = Some mon ->
         month_folder_from_date datestr
         = last (split datestr) "" ++ "/" ++ months_get mon
         /\ (dict_get months mon = None ->
             month_folder_from_date datestr = last (split datestr) "" ++ "/00"
             /\ month_folder datestr = "undated")).
Proof.
  split; [|split].
  - intros wd dd mon yr mm Hw Hd Hm Hy Hmm.
    rewrite month_folder_from_date_tokens, month_folder_tokens.
    rewrite split_four_tokens by assumption.
    cbn [nth_error last]. unfold months_get. rewrite Hmm.
    split; [reflexivity|]. split; [reflexivity|].
    eapply months_values; eauto.
  - intros datestr Hlen.
    rewrite month_folder_from_date_tokens, month_folder_tokens.
    destruct (split datestr) as [|a [|b [|c r]]]; simpl in *;
      try (split; reflexivity).
    lia.
  - intros datestr mon Hn.
    rewrite month_folder_from_date_tokens, month_folder_tokens, Hn.
    split; [reflexivity|].
    intros Hnone. unfold months_get. rewrite Hnone. split; reflexivity.
Qed.

Lemma month_folder_from_date_cases_witness :
  (month_folder_from_date "Sat, 06 Sep 2025" = "2025/09"
   /\ month_folder "Sat, 06 Sep 2025" = "2025/09"
   /\ String.length "09" = 2%nat)
  /\ (month_folder_from_date "garbage" = "undated"
      /\ month_folder "garbage" = "undated")
  /\ (month_folder_from_date "Sat, 06 Xyz 2025" = "2025/00"
      /\ month_folder "Sat, 06 Xyz 2025" = "undated").
Proof.
  destruct month_folder_from_date_cases as (H1 & H2 & H3).
  split; [|split].
  - exact (H1 "Sat," "06" "Sep" "2025" "09"
             eq_refl eq_refl eq_refl eq_refl eq_refl).
  - exact (H2 "garbage" (le_S _ _ (le_n 2))).
  - exact (proj2 (H3 "Sat, 06 Xyz 2025" "Xyz" eq_refl) eq_refl).
Defined.

(** C5 as worded fails: an unknown month abbreviation, and a fifth token,
    do not give ["undated"]. *)
Lemma month_folder_from_date_not_undated :
  month_folder_from_date "Sat, 06 Xyz 2025" = "2025/00"
  /\ month_folder_from_date "Sat, 06 Xyz 2025" <> "undated"
  /\ month_folder_from_date "Sat, 06 Sep 2025 noon" = "noon/09".
Proof.
  split; [reflexivity|]. split; [|reflexivity].
  vm_compute. discriminate.
Qed.

(** ** The order of strings *)

Lemma string_compare_refl (s : string) : (s ?= s)%string = Eq.
Proof.
  induction s as [|c s IH]; simpl; [reflexivity|].
  unfold Ascii.compare. now rewrite N.compare_refl.
Qed.

Lemma string_leb_refl (s : string) : (s <=? s)%string = true.
Proof. unfold String.leb. now rewrite string_compare_refl. Qed.

Lemma string_compare_lt_trans (a : string) :
  forall b c,
    (a ?= b)%string = Lt -> (b ?= c)%string = Lt -> (a ?= c)%string = Lt.
Proof.
  induction a as [|x a IH]; intros [|y b] [|z c]; simpl;
    try discriminate; try reflexivity.
  unfold Ascii.compare.
  destruct (N.compare_spec (N_of_ascii x) (N_of_ascii y));
    destruct (N.compare_spec (N_of_ascii y) (N_of_ascii z));
    destruct (N.compare_spec (N_of_ascii x) (N_of_ascii z));
    try discriminate; try reflexivity; try lia.
  apply IH.
Qed.

Lemma string_leb_trans (a b c : string) :
  (a <=? b)%string = true -> (b <=? c)%string = true ->
  (a <=? c)%string = true.
Proof.
  unfold String.leb. intros Hab Hbc.
  destruct (a ?= b)%string eqn:E1; [| |discriminate].
  - apply String.compare_eq_iff in E1. now subst.
  - destruct (b ?= c)%string eqn:E2; [| |discriminate].
    + apply String.compare_eq_iff in E2. subst. now rewrite E1.
    + now rewrite (string_compare_lt_trans a b c E1 E2).
Qed.

(** ** Dictionaries *)

Section DictFacts.
Context {V : Type}.
Implicit Types (d : pydict V) (k : string) (v : V).

Lemma dict_get_set_same d k v : dict_get (dict_set d k v) k = Some v.
Proof.
  induction d as [|[k' v'] d IH]; simpl.
  - now rewrite String.eqb_refl.
  - destruct (k' =? k)%string eqn:E; simpl; rewrite E; [reflexivity | exact IH].
Qed.

Lemma dict_get_set_other d k k' v :
  k <> k' -> dict_get (dict_set d k v) k' = dict_get d k'.
Proof.
  intros Hne. induction d as [|[k0 v0] d IH]; simpl.
  - apply String.eqb_neq in Hne. now rewrite Hne.
  - destruct (k0 =? k)%string eqn:E; simpl.
    + apply String.eqb_eq in E; subst k0.
      apply String.eqb_neq in Hne. now rewrite Hne.
    + now rewrite IH.
Qed.

Lemma dict_get_pop_other d k k' :
  k <> k' -> dict_get (dict_pop d k) k' = dict_get d k'.
Proof.
  intros Hne. induction d as [|[k0 v0] d IH]; simpl; [reflexivity|].
  destruct (k0 =? k)%string eqn:E; simpl.
  - apply String.eqb_eq in E; subst k0.
    apply String.eqb_neq in Hne. now rewrite Hne.
  - now rewrite IH.
Qed.

Lemma dict_get_in d k v : dict_get d k = Some v -> In (k, v) d.
Proof.
  induction d as [|[k0 v0] d IH]; simpl; [discriminate|].
  destruct (k0 =? k)%string eqn:E.
  - apply String.eqb_eq in E; subst. intros H; injection H as ->. now left.
  - intros H. right. now apply IH.
Qed.

Lemma dict_get_none_not_in d k v : dict_get d k = None -> ~ In (k, v) d.
Proof.
  induction d as [|[k0 v0] d IH]; simpl; [tauto|].
  destruct (k0 =? k)%string eqn:E; [discriminate|].
  intros H [Heq | Hin].
  - injection Heq as -> _. now rewrite String.eqb_refl in E.
  - now apply IH.
Qed.

Lemma unique_keys_in d k v :
  unique_keys d = true -> In (k, v) d -> dict_get d k = Some v.
Proof.
  induction d as [|[k0 v0] d IH]; simpl; [tauto|].
  intros Hu [Heq | Hin].
  - injection Heq as -> ->. now rewrite String.eqb_refl.
  - apply andb_prop in Hu as [Hfresh Hu].
    destruct (k0 =? k)%string eqn:E.
    + apply String.eqb_eq in E; subst k0.
      unfold dict_mem in Hfresh.
      destruct (dict_get d k) eqn:G; [discriminate|].
      exfalso. eapply dict_get_none_not_in; eauto.
    + now apply IH.
Qed.

Lemma dict_keys_set_present d k v v0 :
  dict_get d k = Some v0 -> dict_keys (dict_set d k v) = dict_keys d.
Proof.
  induction d as [|[k1 v1] d IH]; simpl; [discriminate|].
  destruct (k1 =? k)%string eqn:E; simpl; [reflexivity|].
  intros H. now rewrite IH.
Qed.

Lemma dict_keys_set_absent d k v :
  dict_get d k = None -> dict_keys (dict_set d k v) = (dict_keys d ++ [k])%list.
Proof.
  induction d as [|[k1 v1] d IH]; simpl; [reflexivity|].
  destruct (k1 =? k)%string eqn:E; simpl; [discriminate|].
  intros H. now rewrite IH.
Qed.
End DictFacts.

Lemma manifest_images_set (m : manifest_t) (images : images_t) :
  manifest_images (dict_set m "images" images) = images.
Proof. unfold manifest_images. now rewrite dict_get_set_same. Qed.

Lemma set_mem_in (x : string) (s : pyset) : set_mem x s = true <-> In x s.
Proof.
  unfold set_mem. rewrite existsb_exists. split.
  - intros [y [Hin Hy]]. apply String.eqb_eq in Hy. now subst.
  - intros Hin. exists x. split; [exact Hin | apply String.eqb_refl].
Qed.

Lemma set_add_in (x y : string) (s : pyset) :
  In x (set_add y s) <-> x = y \/ In x s.
Proof.
  unfold set_add. destruct (set_mem y s) eqn:E.
  - apply set_mem_in in E. split; [tauto|]. intros [-> | H]; assumption.
  - rewrite in_app_iff. simpl. split; intros H; intuition congruence.
Qed.

(** ** Requests sent *)

Lemma sent_only_refl (P : request -> Prop) (w : world) : sent_only P w w.
Proof. repeat split. exists []. split; [reflexivity | constructor]. Qed.

Lemma sent_only_trans (P : request -> Prop) (w1 w2 w3 : world) :
  sent_only P w1 w2 -> sent_only P w2 w3 -> sent_only P w1 w3.
Proof.
  intros (Ht1 & Hn1 & n1 & Hs1 & Hf1) (Ht2 & Hn2 & n2 & Hs2 & Hf2).
  split; [congruence|]. split; [congruence|].
  exists (n2 ++ n1)%list. split.
  - rewrite Hs2, Hs1. now rewrite app_assoc.
  - apply Forall_app. now split.
Qed.

Lemma sent_only_weaken (P Q : request -> Prop) (w w' : world) :
  (forall q, P q -> Q q) -> sent_only P w w' -> sent_only Q w w'.
Proof.
  intros HPQ (Ht & Hn & new & Hs & Hf).
  split; [exact Ht|]. split; [exact Hn|].
  exists new. split; [exact Hs|]. eapply Forall_impl; eauto.
Qed.

Lemma sent_only_send (P : request -> Prop) (q : request) (w : world) :
  P q -> sent_only P w (snd (send q w)).
Proof.
  intros HP. unfold send; simpl. repeat split.
  exists [q]. split; [reflexivity | now constructor].
Qed.

Lemma sent_only_print (P : request -> Prop) (line : string) (w : world) :
  sent_only P w (snd (print line w)).
Proof.
  unfold print; simpl. repeat split. exists [].
  split; [reflexivity | constructor].
Qed.

Lemma sent_only_bind {A B} (P : request -> Prop) (m : M A) (k : A -> M B)
  (w : world) :
  sent_only P w (snd (m w)) ->
  (forall a w', sent_only P w' (snd (k a w'))) ->
  sent_only P w (snd (bindM m k w)).
Proof.
  intros Hm Hk. unfold bindM.
  destruct (m w) as [[a|e] w']; cbn [snd] in *.
  - eapply sent_only_trans; [exact Hm | apply Hk].
  - exact Hm.
Qed.

Lemma sent_only_ret {A} (P : request -> Prop) (a : A) (w : world) :
  sent_only P w (snd (ret a w)).
Proof. apply sent_only_refl. Qed.

Lemma sent_only_raise {A} (P : request -> Prop) (e : exn) (w : world) :
  sent_only P w (snd (@raise A e w)).
Proof. apply sent_only_refl. Qed.

Lemma sent_only_lift {A} (P : request -> Prop) (m : exc A) (w : world) :
  sent_only P w (snd (lift m w)).
Proof. apply sent_only_refl. Qed.

Lemma sent_only_gh_headers (P : request -> Prop) (w : world) :
  sent_only P w (snd (gh_headers w)).
Proof.
  unfold gh_headers. destruct (negb (truthy (environ_token w)));
    apply sent_only_refl.
Qed.

Lemma gh_get_sha_sent (L : libs) (path : string) (w : world) :
  sent_only (fun q => req_url q = contents_url path /\ req_method q = GET)
            w (snd (gh_get_sha L path w)).
Proof.
  unfold gh_get_sha.
  apply sent_only_bind; [apply sent_only_gh_headers|]. intros h w1.
  apply sent_only_bind; [apply sent_only_send; now split|]. intros r w2.
  destruct (status_code r =? 200); [|apply sent_only_ret].
  apply sent_only_bind; [apply sent_only_lift|]. intros j w3.
  apply sent_only_ret.
Qed.

Lemma gh_delete_file_sent (L : libs) (path message : string) (dry_run : bool)
  (w : world) :
  sent_only (fun q => req_url q = contents_url path)
            w (snd (gh_delete_file L path message dry_run w)).
Proof.
  unfold gh_delete_file. destruct dry_run.
  - apply sent_only_bind; [apply sent_only_print|]. intros _ w1.
    apply sent_only_ret.
  - apply sent_only_bind.
    { eapply sent_only_weaken; [|apply gh_get_sha_sent]. simpl; tauto. }
    intros sha w1.
    destruct (negb (truthy sha)); [apply sent_only_ret|].
    apply sent_only_bind; [apply sent_only_gh_headers|]. intros h w2.
    apply sent_only_bind; [apply sent_only_send; reflexivity|]. intros r w3.
    destruct (negb _); [apply sent_only_raise | apply sent_only_ret].
Qed.

(** ** The garbage collector *)

Lemma contents_url_inj (p p' : string) :
  contents_url p = contents_url p' -> p = p'.
Proof.
  unfold contents_url, OWNER, REPO. simpl. intros H. now inversion H.
Qed.

Lemma pop_image_images (m m' : manifest_t) (path : string) :
  pop_image m path = Ok m' ->
  manifest_images m' = dict_pop (manifest_images m) path.
Proof.
  unfold pop_image, manifest_images at 2.
  destruct (dict_get m "images") as [images|]; [|discriminate].
  intros H; injection H as <-. apply manifest_images_set.
Qed.

(** What the deletion loop can touch: only the store objects of the paths
    it was given, and only their manifest entries; and it reports nothing
    else. *)
Lemma prune_loop_frame (L : libs) (retention_days : Z) (dry_run : bool)
  (to_delete : list string) :
  forall (deleted : list string) (m : manifest_t) (w : world),
    let g := prune_loop L retention_days dry_run to_delete deleted m w in
    sent_only (fun q => exists p, In p to_delete /\ req_url q = contents_url p)
              w (gc_world g)
    /\ (forall p, ~ In p to_delete ->
                  dict_get (manifest_images (gc_manifest g)) p
                  = dict_get (manifest_images m) p)
    /\ (forall ds, gc_outcome g = Ok ds ->
                   forall p, In p ds -> In p deleted \/ In p to_delete).
Proof.
  induction to_delete as [|path rest IH]; intros deleted m w; cbn zeta.
  - simpl. split; [apply sent_only_refl|]. split; [reflexivity|].
    intros ds H p Hp. injection H as <-. now left.
  - cbn [prune_loop].
    pose proof (gh_delete_file_sent L path
                  (prune_message retention_days path) dry_run w) as Hs.
    apply (sent_only_weaken _
             (fun q => exists p, In p (path :: rest)
                                 /\ req_url q = contents_url p)) in Hs.
    2:{ intros q Hq. exists path. split; [now left | exact Hq]. }
    assert (Hweak : forall w1 w2,
               sent_only (fun q => exists p, In p rest
                                             /\ req_url q = contents_url p)
                         w1 w2 ->
               sent_only (fun q => exists p, In p (path :: rest)
                                             /\ req_url q = contents_url p)
                         w1 w2).
    { intros w1 w2. apply sent_only_weaken.
      intros q (p & Hp & Hq). exists p. split; [now right | exact Hq]. }
    destruct (gh_delete_file L path (prune_message retention_days path)
                dry_run w) as [[[|]|e] w'] eqn:E; cbn [snd] in Hs.
    + destruct (negb dry_run) eqn:Hdry.
      * destruct (pop_image m path) as [m'|e] eqn:Hpop.
        -- specialize (IH (deleted ++ [path])%list m' w').
           cbn zeta in IH. destruct IH as (IH1 & IH2 & IH3).
           split; [eapply sent_only_trans; eauto|]. split.
           ++ intros p Hp. rewrite IH2 by (intros Hin; apply Hp; now right).
              rewrite (pop_image_images _ _ _ Hpop).
              apply dict_get_pop_other. intros ->. apply Hp. now left.
           ++ intros ds Hds p Hp. destruct (IH3 ds Hds p Hp) as [Hin | Hin].
              ** apply in_app_or in Hin as [Hin | [<- | []]];
                   [now left | right; now left].
              ** right; now right.
        -- cbn. split; [exact Hs|]. split; [reflexivity | discriminate].
      * specialize (IH (deleted ++ [path])%list m w').
        cbn zeta in IH. destruct IH as (IH1 & IH2 & IH3).
        split; [eapply sent_only_trans; eauto|]. split.
        -- intros p Hp. apply IH2. intros Hin; apply Hp; now right.
        -- intros ds Hds p Hp. destruct (IH3 ds Hds p Hp) as [Hin | Hin].
           ++ apply in_app_or in Hin as [Hin | [<- | []]];
                [now left | right; now left].
           ++ right; now right.
    + specialize (IH deleted m w').
      cbn zeta in IH. destruct IH as (IH1 & IH2 & IH3).
      split; [eapply sent_only_trans; eauto|]. split.
      * intros p Hp. apply IH2. intros Hin; apply Hp; now right.
      * intros ds Hds p Hp. destruct (IH3 ds Hds p Hp) as [Hin | Hin];
          [now left | right; now right].
    + cbn. split; [exact Hs|]. split; [reflexivity | discriminate].
Qed.

Lemma in_to_delete (m : manifest_t) (seen : pyset) (cutoff path : string) :
  In path (to_delete_of m seen cutoff) <->
  exists rec, In (path, rec) (manifest_images m)
              /\ is_candidate seen cutoff (path, rec) = true.
Proof.
  unfold to_delete_of. rewrite in_map_iff. split.
  - intros [[p rec] [Hp Hin]]. simpl in Hp; subst p.
    apply filter_In in Hin. now exists rec.
  - intros [rec [Hin Hc]]. exists (path, rec). split; [reflexivity|].
    apply filter_In. now split.
Qed.

Lemma candidate_unprotected_unseen (seen : pyset) (cutoff path : string)
  (rec : pydict pyval) :
  is_candidate seen cutoff (path, rec) = true ->
  is_protected path = false /\ set_mem path seen = false
  /\ truthy (get_val rec "last_seen") = true
  /\ (str_or_empty (get_val rec "last_seen") <? cutoff)%string = true.
Proof.
  unfold is_candidate. destruct (is_protected path); [discriminate|].
  intros H. apply andb_prop in H as [H H3]. apply andb_prop in H as [H1 H2].
  apply negb_true_iff in H1. tauto.
Qed.

(** What [prune_old] leaves alone, for any path that is not a candidate. *)
Lemma prune_old_frame (L : libs) (m : manifest_t) (seen : pyset)
  (retention_days : Z) (dry_run : bool) (utcnow : datetime) (w : world)
  (path : string) :
  (forall cutoff, ~ In path (to_delete_of m seen cutoff)) ->
  let g := prune_old L m seen retention_days dry_run utcnow w in
  dict_get (manifest_images (gc_manifest g)) path
  = dict_get (manifest_images m) path
  /\ (forall deleted, gc_outcome g = Ok deleted -> ~ In path deleted)
  /\ exists new, sent (gc_world g) = (new ++ sent w)%list
                 /\ forall q, In q new -> req_url q <> contents_url path.
Proof.
  intros Hnot. unfold prune_old.
  destruct (cutoff_iso_of utcnow retention_days) as [cutoff|e]; cbn zeta.
  - destruct (prune_loop_frame L retention_days dry_run
                (to_delete_of m seen cutoff) [] m w) as (H1 & H2 & H3).
    split; [apply H2, Hnot|]. split.
    + intros deleted Hd Hin. destruct (H3 deleted Hd path Hin) as [[]|Hc].
      now apply (Hnot cutoff).
    + destruct H1 as (_ & _ & new & Hs & Hf). exists new. split; [exact Hs|].
      intros q Hq Hurl. rewrite Forall_forall in Hf.
      destruct (Hf q Hq) as (p & Hp & Hpu).
      rewrite Hurl in Hpu. apply contents_url_inj in Hpu. subst p.
      now apply (Hnot cutoff).
  - cbn. split; [reflexivity|]. split; [discriminate|].
    exists []. split; [reflexivity | intros q []].
Qed.

(** C1.  Whatever the manifest, seen set, retention window, mode, clock and
    network: an entry whose path starts with a protected prefix, and an
    entry whose path is in the seen set, keeps its manifest entry, is not
    among the reported deletions, and no request at all is sent to the
    store for its path. *)
Theorem prune_never_deletes_protected_or_seen (L : libs) (m : manifest_t)
  (seen : pyset) (retention_days : Z) (dry_run : bool) (utcnow : datetime)
  (w : world) (path : string) :
  is_protected path = true \/ set_mem path seen = true ->
  let g := prune_old L m seen retention_days dry_run utcnow w in
  dict_get (manifest_images (gc_manifest g)) path
  = dict_get (manifest_images m) path
  /\ (forall deleted, gc_outcome g = Ok deleted -> ~ In path deleted)
  /\ exists new, sent (gc_world g) = (new ++ sent w)%list
                 /\ forall q, In q new -> req_url q <> contents_url path.
Proof.
  intros Hps. apply prune_old_frame.
  intros cutoff Hin. apply in_to_delete in Hin as (rec & _ & Hc).
  apply candidate_unprotected_unseen in Hc as (Hp & Hs & _).
  destruct Hps; congruence.
Qed.

Lemma prune_never_deletes_protected_or_seen_witness :
  let g := prune_old (demo_libs []) demo_manifest ["img/2025/02/old-b.jpg"]
             60 false demo_now
             (demo_world (PStr "t") (net_by_method resp_ok resp_ok resp_ok)) in
  dict_get (manifest_images (gc_manifest g)) "img/static/logo.jpg"
  = dict_get (manifest_images demo_manifest) "img/static/logo.jpg"
  /\ (forall deleted, gc_outcome g = Ok deleted ->
                      ~ In "img/static/logo.jpg" deleted)
  /\ exists new, sent (gc_world g) = (new ++ [])%list
                 /\ forall q, In q new ->
                              req_url q <> contents_url "img/static/logo.jpg".
Proof.
  exact (prune_never_deletes_protected_or_seen (demo_libs []) demo_manifest
           ["img/2025/02/old-b.jpg"] 60 false demo_now
           (demo_world (PStr "t") (net_by_method resp_ok resp_ok resp_ok))
           "img/static/logo.jpg" (or_introl eq_refl)).
Defined.

(** ** Timestamps: text order is time order *)

Lemma N_of_digit (n : Z) :
  N_of_ascii (digit n) = (48 + Z.to_N (n mod 10))%N.
Proof.
  unfold digit. apply N_ascii_embedding.
  pose proof (Z.mod_pos_bound n 10 ltac:(lia)). lia.
Qed.

Lemma compare_digit_cons (a b : Z) (r1 r2 : string) :
  (String (digit a) r1 ?= String (digit b) r2)%string
  = match a mod 10 ?= b mod 10 with
    | Eq => (r1 ?= r2)%string
    | c => c
    end.
Proof.
  cbn [String.compare]. unfold Ascii.compare. rewrite !N_of_digit.
  pose proof (Z.mod_pos_bound a 10 ltac:(lia)).
  pose proof (Z.mod_pos_bound b 10 ltac:(lia)).
  assert (E : ((48 + Z.to_N (a mod 10)) ?= (48 + Z.to_N (b mod 10)))%N
              = (a mod 10 ?= b mod 10)).
  { destruct (Z.compare_spec (a mod 10) (b mod 10)) as [He|Hl|Hg].
    - rewrite He. apply N.compare_refl.
    - apply N.compare_lt_iff. lia.
    - apply N.compare_gt_iff. lia. }
  rewrite E. destruct (a mod 10 ?= b mod 10); reflexivity.
Qed.

Lemma compare_same_cons (c : ascii) (r1 r2 : string) :
  (String c r1 ?= String c r2)%string = (r1 ?= r2)%string.
Proof.
  cbn [String.compare]. unfold Ascii.compare. now rewrite N.compare_refl.
Qed.

Ltac compare_cases :=
  repeat match goal with
         | |- context [?a ?= ?b] =>
             lazymatch type of a with
             | Z => destruct (Z.compare_spec a b)
             end
         end.

Lemma compare_pad2 (x y : Z) (r1 r2 : string) :
  0 <= x < 100 -> 0 <= y < 100 ->
  (pad2 x ++ r1 ?= pad2 y ++ r2)%string
  = match x ?= y with
    | Eq => (r1 ?= r2)%string
    | c => c
    end.
Proof.
  intros Hx Hy. unfold pad2. cbn [append].
  rewrite !compare_digit_cons.
  compare_cases; try reflexivity; exfalso; Z.div_mod_to_equations; lia.
Qed.

Lemma compare_pad4 (x y : Z) (r1 r2 : string) :
  0 <= x < 10000 -> 0 <= y < 10000 ->
  (pad4 x ++ r1 ?= pad4 y ++ r2)%string
  = match x ?= y with
    | Eq => (r1 ?= r2)%string
    | c => c
    end.
Proof.
  intros Hx Hy. unfold pad4. cbn [append].
  rewrite !compare_digit_cons.
  compare_cases; try reflexivity; exfalso; Z.div_mod_to_equations; lia.
Qed.

Lemma dt_valid_ranges (t : datetime) :
  dt_valid t = true ->
  1 <= dt_year t <= 9999 /\ 1 <= dt_month t <= 12 /\ 1 <= dt_day t <= 31
  /\ 0 <= dt_hour t <= 23 /\ 0 <= dt_minute t <= 59
  /\ 0 <= dt_second t <= 59 /\ 0 <= dt_microsecond t <= 999999.
Proof.
  unfold dt_valid. rewrite !andb_true_iff, !Z.leb_le. lia.
Qed.

Lemma replace_microsecond0_valid (t : datetime) :
  dt_valid t = true -> dt_valid (replace_microsecond0 t) = true.
Proof.
  intros H. apply dt_valid_ranges in H.
  unfold dt_valid, replace_microsecond0; cbn.
  rewrite !andb_true_iff, !Z.leb_le. lia.
Qed.

(** The text [now_iso] produces, field by field. *)
Lemma now_iso_fields (t : datetime) :
  now_iso t
  = pad4 (dt_year t) ++ String "-" (pad2 (dt_month t) ++ String "-"
      (pad2 (dt_day t) ++ String "T" (pad2 (dt_hour t) ++ String ":"
        (pad2 (dt_minute t) ++ String ":" (pad2 (dt_second t) ++ "Z"))))).
Proof.
  unfold now_iso, isoformat, replace_microsecond0; cbn.
  reflexivity.
Qed.

(** On well-formed timestamps the order of the texts is the order in time:
    this is what makes [last_seen < cutoff_iso] a comparison of instants. *)
Lemma now_iso_compare (a b : datetime) :
  dt_valid a = true -> dt_valid b = true ->
  (now_iso a ?= now_iso b)%string
  = dt_compare (replace_microsecond0 a) (replace_microsecond0 b).
Proof.
  intros Ha Hb.
  apply dt_valid_ranges in Ha. apply dt_valid_ranges in Hb.
  rewrite !now_iso_fields.
  rewrite compare_pad4 by lia.
  unfold dt_compare, dt_fields, replace_microsecond0; cbn [lex_compare
    dt_year dt_month dt_day dt_hour dt_minute dt_second dt_microsecond].
  destruct (dt_year a ?= dt_year b); try reflexivity.
  rewrite compare_same_cons, compare_pad2 by lia.
  destruct (dt_month a ?= dt_month b); try reflexivity.
  rewrite compare_same_cons, compare_pad2 by lia.
  destruct (dt_day a ?= dt_day b); try reflexivity.
  rewrite compare_same_cons, compare_pad2 by lia.
  destruct (dt_hour a ?= dt_hour b); try reflexivity.
  rewrite compare_same_cons, compare_pad2 by lia.
  destruct (dt_minute a ?= dt_minute b); try reflexivity.
  rewrite compare_same_cons, compare_pad2 by lia.
  destruct (dt_second a ?= dt_second b); reflexivity.
Qed.

Lemma now_iso_ltb (a b : datetime) :
  dt_valid a = true -> dt_valid b = true ->
  (now_iso a <? now_iso b)%string
  = dt_ltb (replace_microsecond0 a) (replace_microsecond0 b).
Proof.
  intros Ha Hb. unfold String.ltb, dt_ltb. now rewrite now_iso_compare.
Qed.

Lemma now_iso_leb (a b : datetime) :
  dt_valid a = true -> dt_valid b = true ->
  (now_iso a <=? now_iso b)%string
  = dt_leb (replace_microsecond0 a) (replace_microsecond0 b).
Proof.
  intros Ha Hb. unfold String.leb, dt_leb. now rewrite now_iso_compare.
Qed.

Lemma lex_compare_refl (l : list Z) : lex_compare l l = Eq.
Proof.
  induction l as [|x l IH]; simpl; [reflexivity|].
  now rewrite Z.compare_refl.
Qed.

Lemma dt_ltb_irrefl (t : datetime) : dt_ltb t t = false.
Proof. unfold dt_ltb, dt_compare. now rewrite lex_compare_refl. Qed.

(** [date.fromordinal] lands in the calendar. *)
Lemma ord2ymd_valid (n : Z) :
  1 <= n <= MAXORDINAL ->
  let '(y, m, d) := ord2ymd n in
  1 <= y <= 9999 /\ 1 <= m <= 12 /\ 1 <= d <= 31.
Proof.
  unfold MAXORDINAL. intros Hn. unfold ord2ymd.
  set (n0 := n - 1).
  set (n400 := n0 / 146097). set (r400 := n0 mod 146097).
  set (n100 := r400 / 36524). set (r100 := r400 mod 36524).
  set (n4 := r100 / 1461). set (r4 := r100 mod 1461).
  set (n1 := r4 / 365). set (r1 := r4 mod 365).
  assert (H400 : n0 = 146097 * n400 + r400 /\ 0 <= r400 < 146097)
    by (subst n400 r400; Z.div_mod_to_equations; lia).
  assert (H100 : r400 = 36524 * n100 + r100 /\ 0 <= r100 < 36524)
    by (subst n100 r100; Z.div_mod_to_equations; lia).
  assert (H4 : r100 = 1461 * n4 + r4 /\ 0 <= r4 < 1461)
    by (subst n4 r4; Z.div_mod_to_equations; lia).
  assert (H1 : r4 = 365 * n1 + r1 /\ 0 <= r1 < 365)
    by (subst n1 r1; Z.div_mod_to_equations; lia).
  assert (Hn0 : 0 <= n0 <= 3652058) by (subst n0; lia).
  clearbody n400 r400 n100 r100 n4 r4 n1 r1 n0.
  destruct ((n1 =? 4) || (n100 =? 4)) eqn:E.
  - apply orb_true_iff in E. rewrite !Z.eqb_eq in E. lia.
  - apply orb_false_iff in E. rewrite !Z.eqb_neq in E.
    set (leap := (n1 =? 3) && (negb (n4 =? 24) || (n100 =? 3))).
    clearbody leap.
    rewrite Z.shiftr_div_pow2 by lia.
    change (2 ^ 5) with 32.
    set (m := (r1 + 50) / 32).
    assert (Hm : 32 * m <= r1 + 50 < 32 * m + 32)
      by (subst m; Z.div_mod_to_equations; lia).
    clearbody m.
    assert (Hcases : m = 1 \/ m = 2 \/ m = 3 \/ m = 4 \/ m = 5 \/ m = 6
                     \/ m = 7 \/ m = 8 \/ m = 9 \/ m = 10 \/ m = 11
                     \/ m = 12) by lia.
    assert (B400 : 0 <= n400 <= 24) by lia.
    assert (B100 : 0 <= n100 <= 3) by lia.
    assert (B4 : 0 <= n4 <= 24) by lia.
    assert (B1 : 0 <= n1 <= 3) by lia.
    assert (Hy : 1 <= n400 * 400 + 1 + n100 * 100 + n4 * 4 + n1 <= 9999)
      by lia.
    destruct Hcases
      as [->|[->|[->|[->|[->|[->|[->|[->|[->|[->|[->| ->]]]]]]]]]]];
      destruct leap;
      repeat match goal with
             | |- context [nth (Z.to_nat ?k) ?l ?d] =>
                 let v := eval vm_compute in (nth (Z.to_nat k) l d) in
                 change (nth (Z.to_nat k) l d) with v
             end;
      cbn;
      match goal with
      | |- context [?a <? ?b] => destruct (Z.ltb_spec a b)
      end; lia.
Qed.

Lemma minus_days_valid (t c : datetime) (n : Z) :
  dt_valid t = true -> minus_days t n = Ok c -> dt_valid c = true.
Proof.
  intros Ht. apply dt_valid_ranges in Ht. unfold minus_days.
  destruct (999999999 <? Z.abs n); [discriminate|].
  set (o := ymd2ord (dt_year t) (dt_month t) (dt_day t) - n).
  destruct ((0 <? o) && (o <=? MAXORDINAL)) eqn:E; [|discriminate].
  apply andb_prop in E as [E1 E2].
  apply Z.ltb_lt in E1. apply Z.leb_le in E2.
  pose proof (ord2ymd_valid o ltac:(lia)) as Hv.
  destruct (ord2ymd o) as [[y m] d].
  intros H; injection H as <-.
  unfold dt_valid; cbn. rewrite !andb_true_iff, !Z.leb_le. lia.
Qed.

(** ** Candidates of the garbage collector *)

Lemma candidate_of_entry (m : manifest_t) (seen : pyset) (cutoff path : string)
  (rec : pydict pyval) :
  unique_keys (manifest_images m) = true ->
  dict_get (manifest_images m) path = Some rec ->
  (In path (to_delete_of m seen cutoff)
   <-> is_candidate seen cutoff (path, rec) = true).
Proof.
  intros Hu Hget. rewrite in_to_delete. split.
  - intros (rec' & Hin & Hc).
    apply (unique_keys_in _ _ _ Hu) in Hin.
    rewrite Hget in Hin. injection Hin as <-. exact Hc.
  - intros Hc. exists rec. split; [now apply dict_get_in | exact Hc].
Qed.

(** In dry-run mode the pass reports exactly the candidates, in manifest
    order, and touches neither the manifest nor the store. *)
Lemma prune_loop_dry_run (L : libs) (retention_days : Z)
  (to_delete : list string) :
  forall (deleted : list string) (m : manifest_t) (w : world),
    let g := prune_loop L retention_days true to_delete deleted m w in
    gc_outcome g = Ok (deleted ++ to_delete)%list
    /\ gc_manifest g = m
    /\ sent (gc_world g) = sent w.
Proof.
  induction to_delete as [|p rest IH]; intros deleted m w; cbn zeta.
  - cbn. now rewrite app_nil_r.
  - cbn [prune_loop]. unfold gh_delete_file, bindM, print, ret. cbn [negb].
    destruct (IH (deleted ++ [p])%list m
                (mkWorld (environ_token w) (net w) (sent w)
                   (("[DRY-RUN] Would delete: " ++ p) :: stdout w)))
      as (H1 & H2 & H3).
    rewrite H1, H2, H3, <- app_assoc. now split.
Qed.

Lemma prune_old_dry_run (L : libs) (m : manifest_t) (seen : pyset)
  (retention_days : Z) (utcnow : datetime) (w : world) (cutoff : string) :
  cutoff_iso_of utcnow retention_days = Ok cutoff ->
  let g := prune_old L m seen retention_days true utcnow w in
  gc_outcome g = Ok (to_delete_of m seen cutoff)
  /\ gc_manifest g = m
  /\ sent (gc_world g) = sent w.
Proof.
  intros Hc. unfold prune_old. rewrite Hc.
  apply (prune_loop_dry_run L retention_days (to_delete_of m seen cutoff) []).
Qed.

(** C2, as the code has it.  The cutoff is the clock reading minus the
    retention days, taken to the second and printed by [now_iso]'s format.
    For an unprotected, unseen entry with a non-empty [last_seen]:
    [prune_old] selects it (the dry run reports exactly the selection, and
    no run reports a path outside it) exactly when the text of [last_seen]
    is strictly below the text of the cutoff, in the order of strings; so
    not at the cutoff itself.  When [last_seen] was written by [now_iso] at
    the instant [seen_at], and only then, this is the order of time: the
    entry is selected exactly when [seen_at], taken to the second, is
    strictly earlier than the cutoff. *)
Theorem prune_candidate_iff_strictly_older (L : libs) (m : manifest_t)
  (seen : pyset) (retention_days : Z) (utcnow cutoff_dt : datetime)
  (w : world) (path last_seen : string) (rec : pydict pyval) :
  unique_keys (manifest_images m) = true ->
  dict_get (manifest_images m) path = Some rec ->
  is_protected path = false ->
  set_mem path seen = false ->
  get_val rec "last_seen" = PStr last_seen ->
  last_seen <> "" ->
  dt_valid utcnow = true ->
  minus_days utcnow retention_days = Ok cutoff_dt ->
  cutoff_iso_of utcnow retention_days = Ok (now_iso cutoff_dt)
  /\ gc_outcome (prune_old L m seen retention_days true utcnow w)
     = Ok (to_delete_of m seen (now_iso cutoff_dt))
  /\ (In path (to_delete_of m seen (now_iso cutoff_dt))
      <-> (last_seen <? now_iso cutoff_dt)%string = true)
  /\ (forall dry_run deleted,
         gc_outcome (prune_old L m seen retention_days dry_run utcnow w)
         = Ok deleted ->
         In path deleted ->
         (last_seen <? now_iso cutoff_dt)%string = true)
  /\ (last_seen = now_iso cutoff_dt ->
      ~ In path (to_delete_of m seen (now_iso cutoff_dt)))
  /\ (forall seen_at,
         dt_valid seen_at = true ->
         last_seen = now_iso seen_at ->
         (In path (to_delete_of m seen (now_iso cutoff_dt))
          <-> dt_ltb (replace_microsecond0 seen_at)
                     (replace_microsecond0 cutoff_dt) = true)).
Proof.
  intros Hu Hget Hprot Hseen Hls Hne Hnow Hcut.
  assert (Hcv : dt_valid cutoff_dt = true) by (eapply minus_days_valid; eauto).
  assert (Hc : cutoff_iso_of utcnow retention_days = Ok (now_iso cutoff_dt)).
  { unfold cutoff_iso_of. rewrite Hcut. reflexivity. }
  assert (Hiff : In path (to_delete_of m seen (now_iso cutoff_dt))
                 <-> (last_seen <? now_iso cutoff_dt)%string = true).
  { rewrite (candidate_of_entry m seen _ path rec Hu Hget).
    unfold is_candidate. rewrite Hprot, Hseen, Hls.
    cbn [negb andb str_or_empty truthy].
    apply String.eqb_neq in Hne. rewrite Hne. reflexivity. }
  split; [exact Hc|]. split; [|split; [exact Hiff|split; [|split]]].
  - exact (proj1 (prune_old_dry_run L m seen retention_days utcnow w _ Hc)).
  - intros dry_run deleted Hd Hin. apply Hiff.
    unfold prune_old in Hd. rewrite Hc in Hd.
    destruct (prune_loop_frame L retention_days dry_run
                (to_delete_of m seen (now_iso cutoff_dt)) [] m w)
      as (_ & _ & H3).
    destruct (H3 deleted Hd path Hin) as [[] | Hsel]. exact Hsel.
  - intros Heq Hin. apply Hiff in Hin. subst last_seen.
    unfold String.ltb in Hin. rewrite string_compare_refl in Hin.
    discriminate.
  - intros seen_at Hv Heq. rewrite Hiff. subst last_seen.
    now rewrite now_iso_ltb by assumption.
Qed.

Lemma prune_candidate_iff_strictly_older_witness :
  let cutoff := now_iso (mkDT 2025 9 6 3 4 5 0) in
  let path := "img/2025/01/old-a.jpg" in
  let w := demo_world (PStr "t") net_all_ok in
  cutoff_iso_of demo_now 60 = Ok cutoff
  /\ gc_outcome (prune_old (demo_libs []) demo_manifest [] 60 true demo_now w)
     = Ok (to_delete_of demo_manifest [] cutoff)
  /\ (In path (to_delete_of demo_manifest [] cutoff)
      <-> ("2025-01-02T00:00:00Z" <? cutoff)%string = true)
  /\ (forall dry_run deleted,
         gc_outcome (prune_old (demo_libs []) demo_manifest [] 60 dry_run
                       demo_now w) = Ok deleted ->
         In path deleted ->
         ("2025-01-02T00:00:00Z" <? cutoff)%string = true)
  /\ ("2025-01-02T00:00:00Z" = cutoff ->
      ~ In path (to_delete_of demo_manifest [] cutoff))
  /\ (In path (to_delete_of demo_manifest [] cutoff)
      <-> dt_ltb (replace_microsecond0 (mkDT 2025 1 2 0 0 0 0))
                 (replace_microsecond0 (mkDT 2025 9 6 3 4 5 0)) = true).
Proof.
  destruct (prune_candidate_iff_strictly_older (demo_libs []) demo_manifest []
              60 demo_now (mkDT 2025 9 6 3 4 5 0)
              (demo_world (PStr "t") net_all_ok) "img/2025/01/old-a.jpg"
              "2025-01-02T00:00:00Z"
              (demo_record "2025-01-01T00:00:00Z" "2025-01-02T00:00:00Z")
              eq_refl eq_refl eq_refl eq_refl eq_refl
              ltac:(discriminate) eq_refl eq_refl)
    as (H1 & H2 & H3 & H4 & H5 & H6).
  cbv zeta. split; [exact H1|]. split; [exact H2|]. split; [exact H3|].
  split; [exact H4|]. split; [exact H5|].
  exact (H6 (mkDT 2025 1 2 0 0 0 0) eq_refl eq_refl).
Defined.

(** C2 as worded fails: the comparison is one of texts.  An entry whose
    [last_seen] is the ISO-8601 UTC stamp of an instant half a second after
    the cutoff, printed by [isoformat] with its fraction, is selected and
    deleted: its text is below the text of the cutoff, since ["."] sorts
    before ["Z"]. *)
Lemma prune_selects_entry_after_cutoff :
  let seen_at := mkDT 2025 9 6 3 4 5 500000 in
  let cutoff_dt := mkDT 2025 9 6 3 4 5 0 in
  let stamp := isoformat seen_at ++ "Z" in
  let m := [("images", [("img/a.jpg", [("last_seen", PStr stamp)])])] in
  let g := prune_old (demo_libs []) m [] 60 false demo_now
             (demo_world (PStr "t") net_all_ok) in
  stamp = "2025-09-06T03:04:05.500000Z"
  /\ minus_days demo_now 60 = Ok cutoff_dt
  /\ cutoff_iso_of demo_now 60 = Ok "2025-09-06T03:04:05Z"
  /\ dt_valid seen_at = true
  /\ dt_ltb cutoff_dt seen_at = true
  /\ to_delete_of m [] "2025-09-06T03:04:05Z" = ["img/a.jpg"]
  /\ gc_outcome g = Ok ["img/a.jpg"]
  /\ gc_manifest g = [("images", [])].
Proof. vm_compute. repeat split. Qed.

(** The boundary on the demo manifest: an entry last seen at the cutoff
    second is kept, one second earlier it is selected. *)
Example prune_boundary :
  let at_cutoff :=
    [("images",
      [("img/a.jpg", [("last_seen", PStr "2025-09-06T03:04:05Z")])])] in
  let before :=
    [("images",
      [("img/a.jpg", [("last_seen", PStr "2025-09-06T03:04:04Z")])])] in
  cutoff_iso_of demo_now 60 = Ok "2025-09-06T03:04:05Z"
  /\ to_delete_of at_cutoff [] "2025-09-06T03:04:05Z" = []
  /\ to_delete_of before [] "2025-09-06T03:04:05Z" = ["img/a.jpg"].
Proof. repeat split. Qed.

(** C10.  An entry whose [last_seen] is missing, [null] or empty is never a
    candidate, whatever the cutoff: its manifest entry stays, it is not
    reported as deleted, and no request is sent for its path. *)
Theorem prune_skips_entries_without_last_seen (L : libs) (m : manifest_t)
  (seen : pyset) (retention_days : Z) (dry_run : bool) (utcnow : datetime)
  (w : world) (path : string) (rec : pydict pyval) :
  unique_keys (manifest_images m) = true ->
  dict_get (manifest_images m) path = Some rec ->
  dict_get rec "last_seen" = None
  \/ dict_get rec "last_seen" = Some PNone
  \/ dict_get rec "last_seen" = Some (PStr "") ->
  (forall cutoff, ~ In path (to_delete_of m seen cutoff))
  /\ let g := prune_old L m seen retention_days dry_run utcnow w in
     dict_get (manifest_images (gc_manifest g)) path = Some rec
     /\ (forall deleted, gc_outcome g = Ok deleted -> ~ In path deleted)
     /\ exists new, sent (gc_world g) = (new ++ sent w)%list
                    /\ forall q, In q new -> req_url q <> contents_url path.
Proof.
  intros Hu Hget Hls.
  assert (Hnot : forall cutoff, ~ In path (to_delete_of m seen cutoff)).
  { intros cutoff Hin.
    apply (candidate_of_entry m seen cutoff path rec Hu Hget) in Hin.
    apply candidate_unprotected_unseen in Hin as (_ & _ & Ht & _).
    unfold get_val in Ht.
    destruct Hls as [E | [E | E]]; rewrite E in Ht; discriminate. }
  split; [exact Hnot|]. cbn zeta.
  destruct (prune_old_frame L m seen retention_days dry_run utcnow w path Hnot)
    as (H1 & H2 & H3).
  split; [now rewrite H1|]. split; assumption.
Qed.

Lemma prune_skips_entries_without_last_seen_witness :
  (forall cutoff,
      ~ In "img/2019/05/ancient.jpg"
           (to_delete_of demo_manifest_unstamped [] cutoff))
  /\ let g := prune_old (demo_libs []) demo_manifest_unstamped [] 60 false
                demo_now
                (demo_world (PStr "t")
                            (net_by_method resp_ok resp_ok resp_ok)) in
     dict_get (manifest_images (gc_manifest g)) "img/2019/05/ancient.jpg"
     = Some [("first_added", PStr "2019-05-01T00:00:00Z");
             ("title", PStr "Ancient"); ("last_seen", PStr "")]
     /\ (forall deleted, gc_outcome g = Ok deleted ->
                         ~ In "img/2019/05/ancient.jpg" deleted)
     /\ exists new,
         sent (gc_world g) = (new ++ [])%list
         /\ forall q, In q new ->
                      req_url q <> contents_url "img/2019/05/ancient.jpg".
Proof.
  exact (prune_skips_entries_without_last_seen (demo_libs [])
           demo_manifest_unstamped [] 60 false demo_now
           (demo_world (PStr "t") (net_by_method resp_ok resp_ok resp_ok))
           "img/2019/05/ancient.jpg" _ eq_refl eq_refl
           (or_intror (or_intror eq_refl))).
Defined.

(** ** Deleting: absent objects and failed deletes *)

Lemma gh_get_sha_no_token (L : libs) (path : string) (w : world) :
  truthy (environ_token w) = false ->
  gh_get_sha L path w = (Raise missing_token, w).
Proof.
  intros Ht. unfold gh_get_sha, bindM, gh_headers. now rewrite Ht.
Qed.

Lemma gh_get_sha_absent (L : libs) (path : string) (w : world) :
  truthy (environ_token w) = true ->
  absent_in_store w path ->
  gh_get_sha L path w = (Ok PNone, record_request (sha_lookup w path) w).
Proof.
  intros Ht Habs. unfold gh_get_sha, bindM, gh_headers, send. rewrite Ht.
  cbn [negb].
  destruct (Habs (Some (auth_headers (environ_token w))) (sent w))
    as (r & Hr & Hstatus).
  rewrite Hr. apply Z.eqb_neq in Hstatus. rewrite Hstatus. reflexivity.
Qed.

Lemma gh_delete_file_absent (L : libs) (path message : string) (w : world) :
  truthy (environ_token w) = true ->
  absent_in_store w path ->
  gh_delete_file L path message false w
  = (Ok false, record_request (sha_lookup w path) w).
Proof.
  intros Ht Habs. unfold gh_delete_file, bindM.
  rewrite gh_get_sha_absent by assumption. reflexivity.
Qed.

Lemma gh_delete_file_no_token (L : libs) (path message : string) (w : world) :
  truthy (environ_token w) = false ->
  gh_delete_file L path message false w = (Raise missing_token, w).
Proof.
  intros Ht. unfold gh_delete_file, bindM.
  now rewrite gh_get_sha_no_token.
Qed.

Lemma absent_in_store_same_net (w w' : world) (path : string) :
  net w' = net w -> absent_in_store w path -> absent_in_store w' path.
Proof. unfold absent_in_store. intros ->. auto. Qed.

Lemma prune_loop_absent (L : libs) (retention_days : Z) (path : string)
  (to_delete : list string) :
  forall (deleted : list string) (m : manifest_t) (w : world),
    absent_in_store w path ->
    ~ In path deleted ->
    let g := prune_loop L retention_days false to_delete deleted m w in
    (forall ds, gc_outcome g = Ok ds -> ~ In path ds)
    /\ dict_get (manifest_images (gc_manifest g)) path
       = dict_get (manifest_images m) path
    /\ sent_only (fun q => req_url q = contents_url path -> req_method q = GET)
                 w (gc_world g).
Proof.
  induction to_delete as [|p rest IH]; intros deleted m w Habs Hdel; cbn zeta.
  - cbn. split; [|split; [reflexivity | apply sent_only_refl]].
    intros ds H; injection H as <-. exact Hdel.
  - cbn [prune_loop].
    destruct (string_dec p path) as [-> | Hne].
    + destruct (truthy (environ_token w)) eqn:Ht.
      * rewrite gh_delete_file_absent by assumption.
        assert (Hs : sent_only
                       (fun q => req_url q = contents_url path
                                 -> req_method q = GET)
                       w (record_request (sha_lookup w path) w)).
        { repeat split. exists [sha_lookup w path].
          split; [reflexivity|]. constructor; [reflexivity | constructor]. }
        specialize (IH deleted m (record_request (sha_lookup w path) w)
                      (absent_in_store_same_net _ _ _ eq_refl Habs) Hdel).
        cbn zeta in IH. destruct IH as (IH1 & IH2 & IH3).
        split; [exact IH1|]. split; [exact IH2|].
        eapply sent_only_trans; eauto.
      * rewrite gh_delete_file_no_token by assumption. cbn.
        split; [discriminate|]. split; [reflexivity | apply sent_only_refl].
    + pose proof (gh_delete_file_sent L p (prune_message retention_days p)
                    false w) as Hs.
      apply (sent_only_weaken _
               (fun q => req_url q = contents_url path
                         -> req_method q = GET)) in Hs.
      2:{ intros q Hq Hq'. rewrite Hq in Hq'.
          apply contents_url_inj in Hq'. contradiction. }
      destruct (gh_delete_file L p (prune_message retention_days p) false w)
        as [[[|]|e] w'] eqn:E; cbn [snd] in Hs.
      * cbn [negb].
        assert (Hdel' : ~ In path (deleted ++ [p])%list).
        { intros Hin. apply in_app_or in Hin as [Hin | [Hin | []]];
            [now apply Hdel | now apply Hne]. }
        destruct (pop_image m p) as [m'|e] eqn:Hpop.
        -- specialize (IH (deleted ++ [p])%list m' w'
                         (absent_in_store_same_net _ _ _
                            (proj1 (proj2 Hs)) Habs) Hdel').
           cbn zeta in IH. destruct IH as (IH1 & IH2 & IH3).
           split; [exact IH1|]. split.
           ++ rewrite IH2, (pop_image_images _ _ _ Hpop).
              now apply dict_get_pop_other.
           ++ eapply sent_only_trans; eauto.
        -- cbn. split; [discriminate|]. split; [reflexivity | exact Hs].
      * specialize (IH deleted m w'
                      (absent_in_store_same_net _ _ _ (proj1 (proj2 Hs)) Habs)
                      Hdel).
        cbn zeta in IH. destruct IH as (IH1 & IH2 & IH3).
        split; [exact IH1|]. split; [exact IH2|].
        eapply sent_only_trans; eauto.
      * cbn. split; [discriminate|]. split; [reflexivity | exact Hs].
Qed.

(** C3, as the code has it.  In live mode a candidate whose object the
    store reports absent is skipped without error: [gh_delete_file] returns
    [False] after the revision lookup, so the pass goes on with the next
    candidate with nothing recorded; over the whole pass that path is not
    reported as deleted, its manifest entry stays, and the only requests
    sent for it are lookups. *)
Theorem prune_skips_absent_object (L : libs) (m : manifest_t) (seen : pyset)
  (retention_days : Z) (utcnow : datetime) (w : world) (path : string) :
  absent_in_store w path ->
  (truthy (environ_token w) = true ->
   forall rest deleted m',
     prune_loop L retention_days false (path :: rest) deleted m' w
     = prune_loop L retention_days false rest deleted m'
         (record_request (sha_lookup w path) w))
  /\ let g := prune_old L m seen retention_days false utcnow w in
     (forall deleted, gc_outcome g = Ok deleted -> ~ In path deleted)
     /\ dict_get (manifest_images (gc_manifest g)) path
        = dict_get (manifest_images m) path
     /\ exists new,
         sent (gc_world g) = (new ++ sent w)%list
         /\ forall q, In q new -> req_url q = contents_url path ->
                      req_method q = GET.
Proof.
  intros Habs. split.
  - intros Ht rest deleted m'. cbn [prune_loop].
    now rewrite gh_delete_file_absent by assumption.
  - cbn zeta. unfold prune_old.
    destruct (cutoff_iso_of utcnow retention_days) as [cutoff|e].
    + destruct (prune_loop_absent L retention_days path
                  (to_delete_of m seen cutoff) [] m w Habs (fun H => H))
        as (H1 & H2 & _ & _ & new & Hs & Hf).
      split; [exact H1|]. split; [exact H2|].
      exists new. split; [exact Hs|]. rewrite Forall_forall in Hf. exact Hf.
    + cbn. split; [discriminate|]. split; [reflexivity|].
      exists []. split; [reflexivity | intros q []].
Qed.

Lemma absent_in_store_not_found (token : pyval) (path : string) :
  absent_in_store
    (demo_world token (net_by_method resp_not_found resp_ok resp_ok)) path.
Proof.
  intros headers log. exists (mkResp 404 "Not Found" "").
  split; [reflexivity | cbn; discriminate].
Qed.

Lemma prune_skips_absent_object_witness :
  let w := demo_world (PStr "t")
             (net_by_method resp_not_found resp_ok resp_ok) in
  let path := "img/2025/01/old-a.jpg" in
  (forall rest deleted m',
      prune_loop (demo_libs []) 60 false (path :: rest) deleted m' w
      = prune_loop (demo_libs []) 60 false rest deleted m'
          (record_request (sha_lookup w path) w))
  /\ let g := prune_old (demo_libs []) demo_manifest [] 60 false demo_now w in
     (forall deleted, gc_outcome g = Ok deleted -> ~ In path deleted)
     /\ dict_get (manifest_images (gc_manifest g)) path
        = dict_get (manifest_images demo_manifest) path
     /\ exists new,
         sent (gc_world g) = (new ++ sent w)%list
         /\ forall q, In q new -> req_url q = contents_url path ->
                      req_method q = GET.
Proof.
  destruct (prune_skips_absent_object (demo_libs []) demo_manifest [] 60
              demo_now
              (demo_world (PStr "t")
                 (net_by_method resp_not_found resp_ok resp_ok))
              "img/2025/01/old-a.jpg"
              (absent_in_store_not_found (PStr "t") "img/2025/01/old-a.jpg"))
    as (H1 & H2).
  cbv zeta. split; [exact (H1 eq_refl) | exact H2].
Defined.

(** C3 as worded fails: a stale, unprotected, unseen entry whose object the
    store reports absent is a candidate, yet the live pass reports nothing
    deleted and the entry stays in the manifest. *)
Lemma prune_absent_object_not_reconciled :
  let w := demo_world (PStr "t")
             (net_by_method resp_not_found resp_ok resp_ok) in
  let g := prune_old (demo_libs []) demo_manifest [] 60 false demo_now w in
  to_delete_of demo_manifest [] "2025-09-06T03:04:05Z"
  = ["img/2025/01/old-a.jpg"; "img/2025/02/old-b.jpg"]
  /\ gc_outcome g = Ok []
  /\ gc_manifest g = demo_manifest
  /\ dict_mem (manifest_images (gc_manifest g)) "img/2025/01/old-a.jpg" = true.
Proof. vm_compute. repeat split. Qed.

(** ** A failed delete *)

(** C4, as the code has it.  In live mode, when the store holds the object
    (the lookup answers 200 with a revision) and answers the delete with a
    status other than 200 and 204, [gh_delete_file] raises and nothing
    catches it: the pass ends there with that error, whatever candidates
    remain; the manifest is as it was before this candidate and the delete
    is the last request sent. *)
Theorem prune_stops_at_failed_delete (L : libs) (retention_days : Z)
  (path : string) (rest deleted : list string) (m : manifest_t) (w : world)
  (r1 r2 : response) (j : pydict pyval) :
  truthy (environ_token w) = true ->
  net w (sha_lookup w path :: sent w) = Ok r1 ->
  status_code r1 = 200 ->
  json_object L (text r1) = Ok j ->
  truthy (get_val j "sha") = true ->
  let del := delete_request w path (prune_message retention_days path)
               (get_val j "sha") in
  net w (del :: sha_lookup w path :: sent w) = Ok r2 ->
  status_code r2 <> 200 -> status_code r2 <> 204 ->
  prune_loop L retention_days false (path :: rest) deleted m w
  = mkGc (Raise (delete_failed path r2)) m
         (record_request del (record_request (sha_lookup w path) w)).
Proof.
  intros Ht Hget H200 Hj Hsha del Hdel Hn200 Hn204.
  cbn [prune_loop].
  unfold gh_delete_file, gh_get_sha, bindM, gh_headers, send, lift, ret.
  rewrite Ht. cbn [negb].
  fold (sha_lookup w path). rewrite Hget, H200. cbn [Z.eqb Pos.eqb].
  rewrite Hj, Hsha. cbn [negb record_request environ_token net sent].
  rewrite Ht. cbn [negb].
  fold (delete_request w path (prune_message retention_days path)
          (get_val j "sha")). fold del.
  change (net (record_request (sha_lookup w path) w)
            (del :: sent (record_request (sha_lookup w path) w)))
    with (net w (del :: sha_lookup w path :: sent w)).
  rewrite Hdel.
  apply Z.eqb_neq in Hn200, Hn204. rewrite Hn200, Hn204.
  reflexivity.
Qed.

Lemma prune_stops_at_failed_delete_witness :
  let w := demo_world (PStr "t") demo_failing_store in
  let path := "img/2025/01/old-a.jpg" in
  let del := delete_request w path (prune_message 60 path) (PStr "3f2a") in
  prune_loop (demo_libs []) 60 false [path; "img/2025/02/old-b.jpg"] []
    demo_manifest w
  = mkGc (Raise (delete_failed path
                   (mkResp 500 "Internal Server Error" "boom")))
         demo_manifest
         (record_request del (record_request (sha_lookup w path) w)).
Proof.
  exact (prune_stops_at_failed_delete (demo_libs []) 60
           "img/2025/01/old-a.jpg" ["img/2025/02/old-b.jpg"] [] demo_manifest
           (demo_world (PStr "t") demo_failing_store)
           (mkResp 200 "OK" "3f2a")
           (mkResp 500 "Internal Server Error" "boom")
           [("sha", PStr "3f2a")]
           eq_refl eq_refl eq_refl eq_refl eq_refl eq_refl
           ltac:(cbn; discriminate) ltac:(cbn; discriminate)).
Defined.

(** C4 as worded fails: with two candidates and a store that answers every
    delete with 500, the pass raises at the first one; the second is still
    a candidate but no request is ever sent for it and its entry stays. *)
Lemma prune_failed_delete_aborts_pass :
  let w := demo_world (PStr "t") demo_failing_store in
  let g := prune_old (demo_libs []) demo_manifest [] 60 false demo_now w in
  to_delete_of demo_manifest [] "2025-09-06T03:04:05Z"
  = ["img/2025/01/old-a.jpg"; "img/2025/02/old-b.jpg"]
  /\ gc_outcome g
     = Raise (RuntimeError
                "Delete failed for img/2025/01/old-a.jpg: 500 boom")
  /\ map req_url (sent (gc_world g))
     = [contents_url "img/2025/01/old-a.jpg";
        contents_url "img/2025/01/old-a.jpg"]
  /\ gc_manifest g = demo_manifest.
Proof. vm_compute. repeat split. Qed.

(** ** Loading the manifest *)

(** C8.  [load_manifest] falls back to the empty manifest when the response
    is not a 200 and when its body does not decode; but [requests.get] is
    called outside the [try], so an exception of the network (connection
    error, timeout) leaves [load_manifest] as it came. *)
Theorem load_manifest_cases (L : libs) (w : world) :
  (forall r, net w (manifest_request :: sent w) = Ok r ->
             status_code r <> 200 ->
             load_manifest L w
             = (Ok empty_manifest, record_request manifest_request w))
  /\ (forall r e, net w (manifest_request :: sent w) = Ok r ->
                  status_code r = 200 ->
                  json_loads_manifest L (text r) = Raise e ->
                  load_manifest L w
                  = (Ok empty_manifest, record_request manifest_request w))
  /\ (forall r m, net w (manifest_request :: sent w) = Ok r ->
                  status_code r = 200 ->
                  json_loads_manifest L (text r) = Ok m ->
                  load_manifest L w
                  = (Ok m, record_request manifest_request w))
  /\ (forall e, net w (manifest_request :: sent w) = Raise e ->
                load_manifest L w
                = (Raise e, record_request manifest_request w)).
Proof.
  unfold load_manifest, bindM, send. fold manifest_request.
  repeat split.
  - intros r Hr Hs. rewrite Hr. apply Z.eqb_neq in Hs. now rewrite Hs.
  - intros r e Hr Hs He. rewrite Hr, Hs, He. reflexivity.
  - intros r m Hr Hs Hm. rewrite Hr, Hs, Hm. reflexivity.
  - intros e He. now rewrite He.
Qed.

Lemma load_manifest_cases_witness :
  let w404 :=
    demo_world (PStr "t") (net_by_method resp_not_found resp_ok resp_ok) in
  let w200 := demo_world (PStr "t") net_all_ok in
  let wdown := demo_world (PStr "t") net_down in
  load_manifest (demo_libs []) w404
  = (Ok empty_manifest, record_request manifest_request w404)
  /\ load_manifest demo_libs_undecodable w200
     = (Ok empty_manifest, record_request manifest_request w200)
  /\ load_manifest (demo_libs (stored_manifest_of demo_manifest)) w200
     = (Ok (stored_manifest_of demo_manifest),
        record_request manifest_request w200)
  /\ load_manifest (demo_libs []) wdown
     = (Raise ConnectionError, record_request manifest_request wdown).
Proof.
  cbv zeta. split; [|split; [|split]].
  - exact (proj1 (load_manifest_cases (demo_libs [])
                    (demo_world (PStr "t")
                       (net_by_method resp_not_found resp_ok resp_ok)))
             (mkResp 404 "Not Found" "") eq_refl ltac:(discriminate)).
  - exact (proj1 (proj2 (load_manifest_cases demo_libs_undecodable
                           (demo_world (PStr "t") net_all_ok)))
             (mkResp 200 "OK" "3f2a")
             (mkExn "JSONDecodeError" "Expecting value")
             eq_refl eq_refl eq_refl).
  - exact (proj1 (proj2 (proj2 (load_manifest_cases
                                  (demo_libs (stored_manifest_of demo_manifest))
                                  (demo_world (PStr "t") net_all_ok))))
             (mkResp 200 "OK" "3f2a") (stored_manifest_of demo_manifest)
             eq_refl eq_refl eq_refl).
  - exact (proj2 (proj2 (proj2 (load_manifest_cases (demo_libs [])
                                  (demo_world (PStr "t") net_down))))
             ConnectionError eq_refl).
Defined.

(** With the network down the whole run ends with the connection error
    before any event is looked at. *)
Lemma process_events_network_down (events : list event) :
  fst (process_events (demo_libs []) events demo_now
         (demo_world (PStr "t") net_down))
  = Raise ConnectionError.
Proof. reflexivity. Qed.

(** ** A run without the credential *)







Lemma print_each_sent (P : request -> Prop) (ps : list string) (w : world) :
  sent_only P w (snd (print_each ps w)).
Proof.
  revert w; induction ps as [|p ps IH]; intros w; cbn [print_each].
  - apply sent_only_ret.
  - apply sent_only_bind; [apply sent_only_print | intros _ w'; apply IH].
Qed.

(** [prune_manifest] against [prune_old]: it ends at once, the manifest and
    the world untouched, when the cutoff cannot be computed or a stored
    value is not a record; otherwise it is [prune_old] on the records. *)
Lemma prune_manifest_cases (L : libs) (m : stored_manifest) (seen : pyset)
  (retention_days : Z) (dry_run : bool) (utcnow : datetime) (w : world) :
  let g := prune_manifest L m seen retention_days dry_run utcnow w in
  (exists e,
      ph_outcome g = Raise e /\ ph_manifest g = m /\ ph_world g = w
      /\ (cutoff_iso_of utcnow retention_days = Raise e
          \/ ((exists c, cutoff_iso_of utcnow retention_days = Ok c)
              /\ records_view m = Raise e)))
  \/ (exists c images,
        cutoff_iso_of utcnow retention_days = Ok c
        /\ records_view m = Ok images
        /\ let g0 := prune_old L [("images", images)] seen retention_days
                       dry_run utcnow w in
           ph_outcome g = gc_outcome g0
           /\ ph_world g = gc_world g0
           /\ ph_manifest g
              = match dict_get m "images" with
                | Some _ =>
                    dict_set m "images"
                      (Images (stored_records
                                 (manifest_images (gc_manifest g0))))
                | None => m
                end).
Proof.
  cbn zeta. unfold prune_manifest.
  destruct (cutoff_iso_of utcnow retention_days) as [c|e] eqn:Ec.
  - destruct (records_view m) as [images|e] eqn:Er.
    + right. exists c, images. cbn [ph_outcome ph_manifest ph_world].
      now repeat split.
    + left. exists e. cbn [ph_outcome ph_manifest ph_world].
      split; [reflexivity|]. split; [reflexivity|]. split; [reflexivity|].
      right. split; [now exists c | reflexivity].
  - left. exists e. cbn [ph_outcome ph_manifest ph_world].
    split; [reflexivity|]. split; [reflexivity|]. split; [reflexivity|].
    now left.
Qed.


(** The prune block of [main] against [prune_manifest]: the block only adds
    printing. *)
Lemma prune_phase_spec (L : libs) (a : args) (r : sync_result)
  (utcnow : datetime) (w : world) :
  let g := prune_phase L a r utcnow w in
  if arg_prune a then
    let g0 := prune_manifest L (res_manifest r) (res_seen r) (arg_retention a)
                (arg_dry_run a) utcnow w in
    ph_outcome g = ph_outcome g0
    /\ ph_manifest g = ph_manifest g0
    /\ sent_only (fun _ => False) (ph_world g0) (ph_world g)
  else g = mkPhase (Ok []) (res_manifest r) w.
Proof.
  cbn zeta. unfold prune_phase. destruct (arg_prune a); [|reflexivity].
  cbn zeta.
  destruct (ph_outcome (prune_manifest L (res_manifest r) (res_seen r)
                          (arg_retention a) (arg_dry_run a) utcnow w))
    as [deleted|e] eqn:E.
  - match goal with
    | |- context [print ?s ?w0] =>
        pose proof (sent_only_print (fun _ => False) s w0) as Hp;
        destruct (print s w0) as [u w2]
    end.
    match goal with
    | |- context [?f w2] =>
        assert (Hq : sent_only (fun _ => False) w2 (snd (f w2)))
          by (destruct (_ && _);
              [apply print_each_sent | apply sent_only_ret]);
        destruct (f w2) as [u' w3]
    end.
    cbn [snd ph_outcome ph_manifest ph_world] in *.
    split; [reflexivity|]. split; [reflexivity|].
    eapply sent_only_trans; eauto.
  - rewrite E. split; [reflexivity|]. split; [reflexivity|].
    apply sent_only_refl.
Qed.





(** ** Annotating the events *)




Lemma fetch_and_upload_ok (L : libs) (title src date : string) (w w' : world)
  (p u : string) :
  fetch_and_upload L title src date w = (Ok (p, u), w') ->
  p = asset_path L title src date
  /\ u = PAGES_BASE ++ "/" ++ asset_path L title src date.
Proof.
  unfold fetch_and_upload, bindM, lift, ret.
  destruct (send _ w) as [[r|e] w1]; [|discriminate].
  destruct (raise_for_status src r) as [[]|e]; [|discriminate].
  destruct (to_jpg_bytes L (text r)) as [jpg|e]; [|discriminate].
  destruct (gh_put_file L _ jpg _ w1) as [[[]|e] w2]; [|discriminate].
  intros H; injection H as <- <- _. now split.
Qed.

(** The bookkeeping, by what it finds. *)
Lemma upsert_cases (images : stored_images) (p now title src : string) :
  match bookkeeping_error images p with
  | Some e => upsert images p now title src = Raise e
  | None =>
      exists d,
        images = Images d
        /\ upsert images p now title src
           = Ok (Images (apply_upload now d (p, title, src)))
  end.
Proof.
  unfold bookkeeping_error, upsert, apply_upload, found_record, upload_path.
  destruct images as [d|v]; [|reflexivity]. cbn [fst snd].
  destruct (dict_get d p) as [[r|v]|] eqn:E; cbn [bind];
    [exists d | reflexivity | exists d]; rewrite E; now split.
Qed.

(** A recorded upload changes nothing to what the bookkeeping can do. *)
Lemma bookkeeping_error_apply_upload (now : string) (d : pydict stored)
  (u : upload) (q : string) :
  bookkeeping_error (Images d) (upload_path u) = None ->
  bookkeeping_error (Images (apply_upload now d u)) q
  = bookkeeping_error (Images d) q.
Proof.
  unfold bookkeeping_error, apply_upload. intros H.
  destruct (string_dec (upload_path u) q) as [<- | Hne].
  - rewrite dict_get_set_same.
    destruct (dict_get d (upload_path u)) as [[r|v]|];
      [reflexivity | discriminate | reflexivity].
  - now rewrite dict_get_set_other by exact Hne.
Qed.

(** The four ways one iteration of the loop can go. *)
Lemma process_event_cases (L : libs) (now : string) (i : nat) (ev : event)
  (st : sync_state) (w : world) :
  (truthy (get_val ev "image") = false
   /\ process_event L now i ev st w
      = (mkSync (st_images st) (st_seen st)
           (st_rows st ++ [[CInt i; CStr (event_title ev); CStr ""; CStr "";
                            CStr "no_image"]])%list
           (st_updated st ++ [ev])%list, w))
  \/ (truthy (get_val ev "image") = true
      /\ exists w' d,
          fetch_and_upload L (event_title ev) (event_src ev) (event_date ev) w
          = (Ok (event_path L ev, public_url_of L ev), w')
          /\ st_images st = Images d
          /\ bookkeeping_error (st_images st) (event_path L ev) = None
          /\ process_event L now i ev st w
             = (mkSync (Images (apply_upload now d
                                  (event_path L ev, event_title ev,
                                   event_src ev)))
                  (set_add (event_path L ev) (st_seen st))
                  (st_rows st ++ [[CInt i; CStr (event_title ev);
                                   CStr (event_src ev);
                                   CStr (public_url_of L ev); CStr "ok"]])%list
                  (st_updated st
                     ++ [dict_set ev "image_jpg"
                           (PStr (public_url_of L ev))])%list, w'))
  \/ (truthy (get_val ev "image") = true
      /\ exists e w',
          fetch_and_upload L (event_title ev) (event_src ev) (event_date ev) w
          = (Raise e, w')
          /\ process_event L now i ev st w
             = (mkSync (st_images st) (st_seen st)
                  (st_rows st ++ [[CInt i; CStr (event_title ev);
                                   CStr (event_src ev); CStr "";
                                   CStr ("error: " ++ exn_msg e)]])%list
                  (st_updated st
                     ++ [dict_set ev "image_jpg_error"
                           (PStr (exn_msg e))])%list, w'))
  \/ (truthy (get_val ev "image") = true
      /\ exists e w',
          fetch_and_upload L (event_title ev) (event_src ev) (event_date ev) w
          = (Ok (event_path L ev, public_url_of L ev), w')
          /\ bookkeeping_error (st_images st) (event_path L ev) = Some e
          /\ process_event L now i ev st w
             = (mkSync (st_images st) (st_seen st)
                  (st_rows st
                     ++ [[CInt i; CStr (event_title ev); CStr (event_src ev);
                          CStr (public_url_of L ev); CStr "ok"];
                         [CInt i; CStr (event_title ev); CStr (event_src ev);
                          CStr ""; CStr ("error: " ++ exn_msg e)]])%list
                  (st_updated st
                     ++ [dict_set (dict_set ev "image_jpg"
                                     (PStr (public_url_of L ev)))
                           "image_jpg_error" (PStr (exn_msg e));
                         dict_set (dict_set ev "image_jpg"
                                     (PStr (public_url_of L ev)))
                           "image_jpg_error" (PStr (exn_msg e))])%list, w')).
Proof.
  unfold process_event.
  destruct (truthy (get_val ev "image")) eqn:Himg; cbn [negb].
  - right. fold (event_title ev) (event_date ev) (event_src ev).
    destruct (fetch_and_upload L (event_title ev) (event_src ev)
                (event_date ev) w) as [[[p u]|e] w'] eqn:E.
    + pose proof (fetch_and_upload_ok _ _ _ _ _ _ _ _ E) as [-> ->].
      fold (event_path L ev) (public_url_of L ev).
      pose proof (upsert_cases (st_images st) (event_path L ev) now
                    (event_title ev) (event_src ev)) as Hu.
      destruct (bookkeeping_error (st_images st) (event_path L ev))
        as [e|] eqn:Hb.
      * right. right. split; [reflexivity|]. exists e, w'.
        split; [reflexivity|]. split; [reflexivity|].
        rewrite Hu. now rewrite <- app_assoc.
      * left. split; [reflexivity|]. destruct Hu as (d & Hd & Hu).
        exists w', d. split; [reflexivity|]. split; [exact Hd|].
        split; [reflexivity|]. now rewrite Hu.
    + right. left. split; [reflexivity|]. exists e, w'. split; reflexivity.
  - left. split; reflexivity.
Qed.

(** What the bookkeeping can do is the same after an iteration. *)
Lemma process_event_bookkeeping (L : libs) (now : string) (i : nat)
  (ev : event) (st : sync_state) (w : world) (q : string) :
  bookkeeping_error (st_images (fst (process_event L now i ev st w))) q
  = bookkeeping_error (st_images st) q.
Proof.
  destruct (process_event_cases L now i ev st w)
    as [(_ & ->) | [(_ & w' & d & _ & Hd & Hb & ->)
                   | [(_ & e & w' & _ & ->) | (_ & e & w' & _ & _ & ->)]]];
    cbn [fst st_images]; try reflexivity.
  rewrite Hd in *. now apply bookkeeping_error_apply_upload.
Qed.







(** With a leaf stored where the record of the asset should be, the upload
    goes through and the event is written twice, with both keys. *)
Example process_events_unrecorded_twice :
  match fst (process_events
               (demo_libs [("images",
                            Images [("img/2025/09/farmers-market-d41d8cd9.jpg",
                                     NotRec (PStr "x"))])])
               [demo_event] demo_now (demo_world (PStr "t") net_all_ok)) with
  | Ok r =>
      map (fun out => (get_val out "image_jpg",
                       get_val out "image_jpg_error"))
          (res_updated_events r)
      = [(PStr (PAGES_BASE
                ++ "/img/2025/09/farmers-market-d41d8cd9.jpg"),
          PStr "'str' object does not support item assignment");
         (PStr (PAGES_BASE
                ++ "/img/2025/09/farmers-market-d41d8cd9.jpg"),
          PStr "'str' object does not support item assignment")]
      /\ res_seen r = []
  | Raise _ => False
  end.
Proof. vm_compute. split; reflexivity. Qed.


(** ** Re-running the sync *)

Lemma apply_upload_other (now : string) (images : pydict stored) (u : upload)
  (p : string) :
  upload_path u <> p ->
  dict_get (apply_upload now images u) p = dict_get images p.
Proof. intros H. unfold apply_upload. now apply dict_get_set_other. Qed.

Lemma apply_upload_same (now : string) (images : pydict stored) (u : upload) :
  exists rec',
    dict_get (apply_upload now images u) (upload_path u) = Some (Rec rec')
    /\ dict_get rec' "last_seen" = Some (PStr now)
    /\ dict_get rec' "first_added"
       = match dict_get images (upload_path u) with
         | Some (Rec r) => dict_get r "first_added"
         | _ => Some (PStr now)
         end.
Proof.
  unfold apply_upload, refreshed, found_record. eexists.
  split; [apply dict_get_set_same|]. split.
  - rewrite !dict_get_set_other by discriminate. apply dict_get_set_same.
  - rewrite !dict_get_set_other by discriminate.
    destruct (dict_get images (upload_path u)) as [[r|v]|]; reflexivity.
Qed.

Lemma apply_upload_keys (now : string) (images : pydict stored) (u : upload) :
  dict_mem images (upload_path u) = true ->
  dict_keys (apply_upload now images u) = dict_keys images.
Proof.
  unfold dict_mem, apply_upload.
  destruct (dict_get images (upload_path u)) as [r|] eqn:E; [|discriminate].
  intros _. eapply dict_keys_set_present; eauto.
Qed.

Section Uploads.
Variable now : string.

Lemma uploads_untouched (ups : list upload) :
  forall images p,
    ~ In p (map upload_path ups) ->
    dict_get (fold_left (apply_upload now) ups images) p
    = dict_get images p.
Proof.
  induction ups as [|u ups IH]; intros images p Hp; cbn [fold_left];
    [reflexivity|].
  rewrite IH by (intros H; apply Hp; now right).
  apply apply_upload_other. intros E. apply Hp. now left.
Qed.

Lemma uploads_touched (ups : list upload) :
  forall images p,
    In p (map upload_path ups) ->
    exists rec',
      dict_get (fold_left (apply_upload now) ups images) p = Some (Rec rec')
      /\ dict_get rec' "last_seen" = Some (PStr now)
      /\ dict_get rec' "first_added"
         = match dict_get images p with
           | Some (Rec r) => dict_get r "first_added"
           | _ => Some (PStr now)
           end.
Proof.
  induction ups as [|u ups IH]; intros images p Hp; [destruct Hp|].
  cbn [fold_left].
  destruct (apply_upload_same now images u) as (rec1 & Hg1 & Hl1 & Hf1).
  destruct (in_dec string_dec p (map upload_path ups)) as [Hin | Hnin].
  - destruct (IH (apply_upload now images u) p Hin)
      as (rec' & Hg & Hl & Hf).
    exists rec'. split; [exact Hg|]. split; [exact Hl|].
    rewrite Hf.
    destruct (string_dec (upload_path u) p) as [E | E].
    + subst p. now rewrite Hg1, Hf1.
    + now rewrite apply_upload_other by exact E.
  - destruct Hp as [E | Hin]; [|contradiction]. subst p.
    exists rec1. rewrite uploads_untouched by exact Hnin.
    now split.
Qed.

Lemma uploads_keep_first_added (ups : list upload) (images : pydict stored)
  (p : string) (rec : pydict pyval) :
  dict_get images p = Some (Rec rec) ->
  exists rec',
    dict_get (fold_left (apply_upload now) ups images) p = Some (Rec rec')
    /\ dict_get rec' "first_added" = dict_get rec "first_added".
Proof.
  intros Hg.
  destruct (in_dec string_dec p (map upload_path ups)) as [Hin | Hnin].
  - destruct (uploads_touched ups images p Hin) as (rec' & Hg' & _ & Hf).
    exists rec'. rewrite Hg in Hf. now split.
  - exists rec. now rewrite uploads_untouched by exact Hnin.
Qed.

Lemma uploads_keys (ups : list upload) :
  forall images,
    (forall p, In p (map upload_path ups) -> dict_mem images p = true) ->
    dict_keys (fold_left (apply_upload now) ups images) = dict_keys images.
Proof.
  induction ups as [|u ups IH]; intros images Hall; cbn [fold_left];
    [reflexivity|].
  assert (Hu : dict_mem images (upload_path u) = true)
    by (apply Hall; now left).
  rewrite IH.
  - now apply apply_upload_keys.
  - intros p Hp. unfold dict_mem.
    destruct (string_dec (upload_path u) p) as [E | E].
    + subst p.
      destruct (apply_upload_same now images u) as (rec1 & -> & _).
      reflexivity.
    + rewrite apply_upload_other by exact E. apply Hall. now right.
Qed.

Lemma apply_upload_ordered (images : pydict stored) (u : upload) :
  ordered_records now images ->
  ordered_records now (apply_upload now images u).
Proof.
  intros Hord q rec Hq.
  destruct (string_dec (upload_path u) q) as [E | E].
  - subst q.
    destruct (apply_upload_same now images u) as (rec1 & Hg1 & Hl1 & Hf1).
    rewrite Hg1 in Hq. injection Hq as <-.
    destruct (dict_get images (upload_path u)) as [[r|v]|] eqn:Hr.
    + destruct (Hord _ r Hr) as (fa & ls & Hfa & Hls & H1 & H2).
      exists fa, now. rewrite Hf1, Hfa, Hl1.
      repeat split; [|apply string_leb_refl].
      eapply string_leb_trans; eauto.
    + exists now, now. rewrite Hf1, Hl1.
      repeat split; apply string_leb_refl.
    + exists now, now. rewrite Hf1, Hl1.
      repeat split; apply string_leb_refl.
  - rewrite apply_upload_other in Hq by exact E. eapply Hord; eauto.
Qed.

Lemma uploads_ordered (ups : list upload) :
  forall images,
    ordered_records now images ->
    ordered_records now (fold_left (apply_upload now) ups images).
Proof.
  induction ups as [|u ups IH]; intros images Hord; cbn [fold_left];
    [exact Hord|].
  apply IH. now apply apply_upload_ordered.
Qed.

Lemma seen_of_uploads (ups : list upload) :
  forall seen p,
    In p (fold_left apply_seen ups seen)
    <-> In p seen \/ In p (map upload_path ups).
Proof.
  induction ups as [|u ups IH]; intros seen p; cbn [fold_left map].
  - simpl. tauto.
  - rewrite IH. unfold apply_seen. rewrite set_add_in. simpl.
    split; intros H; intuition congruence.
Qed.
End Uploads.

Lemma ordered_records_later (s s' : string) (images : pydict stored) :
  (s <=? s')%string = true ->
  ordered_records s images -> ordered_records s' images.
Proof.
  intros Hle Hord p rec Hp.
  destruct (Hord p rec Hp) as (fa & ls & Hfa & Hls & H1 & H2).
  exists fa, ls. repeat split; try assumption.
  eapply string_leb_trans; eauto.
Qed.

(** The images of a manifest, through the object [setdefault] returns. *)
Lemma images_of_set (m : stored_manifest) (d : pydict stored) :
  images_of (dict_set m "images" (Images d)) = d.
Proof. unfold images_of. now rewrite dict_get_set_same. Qed.

Lemma setdefault_images_set (m : stored_manifest) (images : stored_images) :
  setdefault_images (dict_set m "images" images) = images.
Proof. unfold setdefault_images. now rewrite dict_get_set_same. Qed.

Lemma images_of_setdefault (m : stored_manifest) (d : pydict stored) :
  setdefault_images m = Images d -> images_of m = d.
Proof.
  unfold setdefault_images, images_of.
  destruct (dict_get m "images") as [[d'|v]|]; intros H;
    try discriminate; now injection H.
Qed.

(** The loop changes the manifest only through the uploads it recorded, and
    each of them is filed under the path of one of the events. *)

Lemma process_event_uploads (L : libs) (now : string) (i : nat) (ev : event)
  (st : sync_state) (w : world) :
  st_images (fst (process_event L now i ev st w)) = st_images st
  /\ st_seen (fst (process_event L now i ev st w)) = st_seen st
  \/ exists d,
       st_images st = Images d
       /\ truthy (get_val ev "image") = true
       /\ st_images (fst (process_event L now i ev st w))
          = Images (apply_upload now d
                      (event_path L ev, event_title ev, event_src ev))
       /\ st_seen (fst (process_event L now i ev st w))
          = set_add (event_path L ev) (st_seen st).
Proof.
  destruct (process_event_cases L now i ev st w)
    as [(_ & ->) | [(Himg & w' & d & _ & Hd & _ & ->)
                   | [(_ & e & w' & _ & ->) | (_ & e & w' & _ & _ & ->)]]];
    cbn [fst st_images st_seen]; try (left; split; reflexivity).
  right. exists d. repeat split; assumption.
Qed.

Lemma from_events_more (L : libs) (evs evs' : list event) (u : upload) :
  (forall ev, In ev evs -> In ev evs') ->
  from_events L evs u -> from_events L evs' u.
Proof.
  intros Hsub (ev & Hin & Himg & Hp). exists ev. split; [auto | now split].
Qed.

Lemma process_loop_uploads (L : libs) (now : string) (events : list event) :
  forall (i : nat) (st : sync_state) (w : world),
    (st_images (fst (process_loop L now i events st w)) = st_images st
     /\ st_seen (fst (process_loop L now i events st w)) = st_seen st)
    \/ exists d ups,
         st_images st = Images d
         /\ st_images (fst (process_loop L now i events st w))
            = Images (fold_left (apply_upload now) ups d)
         /\ st_seen (fst (process_loop L now i events st w))
            = fold_left apply_seen ups (st_seen st)
         /\ Forall (from_events L events) ups.
Proof.
  induction events as [|ev rest IH]; intros i st w; cbn [process_loop].
  - left. split; reflexivity.
  - pose proof (process_event_uploads L now i ev st w) as H1.
    destruct (process_event L now i ev st w) as [st' w']. cbn [fst] in *.
    specialize (IH (S i) st' w').
    destruct H1 as [(Hi1 & Hs1) | (d & Hd & Himg & Hi1 & Hs1)].
    + rewrite Hi1, Hs1 in IH.
      destruct IH as [IH | (d & ups & Hd & Hi & Hs & Hf)]; [now left|].
      right. exists d, ups. split; [exact Hd|]. split; [exact Hi|].
      split; [exact Hs|].
      eapply Forall_impl; [|exact Hf]. intros u.
      apply from_events_more. intros e He. now right.
    + right. exists d.
      assert (Hu : from_events L (ev :: rest)
                     (event_path L ev, event_title ev, event_src ev)).
      { exists ev. split; [now left|]. now split. }
      destruct IH as [(Hi & Hs) | (d' & ups & Hd' & Hi & Hs & Hf)].
      * exists [(event_path L ev, event_title ev, event_src ev)].
        split; [exact Hd|]. rewrite Hi, Hs, Hi1, Hs1.
        split; [reflexivity|]. split; [reflexivity|].
        constructor; [exact Hu | constructor].
      * exists ((event_path L ev, event_title ev, event_src ev) :: ups).
        split; [exact Hd|]. rewrite Hi1 in Hd'. injection Hd' as <-.
        rewrite Hi, Hs, Hs1. split; [reflexivity|]. split; [reflexivity|].
        constructor; [exact Hu|].
        eapply Forall_impl; [|exact Hf]. intros u.
        apply from_events_more. intros e He. now right.
Qed.

Lemma process_events_uploads (L : libs) (events : list event)
  (utcnow : datetime) (w w' : world) (r : sync_result) :
  process_events L events utcnow w = (Ok r, w') ->
  exists m ups,
    fst (load_manifest L w) = Ok m
    /\ images_of (res_manifest r)
       = fold_left (apply_upload (now_iso utcnow)) ups (images_of m)
    /\ (forall p, In p (res_seen r) <-> In p (map upload_path ups))
    /\ Forall (from_events L events) ups.
Proof.
  unfold process_events, bindM.
  destruct (load_manifest L w) as [[m|e] w1]; [|discriminate].
  match goal with
  | |- context [process_loop L ?n 0 events ?st w1] =>
      pose proof (process_loop_uploads L n events 0%nat st w1) as Hl;
      destruct (process_loop L n 0 events st w1) as [st' w2]
  end.
  cbn [fst st_images st_seen] in Hl.
  intros H; injection H as <- _.
  exists m. cbn [fst res_manifest res_seen].
  destruct Hl as [(Hi & Hs) | (d & ups & Hd & Hi & Hs & Hf)].
  - exists []. split; [reflexivity|]. cbn [fold_left map]. rewrite Hi, Hs.
    split; [|split; [tauto | constructor]].
    unfold images_of, setdefault_images. rewrite dict_get_set_same.
    destruct (dict_get m "images") as [[d|v]|]; reflexivity.
  - exists ups. split; [reflexivity|]. rewrite Hi, Hs, images_of_set.
    rewrite (images_of_setdefault _ _ Hd).
    split; [reflexivity|]. split; [|exact Hf].
    intros p. rewrite seen_of_uploads. simpl. tauto.
Qed.

(** The paths a run has seen are paths of its events. *)
Lemma seen_from_events (L : libs) (events : list event) (utcnow : datetime)
  (w w' : world) (r : sync_result) (p : string) :
  process_events L events utcnow w = (Ok r, w') ->
  In p (res_seen r) ->
  exists ev, In ev events /\ truthy (get_val ev "image") = true
             /\ p = event_path L ev.
Proof.
  intros H Hp.
  apply process_events_uploads in H as (m & ups & _ & _ & Hs & Hf).
  apply Hs in Hp. apply in_map_iff in Hp as (u & <- & Hu).
  rewrite Forall_forall in Hf. exact (Hf u Hu).
Qed.

(** Where every request is answered well, every upload goes through. *)

Lemma later_in_run_sent (w0 w : world) (q : request) :
  later_in_run w0 w -> later_in_run w0 (record_request q w).
Proof.
  intros (Ht & Hn & Hlen). unfold later_in_run, record_request.
  cbn [environ_token net sent List.length]. repeat split; auto.
Qed.

Lemma gh_get_sha_goes_through (L : libs) (w0 w : world) (path : string) :
  accepting L w0 -> later_in_run w0 w ->
  exists sha w',
    gh_get_sha L path w = (Ok sha, w') /\ later_in_run w0 w'.
Proof.
  unfold accepting, later_in_run.
  destruct w0 as [tok nt snt0 out0], w as [tok' nt' snt out].
  cbn [environ_token net sent].
  intros [Htok Hnet] (-> & -> & Hlen).
  set (q := mkReq GET (contents_url path) (Some (auth_headers tok)) None).
  destruct (Hnet q snt Hlen) as (r & Hr & Hj).
  cbn [accepts q req_method req_headers] in Hj.
  cbv beta iota zeta delta [gh_get_sha gh_headers bindM send lift ret
    record_request environ_token net sent stdout].
  rewrite Htok. cbn [negb]. fold q. rewrite Hr.
  destruct (Z.eqb_spec (status_code r) 200) as [E|E].
  - destruct (Hj E) as (j & ->). do 2 eexists. split; [reflexivity|].
    cbn [environ_token net sent List.length]. repeat split. lia.
  - do 2 eexists. split; [reflexivity|].
    cbn [environ_token net sent List.length]. repeat split. lia.
Qed.

Lemma gh_put_file_goes_through (L : libs) (w0 w : world)
  (path content message : string) :
  accepting L w0 -> later_in_run w0 w ->
  exists w',
    gh_put_file L path content message w = (Ok tt, w')
    /\ later_in_run w0 w'.
Proof.
  intros Hacc Hw.
  destruct (gh_get_sha_goes_through L w0 w path Hacc Hw) as (sha & w1 & Hsha & Hw1).
  unfold gh_put_file, bindM at 1. rewrite Hsha. clear Hsha Hw w.
  revert Hacc Hw1. unfold accepting, later_in_run.
  destruct w0 as [tok nt snt0 out0], w1 as [tok' nt' snt out].
  cbn [environ_token net sent].
  intros [Htok Hnet] (-> & -> & Hlen).
  cbv beta iota zeta delta [gh_headers bindM send ret raise
    record_request environ_token net sent stdout].
  rewrite Htok. cbn [negb].
  match goal with
  | |- context [nt (?q :: snt)] =>
      destruct (Hnet q snt Hlen) as (r & -> & Hr)
  end.
  cbn [accepts req_method] in Hr.
  destruct (Z.leb_spec 400 (status_code r)) as [Hge|Hlt]; [lia|].
  eexists. split; [reflexivity|].
  cbn [environ_token net sent List.length]. repeat split. lia.
Qed.

Lemma fetch_and_upload_goes_through (L : libs) (w0 w : world)
  (title src date : string) :
  accepting L w0 -> later_in_run w0 w ->
  exists w',
    fetch_and_upload L title src date w
    = (Ok (asset_path L title src date,
           PAGES_BASE ++ "/" ++ asset_path L title src date), w')
    /\ later_in_run w0 w'.
Proof.
  intros Hacc Hw. pose proof Hacc as [Htok Hnet].
  pose proof Hw as (Ht & Hn & Hlen).
  destruct (Hnet (mkReq GET src None None) (sent w))
    as (r1 & Hr1 & Hraise & jpg & Hjpg); [rewrite <- Hn in *; exact Hlen|].
  cbn [req_url] in Hraise.
  destruct (gh_put_file_goes_through L w0
              (record_request (mkReq GET src None None) w)
              (asset_path L title src date) jpg
              ("Add/Update " ++ asset_fname L title src) Hacc
              (later_in_run_sent _ _ _ Hw)) as (w' & Hput & Hw').
  exists w'. split; [|exact Hw'].
  unfold fetch_and_upload, bindM, send, lift, ret.
  rewrite Hn, Hr1, Hraise, Hjpg, Hput. reflexivity.
Qed.

(** Under these answers the loop records every event with an image. *)
Lemma process_loop_goes_through (L : libs) (now : string) (w0 : world)
  (events : list event) :
  accepting L w0 ->
  forall (i : nat) (st : sync_state) (w : world),
    later_in_run w0 w ->
    recordable L events (st_images st) ->
    (uploads_of L events = []
     /\ st_images (fst (process_loop L now i events st w)) = st_images st
     /\ st_seen (fst (process_loop L now i events st w)) = st_seen st)
    \/ exists d,
         st_images st = Images d
         /\ st_images (fst (process_loop L now i events st w))
            = Images (fold_left (apply_upload now) (uploads_of L events) d)
         /\ st_seen (fst (process_loop L now i events st w))
            = fold_left apply_seen (uploads_of L events) (st_seen st).
Proof.
  intros Hacc.
  induction events as [|ev rest IH]; intros i st w Hw Hrec;
    cbn [process_loop].
  - left. repeat split.
  - assert (Hrest : forall images,
               (forall q, bookkeeping_error images q
                          = bookkeeping_error (st_images st) q) ->
               recordable L rest images).
    { intros images Hq e He Himg. rewrite Hq. apply Hrec; [now right|].
      exact Himg. }
    unfold uploads_of. cbn [filter].
    destruct (process_event_cases L now i ev st w)
      as [(Himg & E) | [(Himg & w' & d & Hf & Hd & Hb & E)
                       | [(Himg & e & w' & Hf & _)
                         | (Himg & e & w' & _ & Hb & _)]]].
    + rewrite E, Himg. fold (uploads_of L rest).
      match goal with
      | |- context [process_loop L now (S i) rest ?st1 w] =>
          destruct (IH (S i) st1 w Hw (Hrest _ (fun q => eq_refl)))
            as [(Hu & Hi & Hs) | (d & Hd & Hi & Hs)]; [left | right]
      end.
      * split; [exact Hu|]. split; [exact Hi | exact Hs].
      * exists d. split; [exact Hd|]. split; [exact Hi | exact Hs].
    + rewrite E, Himg. cbn [map fold_left]. fold (uploads_of L rest).
      right. exists d. split; [exact Hd|].
      destruct (fetch_and_upload_goes_through L w0 w (event_title ev)
                  (event_src ev) (event_date ev) Hacc Hw) as (w1 & Hf1 & Hw1).
      rewrite Hf in Hf1. injection Hf1 as <-.
      match goal with
      | |- context [process_loop L now (S i) rest ?st1 w'] =>
          destruct (IH (S i) st1 w' Hw1) as [(Hu & Hi & Hs) | (d' & Hd' & Hi & Hs)]
      end.
      * apply Hrest. intros q. cbn [st_images]. rewrite Hd in *.
        now apply bookkeeping_error_apply_upload.
      * rewrite Hu, Hi, Hs. split; reflexivity.
      * cbn [st_images] in Hd'. injection Hd' as <-.
        rewrite Hi, Hs. split; reflexivity.
    + destruct (fetch_and_upload_goes_through L w0 w (event_title ev)
                  (event_src ev) (event_date ev) Hacc Hw) as (w1 & Hf1 & _).
      rewrite Hf in Hf1. discriminate.
    + rewrite (Hrec ev (or_introl eq_refl) Himg) in Hb. discriminate.
Qed.

Lemma uploads_of_paths (L : libs) (events : list event) (p : string) :
  In p (map upload_path (uploads_of L events))
  <-> exists ev, In ev events /\ truthy (get_val ev "image") = true
                 /\ p = event_path L ev.
Proof.
  unfold uploads_of. rewrite map_map. cbn [upload_path fst].
  rewrite in_map_iff. split.
  - intros (ev & <- & Hin). apply filter_In in Hin as [Hin Himg].
    exists ev. now repeat split.
  - intros (ev & Hin & Himg & ->). exists ev. split; [reflexivity|].
    apply filter_In. now split.
Qed.

Lemma load_manifest_sends (L : libs) (w : world) :
  snd (load_manifest L w) = record_request manifest_request w.
Proof.
  unfold load_manifest, bindM, send, ret. fold manifest_request.
  destruct (net w (manifest_request :: sent w)) as [r|e]; [|reflexivity].
  destruct (status_code r =? 200); [|reflexivity].
  destruct (json_loads_manifest L (text r)); reflexivity.
Qed.

Lemma process_events_unfold (L : libs) (events : list event)
  (utcnow : datetime) (w : world) :
  process_events L events utcnow w
  = match fst (load_manifest L w) with
    | Ok m =>
        let x := process_loop L (now_iso utcnow) 0 events
                   (mkSync (setdefault_images m) [] [report_header] [])
                   (record_request manifest_request w) in
        (Ok (mkResult (st_updated (fst x)) (st_rows (fst x))
               (dict_set m "images" (st_images (fst x)))
               (st_seen (fst x))), snd x)
    | Raise e => (Raise e, record_request manifest_request w)
    end.
Proof.
  pose proof (load_manifest_sends L w) as Hw.
  unfold process_events, bindM.
  destruct (load_manifest L w) as [[m|e] w1]; cbn [fst snd] in *; subst w1;
    [|reflexivity].
  unfold report_header.
  destruct (process_loop L (now_iso utcnow) 0 events _ _) as [st' w2].
  reflexivity.
Qed.

Lemma process_loop_bookkeeping (L : libs) (now : string)
  (events : list event) :
  forall (i : nat) (st : sync_state) (w : world) (q : string),
    bookkeeping_error (st_images (fst (process_loop L now i events st w))) q
    = bookkeeping_error (st_images st) q.
Proof.
  induction events as [|ev rest IH]; intros i st w q; cbn [process_loop];
    [reflexivity|].
  pose proof (process_event_bookkeeping L now i ev st w q) as H.
  destruct (process_event L now i ev st w) as [st' w']. cbn [fst] in H.
  now rewrite IH.
Qed.

(** A run in which every request is answered well records every event with
    an image. *)
Lemma process_events_goes_through (L : libs) (events : list event)
  (utcnow : datetime) (w : world) (m : stored_manifest) :
  accepting L w ->
  fst (load_manifest L w) = Ok m ->
  recordable L events (setdefault_images m) ->
  exists r w',
    process_events L events utcnow w = (Ok r, w')
    /\ images_of (res_manifest r)
       = fold_left (apply_upload (now_iso utcnow)) (uploads_of L events)
           (images_of m)
    /\ (forall q, bookkeeping_error (setdefault_images (res_manifest r)) q
                  = bookkeeping_error (setdefault_images m) q)
    /\ (forall p, In p (res_seen r)
                  <-> In p (map upload_path (uploads_of L events))).
Proof.
  intros Hacc Hload Hrec.
  rewrite process_events_unfold, Hload. cbv zeta.
  assert (Hw1 : later_in_run w (record_request manifest_request w)).
  { unfold later_in_run, record_request.
    cbn [environ_token net sent List.length]. repeat split. lia. }
  set (st0 := mkSync (setdefault_images m) [] [report_header] []).
  pose proof (process_loop_goes_through L (now_iso utcnow) w events Hacc 0%nat
                st0 _ Hw1 Hrec) as Hl.
  pose proof (process_loop_bookkeeping L (now_iso utcnow) events 0%nat st0
                (record_request manifest_request w)) as Hb.
  do 2 eexists. split; [reflexivity|].
  cbn [res_manifest res_seen]. rewrite setdefault_images_set.
  split; [|split; [exact Hb|]].
  - destruct Hl as [(Hu & Hi & _) | (d & Hd & Hi & _)].
    + rewrite Hu, Hi. cbn [fold_left st0 st_images].
      unfold images_of, setdefault_images. rewrite dict_get_set_same.
      destruct (dict_get m "images") as [[d|v]|]; reflexivity.
    + rewrite Hi, images_of_set. cbn [st0 st_images] in Hd.
      now rewrite (images_of_setdefault _ _ Hd).
  - intros p.
    destruct Hl as [(Hu & _ & Hs) | (d & _ & _ & Hs)]; rewrite Hs.
    + rewrite Hu. reflexivity.
    + rewrite seen_of_uploads. cbn [st0 st_seen]. simpl. tauto.
Qed.

(** C6, as the code has it.  Run the sync, then run it again on the same
    events from the manifest the first run left.  If in both runs the
    credential is set and, after the manifest is fetched, every image is
    served and transcodes and every lookup and PUT is answered well, and if
    the bookkeeping can record the events in the manifest the first run
    loaded, then the second run returns, the manifest has the same paths in
    the same order, every record keeps its [first_added], the record of
    every event with an image has [last_seen] set to the second run's stamp
    and is in the set of seen paths, what is stored under any other path is
    untouched, and if the clock did not go back and the records first
    loaded were in order and not in the future, every record has
    [first_added <= last_seen]. *)
Theorem resync_idempotent (L : libs) (events : list event)
  (t1 t2 : datetime) (w1 w1' w2 : world) (r1 : sync_result) :
  accepting L w1 ->
  accepting L w2 ->
  process_events L events t1 w1 = (Ok r1, w1') ->
  fst (load_manifest L w2) = Ok (res_manifest r1) ->
  (forall m0, fst (load_manifest L w1) = Ok m0 ->
              recordable L events (setdefault_images m0)) ->
  exists r2 w2',
    process_events L events t2 w2 = (Ok r2, w2')
    /\ let i1 := images_of (res_manifest r1) in
       let i2 := images_of (res_manifest r2) in
       dict_keys i2 = dict_keys i1
       /\ (forall p rec1,
              dict_get i1 p = Some (Rec rec1) ->
              exists rec2,
                dict_get i2 p = Some (Rec rec2)
                /\ dict_get rec2 "first_added" = dict_get rec1 "first_added")
       /\ (forall ev,
              In ev events -> truthy (get_val ev "image") = true ->
              In (event_path L ev) (res_seen r2)
              /\ exists rec2,
                   dict_get i2 (event_path L ev) = Some (Rec rec2)
                   /\ dict_get rec2 "last_seen" = Some (PStr (now_iso t2)))
       /\ (forall p,
              (forall ev, In ev events ->
                          truthy (get_val ev "image") = true ->
                          p <> event_path L ev) ->
              dict_get i2 p = dict_get i1 p)
       /\ (dt_valid t1 = true -> dt_valid t2 = true ->
           dt_leb (replace_microsecond0 t1) (replace_microsecond0 t2) = true ->
           (forall m0, fst (load_manifest L w1) = Ok m0 ->
                       ordered_records (now_iso t1) (images_of m0)) ->
           ordered_records (now_iso t2) i2).
Proof.
  intros Hacc1 Hacc2 H1 Hload Hrec.
  assert (Hm0 : exists m0, fst (load_manifest L w1) = Ok m0).
  { rewrite process_events_unfold in H1.
    destruct (fst (load_manifest L w1)) as [m0|e]; [now exists m0|].
    discriminate. }
  destruct Hm0 as (m0 & Hm0). specialize (Hrec m0 Hm0).
  destruct (process_events_goes_through L events t1 w1 m0 Hacc1 Hm0 Hrec)
    as (r1' & w1'' & H1' & Hi1 & Hb1 & Hs1).
  rewrite H1 in H1'. injection H1' as <- <-.
  assert (Hrec2 : recordable L events (setdefault_images (res_manifest r1))).
  { intros ev Hin Himg. rewrite Hb1. now apply Hrec. }
  destruct (process_events_goes_through L events t2 w2 _ Hacc2 Hload Hrec2)
    as (r2 & w2' & H2 & Hi2 & _ & Hs2).
  exists r2, w2'. split; [exact H2|]. cbv zeta.
  set (i1 := images_of (res_manifest r1)) in *.
  set (i2 := images_of (res_manifest r2)) in *.
  split; [|split; [|split; [|split]]].
  - rewrite Hi2. apply uploads_keys. intros p Hp.
    destruct (uploads_touched (now_iso t1) _ (images_of m0) p Hp)
      as (rec & Hg & _).
    unfold dict_mem. now rewrite Hi1, Hg.
  - intros p rec1 Hg. rewrite Hi2. now apply uploads_keep_first_added.
  - intros ev Hin Himg.
    assert (Hp : In (event_path L ev)
                    (map upload_path (uploads_of L events)))
      by (apply uploads_of_paths; now exists ev).
    split; [now apply Hs2|]. rewrite Hi2.
    destruct (uploads_touched (now_iso t2) _ i1 _ Hp) as (rec & Hg & Hl & _).
    now exists rec.
  - intros p Hp. rewrite Hi2. apply uploads_untouched.
    intros Hin. apply uploads_of_paths in Hin as (ev & Hin & Himg & ->).
    now apply (Hp ev).
  - intros Hv1 Hv2 Hle Hord.
    rewrite <- now_iso_leb in Hle by assumption.
    rewrite Hi2. apply uploads_ordered.
    apply (ordered_records_later (now_iso t1)); [exact Hle|].
    rewrite Hi1. apply uploads_ordered. now apply Hord.
Qed.

Example first_run_manifest :
  demo_first_manifest
  = [("images",
      Images
        [("img/2025/09/farmers-market-d41d8cd9.jpg",
          Rec [("first_added", PStr "2025-09-06T12:00:00Z");
               ("title", PStr "farmers-market");
               ("source", PStr "https://x/a.png");
               ("last_seen", PStr "2025-09-06T12:00:00Z")])])].
Proof. reflexivity. Qed.

Lemma demo_accepting (network : list request -> exc response) :
  (forall q past, past <> [] -> network (q :: past) = resp_ok) ->
  accepting demo_resync_libs (demo_world (PStr "t") network).
Proof.
  intros Hnet. split; [reflexivity|]. intros q past Hlen.
  exists (mkResp 200 "OK" "3f2a"). split.
  - apply Hnet. destruct past; [cbn in Hlen; lia | discriminate].
  - unfold accepts. destruct (req_method q), (req_headers q); cbn;
      try lia; try (split; [reflexivity|]); try intros _; eexists;
      reflexivity.
Qed.

Lemma resync_idempotent_witness :
  let L := demo_resync_libs in
  let r1 := result_of (process_events L [demo_event] demo_t1
                         (demo_world (PStr "t") net_fresh_store)) in
  exists r2 w2',
    process_events L [demo_event] demo_t2 (demo_world (PStr "t") net_all_ok)
    = (Ok r2, w2')
    /\ let i1 := images_of (res_manifest r1) in
       let i2 := images_of (res_manifest r2) in
       dict_keys i2 = dict_keys i1
       /\ (forall p rec1,
              dict_get i1 p = Some (Rec rec1) ->
              exists rec2,
                dict_get i2 p = Some (Rec rec2)
                /\ dict_get rec2 "first_added" = dict_get rec1 "first_added")
       /\ (forall ev,
              In ev [demo_event] -> truthy (get_val ev "image") = true ->
              In (event_path L ev) (res_seen r2)
              /\ exists rec2,
                   dict_get i2 (event_path L ev) = Some (Rec rec2)
                   /\ dict_get rec2 "last_seen"
                      = Some (PStr (now_iso demo_t2)))
       /\ (forall p,
              (forall ev, In ev [demo_event] ->
                          truthy (get_val ev "image") = true ->
                          p <> event_path L ev) ->
              dict_get i2 p = dict_get i1 p)
       /\ ordered_records (now_iso demo_t2) i2.
Proof.
  cbv zeta.
  assert (Hrec : forall m0,
             fst (load_manifest demo_resync_libs
                    (demo_world (PStr "t") net_fresh_store)) = Ok m0 ->
             recordable demo_resync_libs [demo_event] (setdefault_images m0)).
  { intros m0 Hm. vm_compute in Hm. injection Hm as <-.
    intros ev _ _. reflexivity. }
  assert (Hn1 : forall (q : request) past,
             past <> [] -> net_fresh_store (q :: past) = resp_ok).
  { intros q [|q' past] H; [now destruct H | reflexivity]. }
  assert (Hn2 : forall (q : request) past,
             past <> [] -> net_all_ok (q :: past) = resp_ok).
  { intros q past _. unfold net_all_ok, net_by_method.
    destruct (req_method q); reflexivity. }
  destruct (resync_idempotent demo_resync_libs [demo_event] demo_t1 demo_t2
              (demo_world (PStr "t") net_fresh_store) _
              (demo_world (PStr "t") net_all_ok) _
              (demo_accepting net_fresh_store Hn1)
              (demo_accepting net_all_ok Hn2)
              eq_refl eq_refl Hrec)
    as (r2 & w2' & H2 & H).
  exists r2, w2'. split; [exact H2|]. cbv zeta in H.
  destruct H as (Ha & Hb & Hc & Hd & He).
  split; [exact Ha|]. split; [exact Hb|]. split; [exact Hc|].
  split; [exact Hd|].
  apply He; try reflexivity.
  intros m0 Hm. vm_compute in Hm. injection Hm as <-.
  intros p rec Hp. discriminate.
Defined.

(** C6 as worded fails: when the store serves nothing but the manifest on
    the second run, no upload goes through, the run returns all the same,
    and the record keeps the [last_seen] of the first run. *)
Lemma resync_not_advanced :
  let L := demo_resync_libs in
  let p := "img/2025/09/farmers-market-d41d8cd9.jpg" in
  let r1 := result_of (process_events L [demo_event] demo_t1
                         (demo_world (PStr "t") net_fresh_store)) in
  let w2 := demo_world (PStr "t") net_manifest_only in
  fst (load_manifest L w2) = Ok (res_manifest r1)
  /\ match fst (process_events L [demo_event] demo_t2 w2) with
     | Ok r2 =>
         event_path L demo_event = p
         /\ dict_get (images_of (res_manifest r2)) p
            = Some (Rec [("first_added", PStr (now_iso demo_t1));
                         ("title", PStr "farmers-market");
                         ("source", PStr "https://x/a.png");
                         ("last_seen", PStr (now_iso demo_t1))])
         /\ res_seen r2 = []
         /\ (now_iso demo_t1 =? now_iso demo_t2)%string = false
     | Raise _ => False
     end.
Proof. vm_compute. repeat split. Qed.

(** ** The scenarios of the design document *)

Example scenario_first_run :
  let r := result_of (process_events (demo_libs []) [demo_event] demo_t1
                        (demo_world (PStr "t") net_first_run)) in
  res_updated_events r
  = [dict_set demo_event "image_jpg"
       (PStr (PAGES_BASE ++ "/img/2025/09/farmers-market-d41d8cd9.jpg"))]
  /\ res_seen r = ["img/2025/09/farmers-market-d41d8cd9.jpg"]
  /\ res_rows r
     = [[CStr "index"; CStr "title"; CStr "original_image";
         CStr "final_jpg_url"; CStr "status"];
        [CInt 0; CStr "farmers-market"; CStr "https://x/a.png";
         CStr (PAGES_BASE ++ "/img/2025/09/farmers-market-d41d8cd9.jpg");
         CStr "ok"]].
Proof. vm_compute. repeat split. Qed.

Example scenario_pruned_after_61_days :
  let g := prune_manifest (demo_libs []) demo_first_manifest [] 60 false
             (mkDT 2025 11 6 12 0 0 0)
             (demo_world (PStr "t") net_all_ok) in
  ph_outcome g = Ok ["img/2025/09/farmers-market-d41d8cd9.jpg"]
  /\ ph_manifest g = [("images", Images [])]
  /\ map req_method (sent (ph_world g)) = [DELETE; GET].
Proof. vm_compute. repeat split. Qed.

Example scenario_kept_after_60_days :
  let g := prune_manifest (demo_libs []) demo_first_manifest [] 60 false
             (mkDT 2025 11 5 12 0 0 0)
             (demo_world (PStr "t") net_all_ok) in
  ph_outcome g = Ok [] /\ ph_manifest g = demo_first_manifest.
Proof. vm_compute. repeat split. Qed.

Example scenario_garbage_date :
  asset_path (demo_libs []) "farmers-market" "https://x/a.png" "garbage"
  = "img/undated/farmers-market-d41d8cd9.jpg".
Proof. reflexivity. Qed.

Example prune_demo_live :
  gc_outcome (prune_old (demo_libs []) demo_manifest ["img/2025/02/old-b.jpg"]
                60 false demo_now
                (demo_world (PStr "t") (net_by_method resp_ok resp_ok resp_ok)))
  = Ok ["img/2025/01/old-a.jpg"].
Proof. vm_compute. reflexivity. Qed.

(** ** More on the folder and the file name *)

Lemma length_append (a b : string) :
  String.length (a ++ b) = (String.length a + String.length b)%nat.
Proof. induction a as [|c a IH]; simpl; [reflexivity | now rewrite IH]. Qed.

Lemma length_take (n : nat) (s : string) : (String.length (take n s) <= n)%nat.
Proof.
  revert s; induction n as [|n IH]; intros [|c s]; simpl; try lia.
  specialize (IH s). lia.
Qed.

Lemma append_char_neq (c : ascii) (t : string) :
  has_char c t = false -> forall y m, y ++ String c m <> t.
Proof.
  induction t as [|x t IH]; intros Ht [|z y] m H; simpl in *;
    try discriminate.
  - injection H as -> _. now rewrite Ascii.eqb_refl in Ht.
  - injection H as -> H. apply orb_false_iff in Ht as [_ Ht].
    exact (IH Ht y m H).
Qed.

(** X1.  The two folder functions differ only on an unknown month: with
    fewer than three tokens both give ["undated"]; with a known abbreviation
    in third place they give the same folder; with an unknown one
    [month_folder] gives ["undated"] and [month_folder_from_date] does
    not. *)
Theorem month_folders_agree (s : string) :
  match nth_error (split s) 2 with
  | None => month_folder_from_date s = "undated" /\ month_folder s = "undated"
  | Some mon =>
      if dict_mem months mon
      then month_folder_from_date s = month_folder s
      else month_folder s = "undated"
           /\ month_folder_from_date s = last (split s) "" ++ "/00"
           /\ month_folder_from_date s <> month_folder s
  end.
Proof.
  rewrite month_folder_from_date_tokens, month_folder_tokens.
  destruct (nth_error (split s) 2) as [mon|]; [|now split].
  unfold dict_mem, months_get.
  destruct (dict_get months mon) as [mm|]; [reflexivity|].
  split; [reflexivity|]. split; [reflexivity|].
  apply (append_char_neq "/" "undated" eq_refl).
Qed.

(** X2.  Both folder functions depend on the date through its tokens only,
    so white space before, after and between the tokens does not matter;
    [month_folder], which does not call [strip], gives on a stripped date
    what it gives on the date itself. *)
Theorem month_folder_by_tokens (a b : string) :
  split a = split b ->
  month_folder_from_date a = month_folder_from_date b
  /\ month_folder a = month_folder b
  /\ month_folder (strip a) = month_folder a
  /\ month_folder_from_date (strip a) = month_folder_from_date a.
Proof.
  intros H.
  rewrite !month_folder_from_date_tokens, !month_folder_tokens, split_strip, H.
  repeat split.
Qed.

Lemma month_folder_by_tokens_witness :
  let a := String (ascii_of_nat 9) "Sat,  06   Sep 2025 " in
  let b := "Sat, 06 Sep 2025" in
  month_folder_from_date a = month_folder_from_date b
  /\ month_folder a = month_folder b
  /\ month_folder (strip a) = month_folder a
  /\ month_folder_from_date (strip a) = month_folder_from_date a.
Proof.
  exact (month_folder_by_tokens
           (String (ascii_of_nat 9) "Sat,  06   Sep 2025 ")
           "Sat, 06 Sep 2025" eq_refl).
Defined.

(** X3.  The file name is the stem, a dash, the digest prefix and [".jpg"];
    the stem is never empty (an empty slug is replaced by ["img"]) and has
    at most 60 characters, the digest prefix at most 8, so the name has
    between 6 and 73 characters whatever the title. *)
Theorem asset_fname_bounds (L : libs) (title src : string) :
  exists stem,
    asset_fname L title src = stem ++ "-" ++ sha8 L src ++ ".jpg"
    /\ stem <> ""
    /\ (String.length stem <= 60)%nat
    /\ (take 60 (slugify L title) = "" -> stem = "img")
    /\ (take 60 (slugify L title) <> "" -> stem = take 60 (slugify L title))
    /\ (String.length (sha8 L src) <= 8)%nat
    /\ (6 <= String.length (asset_fname L title src) <= 73)%nat.
Proof.
  unfold asset_fname.
  pose proof (length_take 60 (slugify L title)) as H60.
  pose proof (length_take 8 (md5_hexdigest L src)) as H8.
  fold (sha8 L src) in H8.
  destruct (take 60 (slugify L title)) as [|c s] eqn:E; cbn [is_empty].
  - exists "img". rewrite !length_append. cbn [String.length].
    repeat split; try discriminate; try lia; try congruence.
  - exists (String c s). rewrite !length_append.
    cbn [String.length] in *.
    repeat split; try discriminate; try lia; try congruence.
Qed.

Lemma prefix_empty (s : string) : prefix "" s = true.
Proof. now destruct s. Qed.

Lemma prefix_cons (a b : ascii) (s1 s2 : string) :
  prefix (String a s1) (String b s2)
  = if ascii_dec a b then prefix s1 s2 else false.
Proof. reflexivity. Qed.

Lemma prefix_slash_cut (a : string) :
  has_char "/" a = false ->
  forall y r,
    prefix (a ++ "/") (y ++ String "/" r) = prefix (a ++ "/") (y ++ "/").
Proof.
  induction a as [|x a IH]; intros Ha y r.
  - destruct y as [|c y]; cbn [append]; rewrite !prefix_cons.
    + now rewrite !prefix_empty.
    + destruct (ascii_dec "/" c); [|reflexivity]. now rewrite !prefix_empty.
  - cbn [has_char] in Ha. apply orb_false_iff in Ha as [Hx Ha].
    destruct y as [|c y]; cbn [append]; rewrite !prefix_cons.
    + destruct (ascii_dec x "/") as [->|]; [|reflexivity].
      discriminate.
    + destruct (ascii_dec x c); [|reflexivity]. now apply IH.
Qed.

(** X4.  An asset path lies under the protected prefix ["img/static/"]
    exactly when the date has at least three tokens and its last token is
    ["static"] or starts with ["static/"]; in particular an asset filed
    under a last token that does not start with the letter s is never
    protected, nor is one filed under ["undated"]. *)
Theorem asset_path_protected_iff (L : libs) (title src date : string) :
  is_protected (asset_path L title src date)
  = match nth_error (split date) 2 with
    | Some _ => prefix "static/" (last (split date) "" ++ "/")
    | None => false
    end
  /\ (forall c r,
         last (split date) "" = String c r -> c <> "s"%char ->
         is_protected (asset_path L title src date) = false).
Proof.
  assert (E : is_protected (asset_path L title src date)
              = match nth_error (split date) 2 with
                | Some _ => prefix "static/" (last (split date) "" ++ "/")
                | None => false
                end).
  { unfold is_protected, PROTECT_PREFIXES, startswith, asset_path.
    cbn [existsb]. rewrite orb_false_r.
    rewrite month_folder_from_date_tokens.
    destruct (nth_error (split date) 2) as [mon|]; [|reflexivity].
    set (y := last (split date) "").
    rewrite (append_assoc y).
    exact (prefix_slash_cut "static" eq_refl y
             (months_get mon ++ "/" ++ asset_fname L title src)). }
  split; [exact E|].
  intros c r Hlast Hc. rewrite E, Hlast.
  destruct (nth_error (split date) 2); [|reflexivity].
  cbn [append]. rewrite prefix_cons.
  destruct (ascii_dec "s" c); [congruence | reflexivity].
Qed.

Lemma asset_path_protected_iff_witness :
  is_protected (asset_path (demo_libs []) "t" "u" "Sat, 06 Sep 2025") = false.
Proof.
  exact (proj2 (asset_path_protected_iff (demo_libs []) "t" "u"
                  "Sat, 06 Sep 2025")
           "2"%char "025" eq_refl ltac:(discriminate)).
Defined.

Example asset_path_protected_sample :
  is_protected (asset_path (demo_libs []) "t" "u" "Sat, 06 Sep static") = true
  /\ is_protected (asset_path (demo_libs []) "t" "u" "Sat, 06 Sep 2025")
     = false
  /\ is_protected (asset_path (demo_libs []) "t" "u" "garbage") = false.
Proof. repeat split. Qed.

(** ** More on timestamps *)

Lemma lex_compare_eq (a b : list Z) :
  List.length a = List.length b -> lex_compare a b = Eq -> a = b.
Proof.
  revert b; induction a as [|x a IH]; intros [|y b] Hlen H;
    simpl in *; try discriminate; [reflexivity|].
  destruct (Z.compare_spec x y); try discriminate.
  subst. f_equal. apply IH; [lia | exact H].
Qed.

Lemma dt_compare_eq (a b : datetime) : dt_compare a b = Eq -> a = b.
Proof.
  intros H. apply lex_compare_eq in H; [|reflexivity].
  destruct a, b. unfold dt_fields in H. cbn in H. now inversion H.
Qed.

(** X5.  The stamp [now_iso] writes has 20 characters, and on stamps the
    order of the texts is the order of the instants taken to the second:
    comparing two stamps as strings, as [prune_old] does, compares the
    times; two stamps are equal exactly when the instants agree to the
    second. *)
Theorem now_iso_orders_instants (a b : datetime) :
  dt_valid a = true -> dt_valid b = true ->
  String.length (now_iso a) = 20%nat
  /\ (now_iso a ?= now_iso b)%string
     = dt_compare (replace_microsecond0 a) (replace_microsecond0 b)
  /\ ((now_iso a <? now_iso b)%string
      = dt_ltb (replace_microsecond0 a) (replace_microsecond0 b))
  /\ (now_iso a = now_iso b
      <-> replace_microsecond0 a = replace_microsecond0 b).
Proof.
  intros Ha Hb. split; [|split; [|split]].
  - rewrite now_iso_fields. reflexivity.
  - now apply now_iso_compare.
  - now apply now_iso_ltb.
  - split.
    + intros E. apply dt_compare_eq.
      rewrite <- now_iso_compare by assumption.
      rewrite E. apply string_compare_refl.
    + intros E. unfold now_iso. now rewrite E.
Qed.

Lemma now_iso_orders_instants_witness :
  String.length (now_iso demo_t1) = 20%nat
  /\ (now_iso demo_t1 ?= now_iso demo_t2)%string
     = dt_compare (replace_microsecond0 demo_t1) (replace_microsecond0 demo_t2)
  /\ ((now_iso demo_t1 <? now_iso demo_t2)%string
      = dt_ltb (replace_microsecond0 demo_t1) (replace_microsecond0 demo_t2))
  /\ (now_iso demo_t1 = now_iso demo_t2
      <-> replace_microsecond0 demo_t1 = replace_microsecond0 demo_t2).
Proof.
  exact (now_iso_orders_instants demo_t1 demo_t2 eq_refl eq_refl).
Defined.

(** ** Uploading *)

Lemma net_record (q : request) (w : world) :
  net (record_request q w) = net w.
Proof. reflexivity. Qed.

Lemma sent_record (q : request) (w : world) :
  sent (record_request q w) = q :: sent w.
Proof. reflexivity. Qed.

Lemma token_record (q : request) (w : world) :
  environ_token (record_request q w) = environ_token w.
Proof. reflexivity. Qed.

(** What [gh_put_file] does, case by case. *)
Lemma gh_put_file_unfold (L : libs) (path content message : string)
  (w : world) :
  gh_put_file L path content message w
  = if negb (truthy (environ_token w)) then (Raise missing_token, w)
    else
      let w1 := record_request (sha_lookup w path) w in
      match net w (sha_lookup w path :: sent w) with
      | Raise e => (Raise e, w1)
      | Ok r =>
          match sha_of_response L r with
          | Raise e => (Raise e, w1)
          | Ok sha =>
              let q := put_request L w path content message sha in
              let w2 := record_request q w1 in
              match net w (q :: sha_lookup w path :: sent w) with
              | Raise e => (Raise e, w2)
              | Ok resp =>
                  if 400 <=? status_code resp then
                    (Raise (RuntimeError
                              ("PUT " ++ path ++ " failed: "
                               ++ str_of_Z (status_code resp) ++ " "
                               ++ text resp)), w2)
                  else (Ok tt, w2)
              end
          end
      end.
Proof.
  destruct w as [tok nt snt out].
  cbv beta iota zeta delta
    [gh_put_file gh_get_sha bindM bind gh_headers send lift ret raise
     sha_lookup put_request sha_of_response record_request
     environ_token net sent stdout].
  destruct (negb (truthy tok)) eqn:Ht; [reflexivity|].
  destruct (nt _) as [r|e]; [|reflexivity].
  destruct (status_code r =? 200).
  - destruct (json_object L (text r)) as [j|e]; [|reflexivity].
    cbv beta iota. rewrite Ht.
    destruct (nt _) as [resp|e]; [|reflexivity].
    destruct (400 <=? status_code resp); reflexivity.
  - cbv beta iota. rewrite Ht.
    destruct (nt _) as [resp|e]; [|reflexivity].
    destruct (400 <=? status_code resp); reflexivity.
Qed.

Lemma gh_put_unfold (L : libs) (path content message : string) (w : world) :
  gh_put L path content message w
  = if negb (truthy (environ_token w)) then (Raise missing_token_simple, w)
    else
      let w1 := record_request (sha_lookup w path) w in
      match net w (sha_lookup w path :: sent w) with
      | Raise e => (Raise e, w1)
      | Ok r =>
          match sha_of_response L r with
          | Raise e => (Raise e, w1)
          | Ok sha =>
              let q := put_request L w path content message sha in
              let w2 := record_request q w1 in
              match net w (q :: sha_lookup w path :: sent w) with
              | Raise e => (Raise e, w2)
              | Ok resp => (raise_for_status (contents_url path) resp, w2)
              end
          end
      end.
Proof.
  destruct w as [tok nt snt out].
  cbv beta iota zeta delta
    [gh_put bindM bind gh_headers_simple send lift ret
     sha_lookup put_request sha_of_response record_request
     environ_token net sent stdout].
  destruct (negb (truthy tok)) eqn:Ht; [reflexivity|].
  destruct (nt _) as [r|e]; [|reflexivity].
  destruct (status_code r =? 200).
  - destruct (json_object L (text r)) as [j|e]; [|reflexivity].
    cbv beta iota. rewrite Ht.
    destruct (nt _) as [resp|e]; reflexivity.
  - cbv beta iota. rewrite Ht.
    destruct (nt _) as [resp|e]; reflexivity.
Qed.

Lemma raise_for_status_ok (url : string) (r : response) :
  raise_for_status url r = Ok tt
  <-> status_code r < 400 \/ 600 <= status_code r.
Proof.
  unfold raise_for_status.
  destruct (Z.leb_spec 400 (status_code r));
    destruct (Z.ltb_spec (status_code r) 500);
    destruct (Z.leb_spec 500 (status_code r));
    destruct (Z.ltb_spec (status_code r) 600); cbn [andb];
    split; intros Hx; try discriminate; try reflexivity; lia.
Qed.

(** X6.  The two uploaders, [gh_put] of bulletin_assets.py and
    [gh_put_file] of bulletin_assets_with_prune.py, send the same requests
    with the same payloads; whenever [gh_put_file] succeeds so does
    [gh_put], and [gh_put] succeeds where [gh_put_file] does not only when
    the PUT was answered with a status of 600 or more. *)
Theorem gh_put_agrees_with_gh_put_file (L : libs)
  (path content message : string) (w : world) :
  snd (gh_put L path content message w)
  = snd (gh_put_file L path content message w)
  /\ (fst (gh_put_file L path content message w) = Ok tt ->
      fst (gh_put L path content message w) = Ok tt)
  /\ (fst (gh_put L path content message w) = Ok tt ->
      fst (gh_put_file L path content message w) = Ok tt
      \/ exists q log r,
          sent (snd (gh_put L path content message w)) = q :: log
          /\ req_method q = PUT
          /\ net w (q :: log) = Ok r
          /\ 600 <= status_code r).
Proof.
  rewrite gh_put_unfold, gh_put_file_unfold.
  destruct (negb (truthy (environ_token w))).
  { cbn. split; [reflexivity|]. split; discriminate. }
  cbn zeta.
  destruct (net w (sha_lookup w path :: sent w)) as [r|e].
  2:{ cbn. split; [reflexivity|]. split; discriminate. }
  destruct (sha_of_response L r) as [sha|e].
  2:{ cbn. split; [reflexivity|]. split; discriminate. }
  destruct (net w (put_request L w path content message sha
                     :: sha_lookup w path :: sent w)) as [resp|e] eqn:Hput.
  2:{ cbn. split; [reflexivity|]. split; discriminate. }
  destruct (Z.leb_spec 400 (status_code resp)) as [Hge | Hlt];
    cbn [fst snd].
  - split; [reflexivity|]. split; [discriminate|].
    intros Hok. right. apply raise_for_status_ok in Hok.
    exists (put_request L w path content message sha),
      (sha_lookup w path :: sent w), resp.
    repeat split; [exact Hput | lia].
  - split; [reflexivity|]. split; [|now left].
    intros _. apply raise_for_status_ok. now left.
Qed.

(** X7.  [gh_put_file] sends at most two requests, the revision lookup and
    then the PUT, both for the contents URL of its path and both carrying
    the credential.  When it returns, the PUT was sent last, carried the
    base64 of the content, the message and the branch, and was answered
    with a status below 400. *)
Theorem gh_put_file_success (L : libs) (path content message : string)
  (w : world) :
  let w' := snd (gh_put_file L path content message w) in
  (exists new,
      sent w' = (new ++ sent w)%list
      /\ (List.length new <= 2)%nat
      /\ Forall (fun q => req_url q = contents_url path
                          /\ req_headers q
                             = Some (auth_headers (environ_token w))) new)
  /\ (fst (gh_put_file L path content message w) = Ok tt ->
      exists q payload r,
        sent w' = q :: sha_lookup w path :: sent w
        /\ q = mkReq PUT (contents_url path)
                 (Some (auth_headers (environ_token w))) (Some payload)
        /\ get_val payload "content" = PStr (b64encode L content)
        /\ get_val payload "message" = PStr message
        /\ get_val payload "branch" = PStr BRANCH
        /\ net w (q :: sha_lookup w path :: sent w) = Ok r
        /\ status_code r < 400).
Proof.
  cbn zeta. rewrite gh_put_file_unfold.
  destruct (negb (truthy (environ_token w))).
  { cbn [fst snd]. split; [|discriminate]. exists [].
    split; [reflexivity|]. split; [cbn; lia | constructor]. }
  cbn zeta.
  assert (H1 : exists new,
             sent (record_request (sha_lookup w path) w)
             = (new ++ sent w)%list
             /\ (List.length new <= 2)%nat
             /\ Forall (fun q => req_url q = contents_url path
                                 /\ req_headers q
                                    = Some (auth_headers (environ_token w)))
                       new).
  { exists [sha_lookup w path].
    split; [reflexivity|]. split; [cbn; lia|].
    constructor; [now split | constructor]. }
  destruct (net w (sha_lookup w path :: sent w)) as [r|e];
    [|cbn [fst snd]; split; [exact H1 | discriminate]].
  destruct (sha_of_response L r) as [sha|e];
    [|cbn [fst snd]; split; [exact H1 | discriminate]].
  set (q := put_request L w path content message sha).
  assert (H2 : exists new,
             sent (record_request q (record_request (sha_lookup w path) w))
             = (new ++ sent w)%list
             /\ (List.length new <= 2)%nat
             /\ Forall (fun q => req_url q = contents_url path
                                 /\ req_headers q
                                    = Some (auth_headers (environ_token w)))
                       new).
  { exists [q; sha_lookup w path].
    split; [reflexivity|]. split; [cbn; lia|].
    repeat constructor. }
  destruct (net w (q :: sha_lookup w path :: sent w)) as [resp|e] eqn:Hput;
    [|cbn [fst snd]; split; [exact H2 | discriminate]].
  destruct (Z.leb_spec 400 (status_code resp)) as [Hge | Hlt];
    cbn [fst snd]; (split; [exact H2|]); [discriminate|].
  intros _. subst q. unfold put_request in *.
  destruct (truthy sha); eexists; eexists; exists resp;
    (split; [reflexivity|]); (split; [reflexivity|]);
    (split; [reflexivity|]); (split; [reflexivity|]);
    (split; [reflexivity|]); (split; [exact Hput | exact Hlt]).
Qed.

Lemma gh_put_agrees_with_gh_put_file_witness :
  fst (gh_put (demo_libs []) "img/a.jpg" "bytes" "Add/Update a.jpg"
         (demo_world (PStr "t") net_all_ok)) = Ok tt.
Proof.
  exact (proj1 (proj2 (gh_put_agrees_with_gh_put_file (demo_libs [])
                         "img/a.jpg" "bytes" "Add/Update a.jpg"
                         (demo_world (PStr "t") net_all_ok)))
           eq_refl).
Defined.

Lemma gh_put_file_success_witness :
  let w := demo_world (PStr "t") net_all_ok in
  let w' := snd (gh_put_file (demo_libs []) "img/a.jpg" "bytes" "msg" w) in
  exists q payload r,
    sent w' = q :: sha_lookup w "img/a.jpg" :: sent w
    /\ q = mkReq PUT (contents_url "img/a.jpg")
             (Some (auth_headers (environ_token w))) (Some payload)
    /\ get_val payload "content" = PStr (b64encode (demo_libs []) "bytes")
    /\ get_val payload "message" = PStr "msg"
    /\ get_val payload "branch" = PStr BRANCH
    /\ net w (q :: sha_lookup w "img/a.jpg" :: sent w) = Ok r
    /\ status_code r < 400.
Proof.
  exact (proj2 (gh_put_file_success (demo_libs []) "img/a.jpg" "bytes" "msg"
                  (demo_world (PStr "t") net_all_ok))
           eq_refl).
Defined.

(** ** The sync, event by event *)

Lemma gh_put_file_ok_inv (L : libs) (path content message : string)
  (w w' : world) :
  gh_put_file L path content message w = (Ok tt, w') ->
  exists sha resp,
    w' = record_request (put_request L w path content message sha)
           (record_request (sha_lookup w path) w)
    /\ net w (put_request L w path content message sha
                :: sha_lookup w path :: sent w) = Ok resp
    /\ status_code resp < 400.
Proof.
  rewrite gh_put_file_unfold.
  destruct (negb (truthy (environ_token w))); [discriminate|]. cbn zeta.
  destruct (net w (sha_lookup w path :: sent w)) as [r|e]; [|discriminate].
  destruct (sha_of_response L r) as [sha|e]; [|discriminate].
  destruct (net w (put_request L w path content message sha
                     :: sha_lookup w path :: sent w)) as [resp|e] eqn:Hput;
    [|discriminate].
  destruct (Z.leb_spec 400 (status_code resp)) as [Hge|Hlt];
    [discriminate|].
  intros Hx; injection Hx as <-. now exists sha, resp.
Qed.

Lemma gh_put_file_requests (L : libs) (path content message : string)
  (w : world) :
  sent_only (fun q => req_url q = contents_url path
                      /\ (req_method q = GET \/ req_method q = PUT)
                      /\ req_headers q <> None)
            w (snd (gh_put_file L path content message w))
  /\ sends_at_most 2 w (snd (gh_put_file L path content message w)).
Proof.
  rewrite gh_put_file_unfold.
  assert (H0 : forall P, sent_only P w w /\ sends_at_most 2 w w).
  { intros P. split; [apply sent_only_refl|].
    exists []. split; [reflexivity | cbn; lia]. }
  destruct (negb (truthy (environ_token w))); [apply H0|]. cbn zeta.
  set (P := fun q => req_url q = contents_url path
                     /\ (req_method q = GET \/ req_method q = PUT)
                     /\ req_headers q <> None).
  assert (Hg : P (sha_lookup w path)).
  { split; [reflexivity|]. split; [now left | discriminate]. }
  assert (H1 : sent_only P w (record_request (sha_lookup w path) w)
               /\ sends_at_most 2 w (record_request (sha_lookup w path) w)).
  { split.
    - repeat split. exists [sha_lookup w path].
      split; [reflexivity | now constructor].
    - exists [sha_lookup w path]. split; [reflexivity | cbn; lia]. }
  destruct (net w (sha_lookup w path :: sent w)) as [r|e]; [|exact H1].
  destruct (sha_of_response L r) as [sha|e]; [|exact H1].
  set (q := put_request L w path content message sha).
  assert (Hq : P q).
  { split; [reflexivity|]. split; [now right | discriminate]. }
  assert (H2 : sent_only P w
                 (record_request q (record_request (sha_lookup w path) w))
               /\ sends_at_most 2 w
                    (record_request q
                       (record_request (sha_lookup w path) w))).
  { split.
    - repeat split. exists [q; sha_lookup w path].
      split; [reflexivity | now repeat constructor].
    - exists [q; sha_lookup w path]. split; [reflexivity | cbn; lia]. }
  destruct (net w (q :: sha_lookup w path :: sent w)) as [resp|e];
    [|exact H2].
  destruct (400 <=? status_code resp); exact H2.
Qed.

Lemma sends_at_most_refl (n : nat) (w : world) : sends_at_most n w w.
Proof. exists []. split; [reflexivity | cbn; lia]. Qed.

Lemma sends_at_most_trans (n m : nat) (w1 w2 w3 : world) :
  sends_at_most n w1 w2 -> sends_at_most m w2 w3 ->
  sends_at_most (n + m) w1 w3.
Proof.
  intros (n1 & H1 & L1) (n2 & H2 & L2). exists (n2 ++ n1)%list. split.
  - now rewrite H2, H1, app_assoc.
  - rewrite length_app. lia.
Qed.

Lemma sends_at_most_more (n m : nat) (w w' : world) :
  (n <= m)%nat -> sends_at_most n w w' -> sends_at_most m w w'.
Proof. intros Hle (new & H & Hl). exists new. split; [exact H | lia]. Qed.

Lemma fetch_and_upload_requests (L : libs) (title src date : string)
  (w : world) :
  sent_only (asset_request L title src date) w
            (snd (fetch_and_upload L title src date w))
  /\ sends_at_most 3 w (snd (fetch_and_upload L title src date w)).
Proof.
  unfold fetch_and_upload, bindM, send, lift.
  fold (image_request src).
  assert (H1 : sent_only (asset_request L title src date) w
                 (record_request (image_request src) w)
               /\ sends_at_most 3 w (record_request (image_request src) w)).
  { split.
    - repeat split. exists [image_request src].
      split; [reflexivity|]. constructor; [now left | constructor].
    - exists [image_request src]. split; [reflexivity | cbn; lia]. }
  destruct (net w (image_request src :: sent w)) as [r|e]; [|exact H1].
  destruct (raise_for_status src r) as [[]|e]; [|exact H1].
  destruct (to_jpg_bytes L (text r)) as [jpg|e]; [|exact H1].
  destruct (gh_put_file_requests L (asset_path L title src date) jpg
              ("Add/Update " ++ asset_fname L title src)
              (record_request (image_request src) w)) as (Hs & Hn).
  destruct (gh_put_file L (asset_path L title src date) jpg
              ("Add/Update " ++ asset_fname L title src)
              (record_request (image_request src) w)) as [[[]|e] w2];
    cbn [fst snd ret] in *.
  - split.
    + apply (sent_only_trans _ _ _ _ (proj1 H1)).
      eapply sent_only_weaken; [|exact Hs]. intros q Hq. now right.
    + apply (sends_at_most_trans 1 2 w
               (record_request (image_request src) w)); [|exact Hn].
      exists [image_request src]. split; [reflexivity | cbn; lia].
  - split.
    + apply (sent_only_trans _ _ _ _ (proj1 H1)).
      eapply sent_only_weaken; [|exact Hs]. intros q Hq. now right.
    + apply (sends_at_most_trans 1 2 w
               (record_request (image_request src) w)); [|exact Hn].
      exists [image_request src]. split; [reflexivity | cbn; lia].
Qed.

Lemma fetch_and_upload_accepted (L : libs) (title src date : string)
  (w w' : world) (p u : string) :
  fetch_and_upload L title src date w = (Ok (p, u), w') ->
  accepted_put w w' p.
Proof.
  intros H. pose proof (fetch_and_upload_ok _ _ _ _ _ _ _ _ H) as [-> _].
  revert H. unfold fetch_and_upload, bindM, send, lift, ret.
  fold (image_request src).
  destruct (net w (image_request src :: sent w)) as [r|e]; [|discriminate].
  destruct (raise_for_status src r) as [[]|e]; [|discriminate].
  destruct (to_jpg_bytes L (text r)) as [jpg|e]; [|discriminate].
  destruct (gh_put_file L (asset_path L title src date) jpg
              ("Add/Update " ++ asset_fname L title src)
              (record_request (image_request src) w)) as [[[]|e] w2] eqn:E;
    [|discriminate].
  intros H; injection H as H.
  apply gh_put_file_ok_inv in E as (sha & resp & -> & Hnet & Hlt).
  subst w'.
  set (w1 := record_request (image_request src) w) in *.
  exists [], [sha_lookup w1 (asset_path L title src date);
              image_request src],
    (put_request L w1 (asset_path L title src date) jpg
       ("Add/Update " ++ asset_fname L title src) sha), resp.
  split; [reflexivity|]. split; [reflexivity|]. split; [reflexivity|].
  split; [exact Hnet | exact Hlt].
Qed.

Lemma process_event_report (L : libs) (now : string) (i : nat) (ev : event)
  (st : sync_state) (w : world) :
  exists row out,
    st_rows (fst (process_event L now i ev st w)) = (st_rows st ++ row)%list
    /\ st_updated (fst (process_event L now i ev st w))
       = (st_updated st ++ out)%list
    /\ report_rows L (st_images st) i ev row out.
Proof.
  destruct (process_event_cases L now i ev st w)
    as [(Himg & ->) | [(Himg & w' & d & _ & _ & Hb & ->)
                      | [(Himg & e & w' & _ & ->)
                        | (Himg & e & w' & _ & Hb & ->)]]];
    cbn [fst st_rows st_updated]; do 2 eexists;
    (split; [reflexivity|]); (split; [reflexivity|]);
    now constructor.
Qed.

Lemma report_rows_same_errors (L : libs) (images images' : stored_images)
  (i : nat) (ev : event) (row : list (list cell)) (out : list event) :
  (forall q, bookkeeping_error images q = bookkeeping_error images' q) ->
  report_rows L images i ev row out -> report_rows L images' i ev row out.
Proof.
  intros Hq [Hno | Himg Hb | msg Himg | e Himg Hb].
  - now apply rows_no_image.
  - apply rows_ok; [assumption|]. now rewrite <- Hq.
  - now apply rows_error.
  - apply rows_ok_error; [assumption|]. now rewrite <- Hq.
Qed.

Lemma process_loop_report (L : libs) (now : string) (events : list event) :
  forall (i : nat) (st : sync_state) (w : world),
  exists rows outs,
    st_rows (fst (process_loop L now i events st w))
    = (st_rows st ++ List.concat rows)%list
    /\ st_updated (fst (process_loop L now i events st w))
       = (st_updated st ++ List.concat outs)%list
    /\ reported L (st_images st) i events rows outs.
Proof.
  induction events as [|ev rest IH]; intros i st w; cbn [process_loop].
  - exists [], []. cbn [List.concat]. rewrite !app_nil_r.
    split; [reflexivity|]. split; [reflexivity | constructor].
  - destruct (process_event_report L now i ev st w)
      as (row & out & Hr & Hu & Hrow).
    pose proof (process_event_bookkeeping L now i ev st w) as Hb.
    destruct (process_event L now i ev st w) as [st' w']. cbn [fst] in *.
    destruct (IH (S i) st' w') as (rows & outs & Hr2 & Hu2 & Hrep).
    exists (row :: rows), (out :: outs). cbn [List.concat].
    rewrite Hr2, Hu2, Hr, Hu, <- !app_assoc.
    split; [reflexivity|]. split; [reflexivity|].
    constructor; [exact Hrow|].
    clear -Hrep Hb. induction Hrep as [|j e es ro ros o os Ho _ IHr];
      [constructor|].
    constructor; [|exact IHr].
    eapply report_rows_same_errors; [|exact Ho]. exact Hb.
Qed.

Lemma reported_length (L : libs) (images : stored_images) (i : nat)
  (events : list event) (rows : list (list (list cell)))
  (outs : list (list event)) :
  reported L images i events rows outs ->
  recordable L events images ->
  List.length (List.concat rows) = List.length events
  /\ List.length (List.concat outs) = List.length events.
Proof.
  induction 1 as [|j ev evs row rows out outs Hrow _ IH]; intros Hrec;
    cbn [List.concat List.length]; [split; reflexivity|].
  destruct IH as [IH1 IH2];
    [intros e He; apply Hrec; now right|].
  rewrite !length_app, IH1, IH2.
  destruct Hrow as [Hno | Himg Hb | msg Himg | e Himg Hb];
    cbn [List.length]; try (split; reflexivity).
  rewrite (Hrec ev (or_introl eq_refl) Himg) in Hb. discriminate.
Qed.

(** X8. The mapping report of a sync is the header line followed by the
    rows of the input events, in input order, and the output file holds the
    events in the same order.  An event gives one row and is written once:
    the row of event [i] starts with [i] and the title, and says [no_image]
    (event passed through), [ok] with the source and the public URL that
    the output event carries as [image_jpg], or [error: msg] with the very
    message that the output event carries as [image_jpg_error].  The one
    exception is an event whose upload went through while the loaded
    manifest holds, where its record should be, something that is not a
    record: it gives the [ok] row and then an [error] row, and is written
    twice with both keys.  Where no event is such an exception the report
    has one row per event after the header, and the output one event per
    event. *)
Theorem process_events_report (L : libs) (events : list event)
  (utcnow : datetime) (w w' : world) (r : sync_result) :
  process_events L events utcnow w = (Ok r, w') ->
  exists m rows outs,
    fst (load_manifest L w) = Ok m
    /\ res_rows r = report_header :: List.concat rows
    /\ res_updated_events r = List.concat outs
    /\ reported L (setdefault_images m) 0 events rows outs
    /\ (recordable L events (setdefault_images m) ->
        List.length (res_rows r) = S (List.length events)
        /\ List.length (res_updated_events r) = List.length events).
Proof.
  rewrite process_events_unfold.
  destruct (fst (load_manifest L w)) as [m|e]; [|discriminate].
  cbv zeta.
  destruct (process_loop_report L (now_iso utcnow) events 0%nat
              (mkSync (setdefault_images m) [] [report_header] [])
              (record_request manifest_request w))
    as (rows & outs & Hr & Hu & Hrep).
  cbn [fst st_rows st_updated st_images app] in Hr, Hu, Hrep.
  intros H; injection H as <- _. cbn [res_rows res_updated_events].
  exists m, rows, outs. rewrite Hr, Hu. split; [reflexivity|].
  split; [reflexivity|]. split; [reflexivity|]. split; [exact Hrep|].
  intros Hrec. destruct (reported_length _ _ _ _ _ _ Hrep Hrec) as [H1 H2].
  cbn [List.length]. now rewrite H1, H2.
Qed.

Lemma process_events_report_witness :
  exists m rows outs,
    fst (load_manifest (demo_libs []) (demo_world (PStr "t") net_all_ok))
    = Ok m
    /\ res_rows (result_of (process_events (demo_libs []) [demo_event; []]
                              demo_now (demo_world (PStr "t") net_all_ok)))
       = report_header :: List.concat rows
    /\ res_updated_events
         (result_of (process_events (demo_libs []) [demo_event; []]
                       demo_now (demo_world (PStr "t") net_all_ok)))
       = List.concat outs
    /\ reported (demo_libs []) (setdefault_images m) 0 [demo_event; []]
         rows outs
    /\ List.length
         (res_rows (result_of (process_events (demo_libs [])
                                 [demo_event; []] demo_now
                                 (demo_world (PStr "t") net_all_ok))))
       = 3%nat
    /\ List.length
         (res_updated_events
            (result_of (process_events (demo_libs []) [demo_event; []]
                          demo_now (demo_world (PStr "t") net_all_ok))))
       = 2%nat.
Proof.
  destruct (process_events_report (demo_libs []) [demo_event; []] demo_now
              (demo_world (PStr "t") net_all_ok) _ _ eq_refl)
    as (m & rows & outs & Hm & Hr & Hu & Hrep & Hlen).
  exists m, rows, outs. split; [exact Hm|]. split; [exact Hr|].
  split; [exact Hu|]. split; [exact Hrep|].
  apply Hlen. vm_compute in Hm. injection Hm as <-.
  intros ev _ _. reflexivity.
Defined.

Lemma process_events_manifest_shape (L : libs) (events : list event)
  (utcnow : datetime) (w w' : world) (r : sync_result) :
  process_events L events utcnow w = (Ok r, w') ->
  exists m,
    fst (load_manifest L w) = Ok m
    /\ res_manifest r
       = dict_set m "images" (setdefault_images (res_manifest r)).
Proof.
  rewrite process_events_unfold.
  destruct (fst (load_manifest L w)) as [m|e]; [|discriminate].
  cbv zeta. intros H; injection H as <- _. exists m. cbn [res_manifest].
  split; [reflexivity|]. now rewrite setdefault_images_set.
Qed.

(** X9. One sync only adds or refreshes records of the stored manifest.
    Entries of the manifest other than ["images"] are handed on as loaded;
    every stored record is still there with its [first_added]; what is
    stored under a path the run did not see is untouched; the path of every
    seen record is the asset path of an input event with an image, and its
    record carries [last_seen] = now and, as [first_added], the stored one
    or now for a new record. *)
Theorem process_events_refreshes (L : libs) (events : list event)
  (utcnow : datetime) (w w' : world) (r : sync_result) :
  process_events L events utcnow w = (Ok r, w') ->
  exists m,
    fst (load_manifest L w) = Ok m
    /\ (forall k, k <> "images" ->
          dict_get (res_manifest r) k = dict_get m k)
    /\ (forall p rec,
          dict_get (images_of m) p = Some (Rec rec) ->
          exists rec',
            dict_get (images_of (res_manifest r)) p = Some (Rec rec')
            /\ dict_get rec' "first_added" = dict_get rec "first_added")
    /\ (forall p,
          ~ In p (res_seen r) ->
          dict_get (images_of (res_manifest r)) p
          = dict_get (images_of m) p)
    /\ (forall p,
          In p (res_seen r) ->
          (exists ev, In ev events /\ has_image ev = true
                      /\ p = event_path L ev)
          /\ exists rec',
              dict_get (images_of (res_manifest r)) p = Some (Rec rec')
              /\ dict_get rec' "last_seen" = Some (PStr (now_iso utcnow))
              /\ dict_get rec' "first_added"
                 = match dict_get (images_of m) p with
                   | Some (Rec old) => dict_get old "first_added"
                   | _ => Some (PStr (now_iso utcnow))
                   end).
Proof.
  intros H.
  destruct (process_events_manifest_shape _ _ _ _ _ _ H) as (m & Hm & Hshape).
  destruct (process_events_uploads _ _ _ _ _ _ H)
    as (m' & ups & Hm' & Hi & Hs & Hf).
  rewrite Hm in Hm'. injection Hm' as <-.
  exists m. split; [exact Hm|]. split; [|split; [|split]].
  - intros k Hk. rewrite Hshape. apply dict_get_set_other. congruence.
  - intros p rec Hg. rewrite Hi. now apply uploads_keep_first_added.
  - intros p Hp. rewrite Hi. apply uploads_untouched.
    intros Hin. apply Hp. now apply Hs.
  - intros p Hp. split.
    + destruct (seen_from_events _ _ _ _ _ _ _ H Hp) as (ev & He & Hi' & ->).
      now exists ev.
    + rewrite Hi. apply uploads_touched. now apply Hs.
Qed.

Lemma process_events_refreshes_witness :
  exists m,
    fst (load_manifest demo_resync_libs (demo_world (PStr "t") net_all_ok))
    = Ok m
    /\ (forall k, k <> "images" ->
          dict_get
            (res_manifest
               (result_of (process_events demo_resync_libs [demo_event]
                             demo_t2 (demo_world (PStr "t") net_all_ok)))) k
          = dict_get m k)
    /\ (forall p rec,
          dict_get (images_of m) p = Some (Rec rec) ->
          exists rec',
            dict_get
              (images_of
                 (res_manifest
                    (result_of (process_events demo_resync_libs [demo_event]
                                  demo_t2
                                  (demo_world (PStr "t") net_all_ok))))) p
            = Some (Rec rec')
            /\ dict_get rec' "first_added" = dict_get rec "first_added").
Proof.
  destruct (process_events_refreshes demo_resync_libs [demo_event] demo_t2
              (demo_world (PStr "t") net_all_ok) _ _ eq_refl)
    as (m & Hm & Hk & Hkeep & _).
  exists m. split; [exact Hm|]. split; [exact Hk | exact Hkeep].
Defined.

Lemma accepted_put_later (w w1 w2 : world) (p : string) :
  accepted_put w w1 p -> sent_only (fun _ => True) w1 w2 ->
  accepted_put w w2 p.
Proof.
  intros (after & before & q & r & Hs & Hm & Hu & Hn & Hlt)
         (_ & _ & new & Hs2 & _).
  exists (new ++ after)%list, before, q, r.
  split; [now rewrite Hs2, Hs, app_assoc|]. now repeat split.
Qed.

Lemma accepted_put_earlier (w0 w w1 : world) (p : string) :
  sent_only (fun _ => True) w0 w -> accepted_put w w1 p ->
  accepted_put w0 w1 p.
Proof.
  intros (_ & Hnet & new & Hs0 & _)
         (after & before & q & r & Hs & Hm & Hu & Hn & Hlt).
  exists after, (before ++ new)%list, q, r.
  rewrite <- app_assoc, <- Hs0, <- Hnet. now repeat split.
Qed.

Lemma sent_only_any (P : request -> Prop) (w w' : world) :
  sent_only P w w' -> sent_only (fun _ => True) w w'.
Proof. apply sent_only_weaken. intros; exact I. Qed.

Lemma sync_request_more (L : libs) (evs evs' : list event) (q : request) :
  (forall e, In e evs -> In e evs') ->
  sync_request L evs q -> sync_request L evs' q.
Proof.
  intros Hsub [ | ev Hin Himg | ev q' Hin Himg Hu Hm Hh].
  - constructor.
  - apply sync_image; auto.
  - eapply sync_store; eauto.
Qed.

Lemma process_event_requests (L : libs) (now : string) (i : nat) (ev : event)
  (st : sync_state) (w : world) :
  sent_only (sync_request L [ev]) w (snd (process_event L now i ev st w))
  /\ sends_at_most (if has_image ev then 3 else 0) w
       (snd (process_event L now i ev st w))
  /\ (forall p,
        In p (st_seen (fst (process_event L now i ev st w))) ->
        In p (st_seen st)
        \/ accepted_put w (snd (process_event L now i ev st w)) p).
Proof.
  assert (Hreq : truthy (get_val ev "image") = true ->
                 forall q, asset_request L (event_title ev) (event_src ev)
                             (event_date ev) q ->
                           sync_request L [ev] q).
  { intros Himg q [-> | (Hu & Hm & Hh)].
    - apply sync_image; [now left | exact Himg].
    - eapply sync_store; eauto. now left. }
  pose proof (fetch_and_upload_requests L (event_title ev) (event_src ev)
                (event_date ev) w) as (Hs & Hn).
  unfold has_image.
  destruct (process_event_cases L now i ev st w)
    as [(Himg & ->) | [(Himg & w' & d & E & _ & _ & ->)
                      | [(Himg & e & w' & E & ->)
                        | (Himg & e & w' & E & _ & ->)]]];
    rewrite Himg; cbn [fst snd st_seen].
  - split; [apply sent_only_refl|]. split; [apply sends_at_most_refl|].
    intros p Hp. now left.
  - rewrite E in Hs, Hn. cbn [snd] in Hs, Hn.
    split; [eapply sent_only_weaken; [apply Hreq, Himg | exact Hs]|].
    split; [exact Hn|].
    intros p Hp. apply set_add_in in Hp as [-> | Hp]; [right | now left].
    eapply fetch_and_upload_accepted; eauto.
  - rewrite E in Hs, Hn. cbn [snd] in Hs, Hn.
    split; [eapply sent_only_weaken; [apply Hreq, Himg | exact Hs]|].
    split; [exact Hn|].
    intros p Hp. now left.
  - rewrite E in Hs, Hn. cbn [snd] in Hs, Hn.
    split; [eapply sent_only_weaken; [apply Hreq, Himg | exact Hs]|].
    split; [exact Hn|].
    intros p Hp. now left.
Qed.

Lemma process_loop_requests (L : libs) (now : string) (events : list event) :
  forall (i : nat) (st : sync_state) (w : world),
    sent_only (sync_request L events) w
      (snd (process_loop L now i events st w))
    /\ sends_at_most (3 * List.length (filter has_image events)) w
         (snd (process_loop L now i events st w))
    /\ (forall p,
          In p (st_seen (fst (process_loop L now i events st w))) ->
          In p (st_seen st)
          \/ accepted_put w (snd (process_loop L now i events st w)) p).
Proof.
  induction events as [|ev rest IH]; intros i st w; cbn [process_loop].
  - split; [apply sent_only_refl|]. split; [apply sends_at_most_refl|].
    intros p Hp. now left.
  - destruct (process_event_requests L now i ev st w) as (Hs1 & Hn1 & Ha1).
    destruct (process_event L now i ev st w) as [st' w']. cbn [fst snd] in *.
    destruct (IH (S i) st' w') as (Hs2 & Hn2 & Ha2).
    split; [|split].
    + eapply sent_only_trans.
      * eapply sent_only_weaken; [|exact Hs1]. intros q.
        apply sync_request_more. intros e [<- | []]. now left.
      * eapply sent_only_weaken; [|exact Hs2]. intros q.
        apply sync_request_more. intros e He. now right.
    + cbn [filter]. destruct (has_image ev); cbn [List.length].
      * eapply sends_at_most_more;
          [|exact (sends_at_most_trans _ _ _ _ _ Hn1 Hn2)]. lia.
      * eapply sends_at_most_more;
          [|exact (sends_at_most_trans _ _ _ _ _ Hn1 Hn2)]. lia.
    + intros p Hp. destruct (Ha2 p Hp) as [Hst | Hacc].
      * destruct (Ha1 p Hst) as [H0 | Hacc]; [now left | right].
        eapply accepted_put_later; [exact Hacc|].
        eapply sent_only_any; exact Hs2.
      * right. eapply accepted_put_earlier; [|exact Hacc].
        eapply sent_only_any; exact Hs1.
Qed.

(** X10. What a sync puts on the wire.  Whatever the store answers,
    [process_events] leaves the credential alone and sends, oldest first, the
    anonymous fetch of the manifest and then nothing but fetches of images of
    input events and, with the credential, lookups and PUTs at the contents
    URLs of the assets of input events: it never sends a DELETE, and it sends
    at most one request plus three per event that has an image. *)
Theorem process_events_requests (L : libs) (events : list event)
  (utcnow : datetime) (w : world) :
  environ_token (snd (process_events L events utcnow w)) = environ_token w
  /\ exists new,
      sent (snd (process_events L events utcnow w))
      = (new ++ manifest_request :: sent w)%list
      /\ Forall (sync_request L events) new
      /\ Forall (fun q => req_method q <> DELETE) new
      /\ (List.length new
          <= 3 * List.length (filter has_image events))%nat.
Proof.
  assert (Hnd : forall new, Forall (sync_request L events) new ->
                            Forall (fun q => req_method q <> DELETE) new).
  { intros new. apply Forall_impl.
    intros q [ | ev Hin Himg | ev q' Hin Himg Hu [Hm | Hm] Hh];
      cbn; congruence. }
  rewrite process_events_unfold.
  destruct (fst (load_manifest L w)) as [m|e]; cbn [snd].
  - destruct (process_loop_requests L (now_iso utcnow) events 0%nat
                (mkSync (setdefault_images m) [] [report_header] [])
                (record_request manifest_request w))
      as ((Ht & _ & new & Hs & Hf) & (new' & Hs' & Hlen) & _).
    rewrite Hs in Hs'. apply app_inv_tail in Hs'. subst new'.
    split; [exact Ht|]. exists new. split; [exact Hs|].
    split; [exact Hf|]. split; [now apply Hnd | exact Hlen].
  - split; [reflexivity|]. exists [].
    split; [reflexivity|]. split; [constructor|]. split; [constructor|].
    cbn; lia.
Qed.

(** X11. A path is reported as seen only after the store accepted it:
    for every path in the seen set of a sync, a PUT at the contents URL of
    that path was sent during the run and answered with a status below
    400. *)
Theorem process_events_seen_uploaded (L : libs) (events : list event)
  (utcnow : datetime) (w w' : world) (r : sync_result) (p : string) :
  process_events L events utcnow w = (Ok r, w') ->
  In p (res_seen r) ->
  accepted_put w w' p.
Proof.
  rewrite process_events_unfold.
  destruct (fst (load_manifest L w)) as [m|e]; [|discriminate].
  destruct (process_loop_requests L (now_iso utcnow) events 0%nat
              (mkSync (setdefault_images m) [] [report_header] [])
              (record_request manifest_request w)) as (_ & _ & Ha).
  cbn zeta. intros Hx; injection Hx as <- <-. cbn [res_seen]. intros Hp.
  destruct (Ha p Hp) as [[] | Hacc].
  eapply accepted_put_earlier; [|exact Hacc].
  repeat split. exists [manifest_request].
  split; [reflexivity | now repeat constructor].
Qed.

Lemma process_events_seen_uploaded_witness :
  accepted_put (demo_world (PStr "t") net_all_ok)
    (snd (process_events (demo_libs []) [demo_event] demo_now
            (demo_world (PStr "t") net_all_ok)))
    "img/2025/09/farmers-market-d41d8cd9.jpg".
Proof.
  apply (process_events_seen_uploaded (demo_libs []) [demo_event] demo_now
           (demo_world (PStr "t") net_all_ok) _ _
           "img/2025/09/farmers-market-d41d8cd9.jpg" eq_refl).
  vm_compute. now left.
Defined.

(** ** The prune pass, candidate by candidate *)

(** What a live [gh_delete_file] does, case by case. *)
Lemma gh_delete_file_unfold (L : libs) (path message : string) (w : world) :
  gh_delete_file L path message false w
  = if negb (truthy (environ_token w)) then (Raise missing_token, w)
    else
      let w1 := record_request (sha_lookup w path) w in
      match net w (sha_lookup w path :: sent w) with
      | Raise e => (Raise e, w1)
      | Ok r =>
          match sha_of_response L r with
          | Raise e => (Raise e, w1)
          | Ok sha =>
              if negb (truthy sha) then (Ok false, w1)
              else
                let q := delete_request w path message sha in
                let w2 := record_request q w1 in
                match net w (q :: sha_lookup w path :: sent w) with
                | Raise e => (Raise e, w2)
                | Ok resp =>
                    if negb ((status_code resp =? 200)
                             || (status_code resp =? 204))
                    then (Raise (delete_failed path resp), w2)
                    else (Ok true, w2)
                end
          end
      end.
Proof.
  destruct w as [tok nt snt out].
  cbv beta iota zeta delta
    [gh_delete_file gh_get_sha bindM bind gh_headers send lift ret raise
     sha_lookup delete_request delete_failed sha_of_response record_request
     environ_token net sent stdout].
  destruct (negb (truthy tok)) eqn:Ht; [reflexivity|].
  destruct (nt _) as [r|e]; [|reflexivity].
  destruct (status_code r =? 200).
  - destruct (json_object L (text r)) as [j|e]; [|reflexivity].
    cbv beta iota.
    destruct (negb (truthy (get_val j "sha"))); [reflexivity|].
    rewrite Ht.
    destruct (nt _) as [resp|e]; [|reflexivity].
    destruct (negb (_ || _)); reflexivity.
  - reflexivity.
Qed.

Lemma confirmed_delete_later (w w1 w2 : world) (p : string) :
  confirmed_delete w w1 p -> sent_only (fun _ => True) w1 w2 ->
  confirmed_delete w w2 p.
Proof.
  intros (after & before & q & r & Hs & Hm & Hu & Hn & Hok)
         (_ & _ & new & Hs2 & _).
  exists (new ++ after)%list, before, q, r.
  split; [now rewrite Hs2, Hs, app_assoc|]. now repeat split.
Qed.

Lemma confirmed_delete_earlier (w0 w w1 : world) (p : string) :
  sent_only (fun _ => True) w0 w -> confirmed_delete w w1 p ->
  confirmed_delete w0 w1 p.
Proof.
  intros (_ & Hnet & new & Hs0 & _)
         (after & before & q & r & Hs & Hm & Hu & Hn & Hok).
  exists after, (before ++ new)%list, q, r.
  rewrite <- app_assoc, <- Hs0, <- Hnet. now repeat split.
Qed.

Lemma gc_request_more (w w' : world) (retention_days : Z)
  (cands cands' : list string) (q : request) :
  environ_token w' = environ_token w ->
  (forall p, In p cands -> In p cands') ->
  gc_request w' retention_days cands q -> gc_request w retention_days cands' q.
Proof.
  intros Ht Hsub [p Hp | p sha Hp Hsha].
  - unfold sha_lookup. rewrite Ht. apply (gc_lookup w). auto.
  - unfold delete_request. rewrite Ht. apply (gc_delete w); auto.
Qed.

(** One live delete: what is sent, and what each outcome means. *)
Lemma gh_delete_file_live (L : libs) (retention_days : Z) (path : string)
  (w : world) :
  let x := gh_delete_file L path (prune_message retention_days path) false w in
  sent_only (gc_request w retention_days [path]) w (snd x)
  /\ sends_at_most 2 w (snd x)
  /\ (fst x = Ok true -> confirmed_delete w (snd x) path).
Proof.
  cbn zeta. rewrite gh_delete_file_unfold.
  assert (H0 : sent_only (gc_request w retention_days [path]) w w
               /\ sends_at_most 2 w w) by
    (split; [apply sent_only_refl | apply sends_at_most_refl]).
  destruct (negb (truthy (environ_token w)));
    [split; [apply H0|]; split; [apply H0 | discriminate]|].
  cbn zeta.
  assert (Hg : gc_request w retention_days [path] (sha_lookup w path))
    by (constructor; now left).
  assert (H1 : sent_only (gc_request w retention_days [path]) w
                 (record_request (sha_lookup w path) w)
               /\ sends_at_most 2 w (record_request (sha_lookup w path) w)).
  { split.
    - repeat split. exists [sha_lookup w path].
      split; [reflexivity | now constructor].
    - exists [sha_lookup w path]. split; [reflexivity | cbn; lia]. }
  destruct (net w (sha_lookup w path :: sent w)) as [r|e];
    [|split; [apply H1|]; split; [apply H1 | discriminate]].
  destruct (sha_of_response L r) as [sha|e];
    [|split; [apply H1|]; split; [apply H1 | discriminate]].
  destruct (truthy sha) eqn:Hsha; cbn [negb];
    [|split; [apply H1|]; split; [apply H1 | discriminate]].
  set (q := delete_request w path (prune_message retention_days path) sha).
  assert (Hq : gc_request w retention_days [path] q)
    by (constructor; [now left | exact Hsha]).
  assert (H2 : sent_only (gc_request w retention_days [path]) w
                 (record_request q (record_request (sha_lookup w path) w))
               /\ sends_at_most 2 w
                    (record_request q
                       (record_request (sha_lookup w path) w))).
  { split.
    - repeat split. exists [q; sha_lookup w path].
      split; [reflexivity | now repeat constructor].
    - exists [q; sha_lookup w path]. split; [reflexivity | cbn; lia]. }
  destruct (net w (q :: sha_lookup w path :: sent w)) as [resp|e] eqn:Hnet;
    [|split; [apply H2|]; split; [apply H2 | discriminate]].
  destruct ((status_code resp =? 200) || (status_code resp =? 204)) eqn:Hst;
    cbn [negb fst snd];
    [|split; [apply H2|]; split; [apply H2 | discriminate]].
  split; [apply H2|]. split; [apply H2|]. intros _.
  exists [], [sha_lookup w path], q, resp.
  split; [reflexivity|]. split; [reflexivity|]. split; [reflexivity|].
  split; [exact Hnet|].
  apply orb_prop in Hst as [H | H]; apply Z.eqb_eq in H; auto.
Qed.

Lemma pop_image_other_keys (m m' : manifest_t) (path k : string) :
  pop_image m path = Ok m' -> k <> "images" ->
  dict_get m' k = dict_get m k.
Proof.
  unfold pop_image. destruct (dict_get m "images"); [|discriminate].
  intros H Hk; injection H as <-. apply dict_get_set_other. congruence.
Qed.

Lemma pop_image_ok (m : manifest_t) (path : string) :
  dict_mem m "images" = true ->
  exists m', pop_image m path = Ok m' /\ dict_mem m' "images" = true.
Proof.
  unfold dict_mem, pop_image.
  destruct (dict_get m "images") as [images|]; [|discriminate].
  intros _. eexists. split; [reflexivity|]. now rewrite dict_get_set_same.
Qed.

(** The live deletion loop, in full: the entries popped are exactly the
    paths whose delete the store confirmed, they are reported when the loop
    finishes, an error is the error of a delete call, and the requests are
    lookups and deletes of the paths given. *)
Lemma prune_loop_live (L : libs) (retention_days : Z)
  (to_delete : list string) :
  forall (deleted : list string) (m : manifest_t) (w : world),
    (to_delete <> [] -> dict_mem m "images" = true) ->
    let g := prune_loop L retention_days false to_delete deleted m w in
    exists ds,
      manifest_images (gc_manifest g)
      = fold_left (@dict_pop _) ds (manifest_images m)
      /\ (forall k, k <> "images" ->
            dict_get (gc_manifest g) k = dict_get m k)
      /\ subseq ds to_delete
      /\ (forall p, In p ds -> confirmed_delete w (gc_world g) p)
      /\ match gc_outcome g with
         | Ok out => out = (deleted ++ ds)%list
         | Raise e =>
             exists p w1,
               In p to_delete
               /\ fst (gh_delete_file L p (prune_message retention_days p)
                         false w1) = Raise e
         end
      /\ sent_only (gc_request w retention_days to_delete) w (gc_world g)
      /\ sends_at_most (2 * List.length to_delete) w (gc_world g).
Proof.
  induction to_delete as [|path rest IH]; intros deleted m w Hkey; cbn zeta.
  - exists []. cbn. rewrite app_nil_r.
    split; [reflexivity|]. split; [reflexivity|]. split; [constructor|].
    split; [intros p []|]. split; [reflexivity|].
    split; [apply sent_only_refl | apply sends_at_most_refl].
  - cbn [prune_loop].
    pose proof (gh_delete_file_live L retention_days path w) as (Hs & Hn & Hc).
    assert (Hs' : sent_only (gc_request w retention_days (path :: rest)) w
                    (snd (gh_delete_file L path
                            (prune_message retention_days path) false w))).
    { eapply sent_only_weaken; [|exact Hs]. intros q.
      apply gc_request_more; [reflexivity|]. intros p [<- | []]. now left. }
    assert (Hn' : sends_at_most (2 * List.length (path :: rest)) w
                    (snd (gh_delete_file L path
                            (prune_message retention_days path) false w))).
    { eapply sends_at_most_more; [|exact Hn]. cbn [List.length]. lia. }
    destruct (gh_delete_file L path (prune_message retention_days path)
                false w) as [[[|]|e] w'] eqn:E; cbn [fst snd negb] in *.
    + (* deleted in the store *)
      destruct (pop_image_ok m path) as (m' & Hpop & Hkey').
      { apply Hkey. discriminate. }
      rewrite Hpop.
      destruct (IH (deleted ++ [path])%list m' w' (fun _ => Hkey'))
        as (ds & Hi & Hk & Hsub & Hconf & Hout & Hs2 & Hn2).
      exists (path :: ds). cbn [fold_left].
      rewrite <- (pop_image_images _ _ _ Hpop).
      split; [exact Hi|]. split.
      { intros k Hne. rewrite Hk by exact Hne.
        eapply pop_image_other_keys; eauto. }
      split; [now constructor|]. split.
      { intros p [<- | Hp].
        - eapply confirmed_delete_later; [now apply Hc|].
          eapply sent_only_any; exact Hs2.
        - eapply confirmed_delete_earlier; [|now apply Hconf].
          eapply sent_only_any; exact Hs. }
      split.
      { destruct (gc_outcome _) as [out|e].
        - now rewrite Hout, <- app_assoc.
        - destruct Hout as (p & w1 & Hp & He). exists p, w1.
          split; [now right | exact He]. }
      split.
      { eapply sent_only_trans; [exact Hs'|].
        eapply sent_only_weaken; [|exact Hs2]. intros q.
        apply gc_request_more; [apply Hs|]. intros p Hp. now right. }
      eapply sends_at_most_more;
        [|exact (sends_at_most_trans _ _ _ _ _ Hn Hn2)].
      cbn [List.length]. lia.
    + (* not in the store *)
      assert (Hkey' : rest <> [] -> dict_mem m "images" = true)
        by (intros _; apply Hkey; discriminate).
      destruct (IH deleted m w' Hkey')
        as (ds & Hi & Hk & Hsub & Hconf & Hout & Hs2 & Hn2).
      exists ds. split; [exact Hi|]. split; [exact Hk|].
      split; [now constructor|]. split.
      { intros p Hp. eapply confirmed_delete_earlier; [|now apply Hconf].
        eapply sent_only_any; exact Hs. }
      split.
      { destruct (gc_outcome _) as [out|e]; [exact Hout|].
        destruct Hout as (p & w1 & Hp & He). exists p, w1.
        split; [now right | exact He]. }
      split.
      { eapply sent_only_trans; [exact Hs'|].
        eapply sent_only_weaken; [|exact Hs2]. intros q.
        apply gc_request_more; [apply Hs|]. intros p Hp. now right. }
      eapply sends_at_most_more;
        [|exact (sends_at_most_trans _ _ _ _ _ Hn Hn2)].
      cbn [List.length]. lia.
    + (* the delete call raised *)
      exists []. cbn [gc_manifest gc_outcome gc_world fold_left].
      split; [reflexivity|]. split; [reflexivity|].
      split; [constructor; clear; induction rest; now constructor|].
      split; [intros p []|]. split.
      { exists path, w. split; [now left | now rewrite E]. }
      split; [exact Hs' | exact Hn'].
Qed.

Lemma subseq_in {A : Type} (xs ys : list A) :
  subseq xs ys -> forall x, In x xs -> In x ys.
Proof.
  induction 1 as [|y xs ys _ IH|y xs ys _ IH]; intros x Hx.
  - destruct Hx.
  - right. now apply IH.
  - destruct Hx as [<- | Hx]; [now left | right; now apply IH].
Qed.

Lemma subseq_length {A : Type} (xs ys : list A) :
  subseq xs ys -> (List.length xs <= List.length ys)%nat.
Proof. induction 1; cbn [List.length]; lia. Qed.

Lemma dict_mem_pop {V : Type} (d : pydict V) (k k' : string) :
  dict_mem (dict_pop d k) k' = true -> dict_mem d k' = true.
Proof.
  unfold dict_mem. induction d as [|[k0 v0] d IH]; simpl; [auto|].
  destruct (k0 =? k)%string eqn:E; simpl.
  - destruct (k0 =? k')%string; [reflexivity | auto].
  - destruct (k0 =? k')%string; [reflexivity | exact IH].
Qed.

Lemma unique_keys_pop {V : Type} (d : pydict V) (k : string) :
  unique_keys d = true -> unique_keys (dict_pop d k) = true.
Proof.
  induction d as [|[k0 v0] d IH]; simpl; [auto|].
  intros H. apply andb_prop in H as [Hfresh Hu].
  destruct (k0 =? k)%string; [exact Hu|]. simpl.
  rewrite IH by exact Hu. rewrite andb_true_r.
  apply negb_true_iff. apply negb_true_iff in Hfresh.
  destruct (dict_mem (dict_pop d k) k0) eqn:E; [|reflexivity].
  apply dict_mem_pop in E. congruence.
Qed.

Lemma dict_get_pop_same {V : Type} (d : pydict V) (k : string) :
  unique_keys d = true -> dict_get (dict_pop d k) k = None.
Proof.
  induction d as [|[k0 v0] d IH]; simpl; [reflexivity|].
  intros H. apply andb_prop in H as [Hfresh Hu].
  destruct (k0 =? k)%string eqn:E; simpl.
  - apply String.eqb_eq in E; subst k0. apply negb_true_iff in Hfresh.
    unfold dict_mem in Hfresh. now destruct (dict_get d k).
  - rewrite E. now apply IH.
Qed.

Lemma dict_get_pop_none {V : Type} (d : pydict V) (k k' : string) :
  unique_keys d = true -> dict_get d k' = None ->
  dict_get (dict_pop d k) k' = None.
Proof.
  intros Hu Hn. destruct (string_dec k k') as [<- | Hne].
  - now apply dict_get_pop_same.
  - now rewrite dict_get_pop_other.
Qed.

(** The manifest after popping the paths [ds]. *)
Lemma pops_get {V : Type} (ds : list string) :
  forall (d : pydict V),
    (forall p, ~ In p ds ->
               dict_get (fold_left (@dict_pop V) ds d) p = dict_get d p)
    /\ (unique_keys d = true ->
        forall p, In p ds -> dict_get (fold_left (@dict_pop V) ds d) p = None).
Proof.
  induction ds as [|x ds IH]; intros d; cbn [fold_left].
  - split; [reflexivity | intros _ p []].
  - destruct (IH (dict_pop d x)) as (Hout & Hin). split.
    + intros p Hp. rewrite Hout by (intros H; apply Hp; now right).
      apply dict_get_pop_other. intros ->. apply Hp. now left.
    + intros Hu p Hp.
      destruct (in_dec string_dec p ds) as [Hd | Hd].
      * apply Hin; [now apply unique_keys_pop | exact Hd].
      * rewrite Hout by exact Hd. destruct Hp as [-> | Hp]; [|contradiction].
        now apply dict_get_pop_same.
Qed.

Lemma to_delete_has_images (m : manifest_t) (seen : pyset) (cutoff : string) :
  to_delete_of m seen cutoff <> [] -> dict_mem m "images" = true.
Proof.
  unfold to_delete_of, manifest_images, dict_mem.
  destruct (dict_get m "images"); [reflexivity|]. intros H. now elim H.
Qed.

Lemma to_delete_length (m : manifest_t) (seen : pyset) (cutoff : string) :
  (List.length (to_delete_of m seen cutoff)
   <= List.length (manifest_images m))%nat.
Proof. unfold to_delete_of. rewrite length_map. apply filter_length_le. Qed.

(** The dry loop, with what it prints. *)
Lemma prune_loop_dry_run_prints (L : libs) (retention_days : Z)
  (to_delete : list string) :
  forall (deleted : list string) (m : manifest_t) (w : world),
    prune_loop L retention_days true to_delete deleted m w
    = mkGc (Ok (deleted ++ to_delete)%list) m
        (mkWorld (environ_token w) (net w) (sent w)
           (dry_run_lines to_delete ++ stdout w)%list).
Proof.
  induction to_delete as [|p rest IH]; intros deleted m w.
  - cbn. rewrite app_nil_r. now destruct w.
  - cbn [prune_loop]. unfold gh_delete_file, bindM, print, ret. cbn [negb].
    rewrite IH. cbn [environ_token net sent stdout].
    rewrite <- app_assoc. unfold dry_run_lines. cbn [map rev].
    now rewrite <- !app_assoc.
Qed.

(** X12. A dry run is a pure preview.  With or without a token, and
    whatever the store would answer, [prune_old] in dry-run mode returns
    exactly the candidates, in manifest order, leaves the manifest as it is,
    sends nothing, and prints one ["[DRY-RUN] Would delete: path"] line per
    candidate, in the same order, and nothing else. *)
Theorem prune_dry_run_preview (L : libs) (m : manifest_t) (seen : pyset)
  (retention_days : Z) (utcnow : datetime) (w : world) (cutoff : string) :
  cutoff_iso_of utcnow retention_days = Ok cutoff ->
  let g := prune_old L m seen retention_days true utcnow w in
  gc_outcome g = Ok (to_delete_of m seen cutoff)
  /\ gc_manifest g = m
  /\ environ_token (gc_world g) = environ_token w
  /\ sent (gc_world g) = sent w
  /\ stdout (gc_world g)
     = (dry_run_lines (to_delete_of m seen cutoff) ++ stdout w)%list.
Proof.
  intros Hc. unfold prune_old. rewrite Hc. cbn zeta.
  rewrite prune_loop_dry_run_prints. cbn. now repeat split.
Qed.

Lemma prune_dry_run_preview_witness :
  let g := prune_old (demo_libs []) demo_manifest [] 60 true demo_now
             (demo_world PNone net_down) in
  gc_outcome g = Ok ["img/2025/01/old-a.jpg"; "img/2025/02/old-b.jpg"]
  /\ gc_manifest g = demo_manifest
  /\ environ_token (gc_world g) = PNone
  /\ sent (gc_world g) = []
  /\ stdout (gc_world g)
     = ["[DRY-RUN] Would delete: img/2025/02/old-b.jpg";
        "[DRY-RUN] Would delete: img/2025/01/old-a.jpg"].
Proof.
  exact (prune_dry_run_preview (demo_libs []) demo_manifest [] 60 demo_now
           (demo_world PNone net_down) "2025-09-06T03:04:05Z" eq_refl).
Defined.

(** X13. A live pass reports what it removed.  When a live [prune_old]
    returns a list, the list is a sub-list of the candidates in manifest
    order; for each path on it a DELETE at its contents URL was sent during
    the pass and answered 200 or 204; the manifest it leaves is the given
    one with exactly those paths popped from ["images"], other entries as
    they were: a path off the list keeps its record, and (keys being unique)
    a path on the list has none. *)
Theorem prune_live_report (L : libs) (m : manifest_t) (seen : pyset)
  (retention_days : Z) (utcnow : datetime) (w : world)
  (deleted : list string) :
  let g := prune_old L m seen retention_days false utcnow w in
  gc_outcome g = Ok deleted ->
  (exists cutoff,
      cutoff_iso_of utcnow retention_days = Ok cutoff
      /\ subseq deleted (to_delete_of m seen cutoff))
  /\ (forall p, In p deleted -> confirmed_delete w (gc_world g) p)
  /\ manifest_images (gc_manifest g)
     = fold_left (@dict_pop _) deleted (manifest_images m)
  /\ (forall k, k <> "images" -> dict_get (gc_manifest g) k = dict_get m k)
  /\ (forall p, ~ In p deleted ->
        dict_get (manifest_images (gc_manifest g)) p
        = dict_get (manifest_images m) p)
  /\ (unique_keys (manifest_images m) = true ->
      forall p, In p deleted ->
        dict_get (manifest_images (gc_manifest g)) p = None).
Proof.
  cbn zeta. unfold prune_old.
  destruct (cutoff_iso_of utcnow retention_days) as [cutoff|e];
    [|discriminate].
  cbn zeta.
  destruct (prune_loop_live L retention_days (to_delete_of m seen cutoff)
              [] m w (to_delete_has_images m seen cutoff))
    as (ds & Hi & Hk & Hsub & Hconf & Hout & _).
  cbn zeta in *.
  destruct (gc_outcome _) as [out|e]; [|discriminate].
  intros H; injection H as <-. cbn [app] in Hout. subst out.
  split; [now exists cutoff|]. split; [exact Hconf|].
  split; [exact Hi|]. split; [exact Hk|].
  rewrite Hi. destruct (pops_get ds (manifest_images m)) as (H1 & H2).
  split; [exact H1 | exact H2].
Qed.

Lemma prune_live_report_witness :
  let g := prune_old (demo_libs []) demo_manifest [] 60 false demo_now
             (demo_world (PStr "t") net_all_ok) in
  manifest_images (gc_manifest g)
  = fold_left (@dict_pop _) ["img/2025/01/old-a.jpg"; "img/2025/02/old-b.jpg"]
      (manifest_images demo_manifest)
  /\ forall p, In p ["img/2025/01/old-a.jpg"; "img/2025/02/old-b.jpg"] ->
       confirmed_delete (demo_world (PStr "t") net_all_ok) (gc_world g) p.
Proof.
  destruct (prune_live_report (demo_libs []) demo_manifest [] 60 demo_now
              (demo_world (PStr "t") net_all_ok)
              ["img/2025/01/old-a.jpg"; "img/2025/02/old-b.jpg"] eq_refl)
    as (_ & Hconf & Hi & _).
  split; [exact Hi | exact Hconf].
Defined.

(** Where the live loop raises: at the delete of one of the paths, after
    the deletes of the paths before it returned. *)
Lemma prune_loop_raises_at (L : libs) (retention_days : Z)
  (to_delete : list string) :
  forall (deleted : list string) (m : manifest_t) (w : world) (e : exn),
    (to_delete <> [] -> dict_mem m "images" = true) ->
    let g := prune_loop L retention_days false to_delete deleted m w in
    gc_outcome g = Raise e ->
    exists done p rest,
      to_delete = (done ++ p :: rest)%list
      /\ let g1 := prune_loop L retention_days false done deleted m w in
         (exists out, gc_outcome g1 = Ok out)
         /\ gh_delete_file L p (prune_message retention_days p) false
              (gc_world g1) = (Raise e, gc_world g)
         /\ gc_manifest g = gc_manifest g1.
Proof.
  induction to_delete as [|path rest IH]; intros deleted m w e Hkey;
    cbn zeta; [discriminate|].
  cbn [prune_loop].
  destruct (gh_delete_file L path (prune_message retention_days path)
              false w) as [[[|]|e1] w'] eqn:E; cbn [negb].
  - destruct (pop_image_ok m path) as (m' & Hpop & Hkey');
      [apply Hkey; discriminate|].
    rewrite Hpop. intros Hr.
    destruct (IH (deleted ++ [path])%list m' w' e (fun _ => Hkey') Hr)
      as (done & p & rest' & -> & Hout & Hdel & Hm).
    exists (path :: done), p, rest'. split; [reflexivity|].
    cbn [prune_loop]. rewrite E. cbn [negb]. rewrite Hpop.
    split; [exact Hout|]. split; [exact Hdel | exact Hm].
  - intros Hr.
    assert (Hkey' : rest <> [] -> dict_mem m "images" = true)
      by (intros _; apply Hkey; discriminate).
    destruct (IH deleted m w' e Hkey' Hr)
      as (done & p & rest' & -> & Hout & Hdel & Hm).
    exists (path :: done), p, rest'. split; [reflexivity|].
    cbn [prune_loop]. rewrite E.
    split; [exact Hout|]. split; [exact Hdel | exact Hm].
  - cbn [gc_outcome gc_world gc_manifest]. intros Hr; injection Hr as ->.
    exists [], path, rest. split; [reflexivity|].
    cbn [prune_loop gc_outcome gc_world gc_manifest].
    split; [now exists deleted|]. split; [exact E | reflexivity].
Qed.

(** The records of a manifest and the manifest object they were read
    from. *)
Lemma records_of_stored (d : pydict stored) (images : images_t) :
  records_of d = Ok images -> stored_records images = d.
Proof.
  revert images. induction d as [|[k [rec|v]] d IH]; intros images;
    cbn [records_of].
  - intros H; now injection H as <-.
  - destruct (records_of d) as [rest|e]; cbn [bind]; [|discriminate].
    intros H; injection H as <-. cbn [stored_records map fst snd].
    f_equal. now apply IH.
  - discriminate.
Qed.

Lemma stored_records_get (images : images_t) (p : string) :
  dict_get (stored_records images) p = option_map Rec (dict_get images p).
Proof.
  induction images as [|[k rec] images IH]; [reflexivity|].
  cbn [stored_records map fst snd dict_get].
  destruct (k =? p)%string; [reflexivity | exact IH].
Qed.

Lemma stored_records_pop (images : images_t) (p : string) :
  stored_records (dict_pop images p) = dict_pop (stored_records images) p.
Proof.
  induction images as [|[k rec] images IH]; [reflexivity|].
  cbn [stored_records map fst snd dict_pop].
  destruct (k =? p)%string; [reflexivity|].
  cbn [map fst snd]. f_equal. exact IH.
Qed.

Lemma stored_records_pops (ds : list string) :
  forall images,
    stored_records (fold_left (@dict_pop _) ds images)
    = fold_left (@dict_pop _) ds (stored_records images).
Proof.
  induction ds as [|p ds IH]; intros images; cbn [fold_left];
    [reflexivity|].
  now rewrite IH, stored_records_pop.
Qed.

Lemma dict_set_stored {V : Type} (d : pydict V) (k : string) (v : V) :
  dict_get d k = Some v -> dict_set d k v = d.
Proof.
  induction d as [|[k' v'] d IH]; cbn [dict_get dict_set]; [discriminate|].
  destruct (k' =? k)%string.
  - intros H; now injection H as ->.
  - intros H. now rewrite IH.
Qed.

Lemma records_view_images (m : stored_manifest) (images : images_t) :
  records_view m = Ok images ->
  images_of m = stored_records images
  /\ match dict_get m "images" with
     | Some x => x = Images (stored_records images)
     | None => images = []
     end.
Proof.
  unfold records_view, images_of.
  destruct (dict_get m "images") as [[d|v]|]; [| discriminate |].
  - intros H. apply records_of_stored in H. now subst d.
  - intros H; injection H as <-. now split.
Qed.

Lemma prune_old_raises_at (L : libs) (m : manifest_t)
  (seen : pyset) (retention_days : Z) (dry_run : bool) (utcnow : datetime)
  (w : world) (e : exn) (cutoff : string) :
  cutoff_iso_of utcnow retention_days = Ok cutoff ->
  let g := prune_old L m seen retention_days dry_run utcnow w in
  gc_outcome g = Raise e ->
  dry_run = false
  /\ exists done p rest ds,
      to_delete_of m seen cutoff = (done ++ p :: rest)%list
      /\ let g1 := prune_loop L retention_days false done [] m w in
         gc_outcome g1 = Ok ds
         /\ gh_delete_file L p (prune_message retention_days p) false
              (gc_world g1) = (Raise e, gc_world g)
         /\ gc_manifest g = gc_manifest g1
         /\ subseq ds done
         /\ (forall p', In p' ds -> confirmed_delete w (gc_world g1) p')
         /\ manifest_images (gc_manifest g)
            = fold_left (@dict_pop _) ds (manifest_images m).
Proof.
  intros Hc. cbn zeta. unfold prune_old. rewrite Hc. cbn zeta.
  destruct dry_run.
  - rewrite prune_loop_dry_run_prints. discriminate.
  - intros Hr. split; [reflexivity|].
    destruct (prune_loop_raises_at L retention_days
                (to_delete_of m seen cutoff) [] m w e
                (to_delete_has_images m seen cutoff) Hr)
      as (done & p & rest & Hsplit & (out & Hout) & Hdel & Hm).
    assert (Hkey : done <> [] -> dict_mem m "images" = true).
    { intros Hd. apply (to_delete_has_images m seen cutoff).
      rewrite Hsplit. now destruct done. }
    destruct (prune_loop_live L retention_days done [] m w Hkey)
      as (ds & Hi & _ & Hsub & Hconf & Hds & _).
    cbn zeta in *. rewrite Hout in Hds. cbn [app] in Hds. subst out.
    exists done, p, rest, ds.
    split; [exact Hsplit|]. split; [exact Hout|].
    split; [exact Hdel|]. split; [exact Hm|]. split; [exact Hsub|].
    split; [exact Hconf|]. now rewrite Hm.
Qed.

(** X14. A prune pass fails only where a delete fails, or before it
    started.  When [prune_old] raises on the manifest object of a run,
    either the cutoff could not be computed (the date arithmetic
    overflowed), or the first loop met a stored value that is not a record
    (or ["images"] is not a dict), and in both cases nothing was touched;
    or the pass is live and the exception is the very one [gh_delete_file]
    raised for a candidate [p], called in the world that the deletes of the
    candidates before [p] left, all of which returned; the pop of a manifest
    entry never raises.  The manifest object then lacks the entries whose
    delete was confirmed before the error, and only those. *)
Theorem prune_errors_are_delete_errors (L : libs) (m : stored_manifest)
  (seen : pyset) (retention_days : Z) (dry_run : bool) (utcnow : datetime)
  (w : world) (e : exn) :
  let g := prune_manifest L m seen retention_days dry_run utcnow w in
  ph_outcome g = Raise e ->
  (cutoff_iso_of utcnow retention_days = Raise e
   /\ ph_manifest g = m /\ ph_world g = w)
  \/ ((exists cutoff, cutoff_iso_of utcnow retention_days = Ok cutoff)
      /\ records_view m = Raise e
      /\ ph_manifest g = m /\ ph_world g = w)
  \/ (dry_run = false
      /\ exists cutoff images done p rest ds,
          cutoff_iso_of utcnow retention_days = Ok cutoff
          /\ records_view m = Ok images
          /\ to_delete_of [("images", images)] seen cutoff
             = (done ++ p :: rest)%list
          /\ let g1 := prune_loop L retention_days false done []
                         [("images", images)] w in
             gc_outcome g1 = Ok ds
             /\ gh_delete_file L p (prune_message retention_days p) false
                  (gc_world g1) = (Raise e, ph_world g)
             /\ subseq ds done
             /\ (forall p', In p' ds -> confirmed_delete w (gc_world g1) p')
             /\ images_of (ph_manifest g)
                = fold_left (@dict_pop _) ds (images_of m)).
Proof.
  cbn zeta. intros Hr.
  destruct (prune_manifest_cases L m seen retention_days dry_run utcnow w)
    as [(e' & He' & Hm & Hw & Hwhy)
       | (cutoff & images & Hc & Hv & Ho & Hw & Hm)].
  - rewrite Hr in He'. injection He' as <-.
    destruct Hwhy as [Hc | (Hc & Hv)]; [left | right; left];
      now repeat split.
  - right. right. cbn zeta in *. rewrite Ho in Hr.
    destruct (prune_old_raises_at L [("images", images)] seen retention_days
                dry_run utcnow w e cutoff Hc Hr)
      as (Hd & done & p & rest & ds & Hsplit & Hout & Hdel & _ & Hsub & Hconf
          & Hi).
    split; [exact Hd|]. exists cutoff, images, done, p, rest, ds.
    split; [exact Hc|]. split; [exact Hv|]. split; [exact Hsplit|].
    cbn zeta in *. split; [exact Hout|]. rewrite Hw.
    split; [exact Hdel|]. split; [exact Hsub|]. split; [exact Hconf|].
    destruct (records_view_images m images Hv) as (Him & Hk).
    rewrite Hm, Him.
    destruct (dict_get m "images") as [x|].
    + rewrite images_of_set, Hi.
      cbn [manifest_images dict_get String.eqb Ascii.eqb Bool.eqb].
      apply stored_records_pops.
    + subst images. now destruct done.
Qed.

Lemma prune_errors_are_delete_errors_witness :
  let w := demo_world (PStr "t") demo_failing_store in
  let m := stored_manifest_of demo_manifest in
  let g := prune_manifest (demo_libs []) m [] 60 false demo_now w in
  let e := delete_failed "img/2025/01/old-a.jpg"
             (mkResp 500 "Internal Server Error" "boom") in
  exists cutoff images done p rest ds,
    cutoff_iso_of demo_now 60 = Ok cutoff
    /\ records_view m = Ok images
    /\ to_delete_of [("images", images)] [] cutoff = (done ++ p :: rest)%list
    /\ gc_outcome (prune_loop (demo_libs []) 60 false done []
                     [("images", images)] w) = Ok ds
    /\ gh_delete_file (demo_libs []) p (prune_message 60 p) false
         (gc_world (prune_loop (demo_libs []) 60 false done []
                      [("images", images)] w))
       = (Raise e, ph_world g)
    /\ subseq ds done
    /\ images_of (ph_manifest g) = fold_left (@dict_pop _) ds (images_of m).
Proof.
  cbv zeta.
  destruct (prune_errors_are_delete_errors (demo_libs [])
              (stored_manifest_of demo_manifest) []
              60 false demo_now (demo_world (PStr "t") demo_failing_store)
              (delete_failed "img/2025/01/old-a.jpg"
                 (mkResp 500 "Internal Server Error" "boom")) eq_refl)
    as [(Hc & _)
       | [(_ & Hv & _)
         | (_ & cutoff & images & done & p & rest & ds & Hc & Hv & Hsplit
            & Hout & Hdel & Hsub & _ & Hi)]].
  - discriminate Hc.
  - discriminate Hv.
  - exists cutoff, images, done, p, rest, ds.
    split; [exact Hc|]. split; [exact Hv|]. split; [exact Hsplit|].
    split; [exact Hout|]. split; [exact Hdel|]. split; assumption.
Defined.

(** A leaf where a record should be stops the pass before anything is
    deleted. *)
Example prune_stops_at_leaf :
  let m := [("images",
             Images [("img/2025/01/old-a.jpg",
                      Rec (demo_record "2025-01-01T00:00:00Z"
                             "2025-01-02T00:00:00Z"));
                     ("img/static/logo.jpg", NotRec (PStr "x"))])] in
  let w := demo_world (PStr "t") net_all_ok in
  let g := prune_manifest (demo_libs []) m [] 60 false demo_now w in
  ph_outcome g = Raise (AttributeError (PStr "x") "get")
  /\ ph_manifest g = m /\ ph_world g = w.
Proof. vm_compute. repeat split. Qed.

(** X15. What a prune pass puts on the wire.  In either mode [prune_old]
    leaves the credential alone and never sends a PUT; every request it
    sends is the lookup of a candidate or the DELETE of a candidate with a
    non-empty revision, both with the credential; it sends at most two
    requests per manifest entry, and none at all in dry-run mode. *)
Theorem prune_old_requests (L : libs) (m : manifest_t) (seen : pyset)
  (retention_days : Z) (dry_run : bool) (utcnow : datetime) (w : world) :
  let g := prune_old L m seen retention_days dry_run utcnow w in
  environ_token (gc_world g) = environ_token w
  /\ exists new,
      sent (gc_world g) = (new ++ sent w)%list
      /\ (forall q, In q new ->
            req_method q <> PUT
            /\ req_headers q = Some (auth_headers (environ_token w))
            /\ exists cutoff,
                cutoff_iso_of utcnow retention_days = Ok cutoff
                /\ gc_request w retention_days
                     (to_delete_of m seen cutoff) q)
      /\ (List.length new <= 2 * List.length (manifest_images m))%nat
      /\ (dry_run = true -> new = []).
Proof.
  cbn zeta. unfold prune_old.
  destruct (cutoff_iso_of utcnow retention_days) as [cutoff|e0].
  - cbn zeta. destruct dry_run.
    + rewrite prune_loop_dry_run_prints. cbn. split; [reflexivity|].
      exists []. split; [reflexivity|]. split; [intros q []|].
      split; [apply Nat.le_0_l | reflexivity].
    + destruct (prune_loop_live L retention_days (to_delete_of m seen cutoff)
                  [] m w (to_delete_has_images m seen cutoff))
        as (ds & _ & _ & _ & _ & _ & (Ht & _ & new & Hs & Hf)
            & (new' & Hs' & Hlen)).
      cbn zeta in *.
      rewrite Hs in Hs'. apply app_inv_tail in Hs'. subst new'.
      split; [exact Ht|]. exists new. split; [exact Hs|]. split; [|split].
      * intros q Hq. rewrite Forall_forall in Hf. specialize (Hf q Hq).
        split; [|split].
        -- destruct Hf; cbn; discriminate.
        -- destruct Hf; reflexivity.
        -- now exists cutoff.
      * pose proof (to_delete_length m seen cutoff). lia.
      * discriminate.
  - cbn. split; [reflexivity|]. exists [].
    split; [reflexivity|]. split; [intros q []|].
    split; [apply Nat.le_0_l | reflexivity].
Qed.

Lemma cooperative_later (L : libs) (w w' : world) :
  environ_token w' = environ_token w -> net w' = net w ->
  cooperative L w -> cooperative L w'.
Proof. unfold cooperative. intros -> ->. auto. Qed.

Lemma gh_delete_file_cooperative (L : libs) (path message : string)
  (w : world) :
  cooperative L w ->
  exists w', gh_delete_file L path message false w = (Ok true, w')
             /\ cooperative L w'.
Proof.
  intros Hco. pose proof Hco as (Ht & Hnet).
  rewrite gh_delete_file_unfold, Ht. cbn [negb].
  destruct (Hnet (sha_lookup w path) (sent w)) as (Hget & _).
  destruct (Hget eq_refl) as (r & j & -> & H200 & Hj & Hsha).
  unfold sha_of_response. rewrite H200, Hj. cbn [Z.eqb Pos.eqb bind].
  rewrite Hsha. cbn [negb].
  set (q := delete_request w path message (get_val j "sha")).
  destruct (Hnet q (sha_lookup w path :: sent w)) as (_ & Hdel).
  destruct (Hdel eq_refl) as (resp & -> & Hst).
  assert (E : (status_code resp =? 200) || (status_code resp =? 204) = true).
  { destruct Hst as [-> | ->]; reflexivity. }
  rewrite E. cbn [negb]. eexists. split; [reflexivity|].
  eapply cooperative_later; [| |exact Hco]; reflexivity.
Qed.

Lemma prune_loop_cooperative (L : libs) (retention_days : Z)
  (to_delete : list string) :
  forall (deleted : list string) (m : manifest_t) (w : world),
    cooperative L w ->
    (to_delete <> [] -> dict_mem m "images" = true) ->
    let g := prune_loop L retention_days false to_delete deleted m w in
    gc_outcome g = Ok (deleted ++ to_delete)%list
    /\ manifest_images (gc_manifest g)
       = fold_left (@dict_pop _) to_delete (manifest_images m).
Proof.
  induction to_delete as [|p rest IH]; intros deleted m w Hco Hkey; cbn zeta.
  - cbn. now rewrite app_nil_r.
  - cbn [prune_loop].
    destruct (gh_delete_file_cooperative L p (prune_message retention_days p)
                w Hco) as (w' & -> & Hco').
    cbn [negb].
    destruct (pop_image_ok m p) as (m' & Hpop & Hkey');
      [apply Hkey; discriminate|].
    rewrite Hpop.
    destruct (IH (deleted ++ [p])%list m' w' Hco' (fun _ => Hkey'))
      as (Ho & Hi).
    cbn zeta in *. rewrite Ho, Hi, <- app_assoc. cbn [fold_left].
    now rewrite (pop_image_images _ _ _ Hpop).
Qed.

(** X16. The dry run predicts the live run.  Against a store that holds
    every object asked for, with a revision, and accepts every delete, a
    live [prune_old] returns exactly the list the dry run returns, the
    candidates in manifest order, and leaves the manifest with those paths
    popped: (keys being unique) no candidate has a record any more. *)
Theorem prune_live_matches_dry_run (L : libs) (m : manifest_t) (seen : pyset)
  (retention_days : Z) (utcnow : datetime) (w : world) (cutoff : string) :
  cooperative L w ->
  cutoff_iso_of utcnow retention_days = Ok cutoff ->
  let live := prune_old L m seen retention_days false utcnow w in
  let dry := prune_old L m seen retention_days true utcnow w in
  gc_outcome live = gc_outcome dry
  /\ gc_outcome live = Ok (to_delete_of m seen cutoff)
  /\ manifest_images (gc_manifest live)
     = fold_left (@dict_pop _) (to_delete_of m seen cutoff)
         (manifest_images m)
  /\ (unique_keys (manifest_images m) = true ->
      forall p, In p (to_delete_of m seen cutoff) ->
        dict_get (manifest_images (gc_manifest live)) p = None).
Proof.
  intros Hco Hc. cbn zeta. unfold prune_old. rewrite Hc. cbn zeta.
  rewrite prune_loop_dry_run_prints.
  destruct (prune_loop_cooperative L retention_days
              (to_delete_of m seen cutoff) [] m w Hco
              (to_delete_has_images m seen cutoff)) as (Ho & Hi).
  cbn zeta in *. rewrite Ho, Hi. cbn [gc_outcome app].
  split; [reflexivity|]. split; [reflexivity|]. split; [reflexivity|].
  apply (pops_get (to_delete_of m seen cutoff) (manifest_images m)).
Qed.

Lemma cooperative_demo :
  cooperative (demo_libs []) (demo_world (PStr "t") net_all_ok).
Proof.
  split; [reflexivity|]. intros [[] u h b] log; split; intros Hm;
    try discriminate Hm.
  - exists (mkResp 200 "OK" "3f2a"), [("sha", PStr "3f2a")].
    now repeat split.
  - exists (mkResp 200 "OK" "3f2a"). split; [reflexivity | now left].
Defined.

Lemma prune_live_matches_dry_run_witness :
  let live := prune_old (demo_libs []) demo_manifest [] 60 false demo_now
                (demo_world (PStr "t") net_all_ok) in
  let dry := prune_old (demo_libs []) demo_manifest [] 60 true demo_now
               (demo_world (PStr "t") net_all_ok) in
  gc_outcome live = gc_outcome dry
  /\ gc_outcome live = Ok ["img/2025/01/old-a.jpg"; "img/2025/02/old-b.jpg"].
Proof.
  destruct (prune_live_matches_dry_run (demo_libs []) demo_manifest [] 60
              demo_now (demo_world (PStr "t") net_all_ok)
              "2025-09-06T03:04:05Z" cooperative_demo eq_refl)
    as (H1 & H2 & _).
  split; [exact H1 | exact H2].
Defined.

Lemma string_ltb_leb_trans (a b c : string) :
  (a <? b)%string = true -> (b <=? c)%string = true ->
  (a <? c)%string = true.
Proof.
  unfold String.ltb, String.leb. intros Hab Hbc.
  destruct (a ?= b)%string eqn:E1; try discriminate.
  destruct (b ?= c)%string eqn:E2; [| |discriminate].
  - apply String.compare_eq_iff in E2. subst. now rewrite E1.
  - now rewrite (string_compare_lt_trans a b c E1 E2).
Qed.

(** X17. The deletion list shrinks when more is protected by use or by
    time.  With a seen set that contains the other and a cutoff text that
    is not later, every candidate is still a candidate of the other
    selection, and the smaller list is the larger one with entries left
    out, order kept. *)
Theorem to_delete_monotone (m : manifest_t) (seen seen' : pyset)
  (cutoff cutoff' : string) :
  (forall p, In p seen -> In p seen') ->
  (cutoff' <=? cutoff)%string = true ->
  subseq (to_delete_of m seen' cutoff') (to_delete_of m seen cutoff)
  /\ forall p, In p (to_delete_of m seen' cutoff') ->
               In p (to_delete_of m seen cutoff).
Proof.
  intros Hseen Hcut.
  assert (Hc : forall item, is_candidate seen' cutoff' item = true ->
                            is_candidate seen cutoff item = true).
  { intros [path rec] H.
    apply candidate_unprotected_unseen in H as (Hp & Hs & Ht & Hlt).
    unfold is_candidate. rewrite Hp, Ht.
    rewrite (string_ltb_leb_trans _ _ _ Hlt Hcut).
    destruct (set_mem path seen) eqn:E; [|reflexivity].
    apply set_mem_in in E. apply Hseen in E. apply set_mem_in in E.
    congruence. }
  assert (Hsub : subseq (to_delete_of m seen' cutoff')
                        (to_delete_of m seen cutoff)).
  { unfold to_delete_of. induction (manifest_images m) as [|item l IH];
      cbn [filter map]; [constructor|].
    destruct (is_candidate seen' cutoff' item) eqn:E.
    - rewrite (Hc item E). cbn [map]. now constructor.
    - destruct (is_candidate seen cutoff item); cbn [map];
        [now constructor | exact IH]. }
  split; [exact Hsub | now apply subseq_in].
Qed.

Lemma to_delete_monotone_witness :
  subseq (to_delete_of demo_manifest ["img/2025/01/old-a.jpg"]
            "2025-09-06T03:04:05Z")
         (to_delete_of demo_manifest [] "2025-09-06T03:04:05Z")
  /\ forall p,
       In p (to_delete_of demo_manifest ["img/2025/01/old-a.jpg"]
               "2025-09-06T03:04:05Z") ->
       In p (to_delete_of demo_manifest [] "2025-09-06T03:04:05Z").
Proof.
  apply (to_delete_monotone demo_manifest [] ["img/2025/01/old-a.jpg"]
           "2025-09-06T03:04:05Z" "2025-09-06T03:04:05Z").
  - intros p [].
  - reflexivity.
Defined.

(** ** The run, phase by phase *)

Lemma sent_only_none (w w' : world) :
  sent_only (fun _ => False) w w' ->
  environ_token w' = environ_token w /\ net w' = net w /\ sent w' = sent w.
Proof.
  intros (Ht & Hn & new & Hs & Hf). split; [exact Ht|]. split; [exact Hn|].
  destruct new as [|q new]; [exact Hs|]. now inversion Hf.
Qed.

Lemma process_events_sent (L : libs) (events : list event) (utcnow : datetime)
  (w : world) :
  sent_only (sync_request L events) w (snd (process_events L events utcnow w)).
Proof.
  rewrite process_events_unfold.
  assert (H1 : sent_only (sync_request L events) w
                 (record_request manifest_request w)).
  { repeat split. exists [manifest_request].
    split; [reflexivity|]. repeat constructor. }
  destruct (fst (load_manifest L w)) as [m|e]; cbn [snd]; [|exact H1].
  eapply sent_only_trans; [exact H1|].
  apply (process_loop_requests L (now_iso utcnow) events 0%nat).
Qed.

Lemma prune_old_sent (L : libs) (m : manifest_t) (seen : pyset)
  (retention_days : Z) (dry_run : bool) (utcnow : datetime) (w : world) :
  sent_only (fun q => dry_run = false
                      /\ exists cands, gc_request w retention_days cands q)
            w (gc_world (prune_old L m seen retention_days dry_run utcnow w)).
Proof.
  unfold prune_old.
  destruct (cutoff_iso_of utcnow retention_days) as [cutoff|e];
    [|apply sent_only_refl].
  cbn zeta. destruct dry_run.
  - rewrite prune_loop_dry_run_prints. cbn [gc_world].
    repeat split. exists []. split; [reflexivity | constructor].
  - destruct (prune_loop_live L retention_days (to_delete_of m seen cutoff)
                [] m w (to_delete_has_images m seen cutoff))
      as (ds & _ & _ & _ & _ & _ & Hs & _).
    eapply sent_only_weaken; [|exact Hs]. intros q Hq.
    split; [reflexivity | now exists (to_delete_of m seen cutoff)].
Qed.

Lemma prune_manifest_sent (L : libs) (m : stored_manifest) (seen : pyset)
  (retention_days : Z) (dry_run : bool) (utcnow : datetime) (w : world) :
  sent_only (fun q => dry_run = false
                      /\ exists cands, gc_request w retention_days cands q)
            w (ph_world (prune_manifest L m seen retention_days dry_run
                           utcnow w)).
Proof.
  destruct (prune_manifest_cases L m seen retention_days dry_run utcnow w)
    as [(e & _ & _ & -> & _) | (c & images & _ & _ & _ & -> & _)].
  - apply sent_only_refl.
  - apply prune_old_sent.
Qed.

Lemma prune_phase_sent (L : libs) (a : args) (events : list event)
  (r : sync_result) (utcnow : datetime) (w : world) :
  sent_only (fun q => arg_prune a = true /\ arg_dry_run a = false
                      /\ exists cands,
                          gc_request w (arg_retention a) cands q)
            w (ph_world (prune_phase L a r utcnow w)).
Proof.
  pose proof (prune_phase_spec L a r utcnow w) as H. cbn zeta in H.
  destruct (arg_prune a) eqn:Ep.
  - destruct H as (_ & _ & Hs).
    eapply sent_only_trans.
    + eapply sent_only_weaken; [|apply prune_manifest_sent].
      cbn beta. intros q (Hd & Hc).
      split; [reflexivity|]. split; [exact Hd | exact Hc].
    + eapply sent_only_weaken; [|exact Hs]. intros q [].
  - rewrite H. apply sent_only_refl.
Qed.

(** [main], phase by phase. *)
Lemma main_unfold (L : libs) (a : args) (events : list event)
  (utcnow_sync utcnow_prune : datetime) (w : world) :
  main L a events utcnow_sync utcnow_prune w
  = match process_events L events utcnow_sync w with
    | (Raise e, w1) => (Raise e, w1)
    | (Ok r, w1) =>
        let g := prune_phase L a r utcnow_prune w1 in
        match ph_outcome g with
        | Raise e => (Raise e, ph_world g)
        | Ok deleted =>
            match save_manifest L (ph_manifest g) (ph_world g) with
            | (Raise e, w2) => (Raise e, w2)
            | (Ok _, w2) =>
                (Ok (mkRun r deleted (ph_manifest g)),
                 mkWorld (environ_token w2) (net w2) (sent w2)
                   (finished_line a deleted :: stdout w2))
            end
        end
    end.
Proof.
  unfold main, bindM.
  destruct (process_events L events utcnow_sync w) as [[r|e] w1];
    [|reflexivity].
  cbn zeta.
  destruct (ph_outcome (prune_phase L a r utcnow_prune w1)) as [deleted|e];
    [|reflexivity].
  destruct (save_manifest L _ _) as [[u|e] w2]; reflexivity.
Qed.

Lemma event_path_not_manifest (L : libs) (ev : event) :
  event_path L ev <> MANIFEST_PATH.
Proof. unfold event_path, asset_path, MANIFEST_PATH. discriminate. Qed.

Lemma sync_request_kind (L : libs) (events : list event) (q : request) :
  sync_request L events q ->
  req_method q <> DELETE
  /\ (req_headers q <> None -> exists p, req_url q = contents_url p)
  /\ (req_method q = PUT -> req_url q <> contents_url MANIFEST_PATH).
Proof.
  intros [ | ev Hin Himg | ev q' Hin Himg Hu Hm Hh].
  - split; [discriminate|]. split; [intros H; now elim H | discriminate].
  - split; [discriminate|]. split; [intros H; now elim H | discriminate].
  - split; [destruct Hm as [-> | ->]; discriminate|].
    split; [intros _; now exists (event_path L ev)|].
    intros _. rewrite Hu. intros E. apply contents_url_inj in E.
    now apply event_path_not_manifest in E.
Qed.

Lemma gc_request_kind (w : world) (retention_days : Z) (cands : list string)
  (q : request) :
  gc_request w retention_days cands q ->
  req_method q <> PUT /\ exists p, req_url q = contents_url p.
Proof.
  intros [p Hp | p sha Hp Hsha]; (split; [discriminate | now exists p]).
Qed.

(** X18. What a whole run puts on the wire.  Whatever the arguments, the
    events and the store, [main] leaves the credential alone and every
    request it sends is one of the sync, one of the prune pass, or the
    lookup and PUT of the manifest.  So: a DELETE is sent only with
    [--prune] and without [--dry-run]; a request that carries the
    credential goes to a contents URL of the repository, never to the URL
    of an event image as such; and a PUT goes to the contents URL of the
    manifest or of the asset of an input event. *)
Theorem main_requests (L : libs) (a : args) (events : list event)
  (utcnow_sync utcnow_prune : datetime) (w : world) :
  let w' := snd (main L a events utcnow_sync utcnow_prune w) in
  environ_token w' = environ_token w
  /\ exists new,
      sent w' = (new ++ sent w)%list
      /\ Forall (run_request L a events w) new
      /\ (forall q, In q new -> req_method q = DELETE ->
            arg_prune a = true /\ arg_dry_run a = false)
      /\ (forall q, In q new -> req_headers q <> None ->
            exists p, req_url q = contents_url p)
      /\ (forall q, In q new -> req_method q = PUT ->
            req_url q = contents_url MANIFEST_PATH
            \/ exists ev, In ev events /\ has_image ev = true
                          /\ req_url q = contents_url (event_path L ev)).
Proof.
  cbn zeta.
  assert (Hall : sent_only (run_request L a events w) w
                   (snd (main L a events utcnow_sync utcnow_prune w))).
  { rewrite main_unfold.
    pose proof (process_events_sent L events utcnow_sync w) as Hs.
    destruct (process_events L events utcnow_sync w) as [[r|e] w1];
      cbn [snd] in *;
      [|eapply sent_only_weaken; [|exact Hs]; intros q; apply run_sync_request].
    cbn zeta.
    pose proof (prune_phase_sent L a events r utcnow_prune w1) as Hp.
    assert (H2 : sent_only (run_request L a events w) w
                   (ph_world (prune_phase L a r utcnow_prune w1))).
    { eapply sent_only_trans.
      - eapply sent_only_weaken; [|exact Hs]. intros q.
        apply run_sync_request.
      - eapply sent_only_weaken; [|exact Hp].
        cbn beta. intros q (H1 & H3 & cands & Hg).
        apply (run_gc_request L a events w cands); auto.
        eapply gc_request_more; [apply Hs | | exact Hg]. auto. }
    destruct (ph_outcome (prune_phase L a r utcnow_prune w1)) as [deleted|e];
      [|exact H2].
    unfold save_manifest.
    destruct (gh_put_file_requests L MANIFEST_PATH
                (json_dumps_manifest L
                   (ph_manifest (prune_phase L a r utcnow_prune w1)))
                "Update manifest.json (auto)"
                (ph_world (prune_phase L a r utcnow_prune w1))) as (Hsv & _).
    assert (H3 : sent_only (run_request L a events w) w
                   (snd (gh_put_file L MANIFEST_PATH
                           (json_dumps_manifest L
                              (ph_manifest
                                 (prune_phase L a r utcnow_prune w1)))
                           "Update manifest.json (auto)"
                           (ph_world (prune_phase L a r utcnow_prune w1))))).
    { eapply sent_only_trans; [exact H2|].
      eapply sent_only_weaken; [|exact Hsv].
      cbn beta. intros q (Hu & Hm & Hh). now apply run_save_request. }
    destruct (gh_put_file L MANIFEST_PATH _ _ _) as [[u|e] w2];
      cbn [snd] in *; [|exact H3].
    destruct H3 as (Ht & Hn & new & Hsn & Hf).
    repeat split; [exact Ht | exact Hn|]. now exists new. }
  destruct Hall as (Ht & _ & new & Hs & Hf).
  split; [exact Ht|]. exists new. split; [exact Hs|]. split; [exact Hf|].
  rewrite Forall_forall in Hf. split; [|split].
  - intros q Hq Hm. destruct (Hf q Hq) as [q' Hq' | cands q' Hp Hd _
                                            | q' Hu [Hg | Hg] _].
    + apply sync_request_kind in Hq' as (Hnd & _). contradiction.
    + now split.
    + congruence.
    + congruence.
  - intros q Hq Hh. destruct (Hf q Hq) as [q' Hq' | cands q' _ _ Hg
                                            | q' Hu _ _].
    + apply sync_request_kind in Hq' as (_ & Hc & _). now apply Hc.
    + now apply gc_request_kind in Hg as (_ & Hp).
    + now exists MANIFEST_PATH.
  - intros q Hq Hm. destruct (Hf q Hq) as [q' Hq' | cands q' _ _ Hg
                                            | q' Hu _ _].
    + right. destruct Hq' as [ | ev Hin Himg | ev q' Hin Himg Hu _ _];
        try discriminate Hm.
      exists ev. now repeat split.
    + apply gc_request_kind in Hg as (Hnp & _). contradiction.
    + now left.
Qed.

Lemma put_request_token (L : libs) (w w' : world)
  (path content message : string) (sha : pyval) :
  environ_token w' = environ_token w ->
  put_request L w' path content message sha
  = put_request L w path content message sha.
Proof. unfold put_request. now intros ->. Qed.

Lemma prune_old_dry_manifest (L : libs) (m : manifest_t) (seen : pyset)
  (retention_days : Z) (utcnow : datetime) (w : world) :
  gc_manifest (prune_old L m seen retention_days true utcnow w) = m.
Proof.
  unfold prune_old.
  destruct (cutoff_iso_of utcnow retention_days); [|reflexivity].
  cbn zeta. now rewrite prune_loop_dry_run_prints.
Qed.

Lemma prune_old_live_ok (L : libs) (m : manifest_t) (seen : pyset)
  (retention_days : Z) (utcnow : datetime) (w : world) (ds : list string) :
  gc_outcome (prune_old L m seen retention_days false utcnow w) = Ok ds ->
  manifest_images
    (gc_manifest (prune_old L m seen retention_days false utcnow w))
  = fold_left (@dict_pop _) ds (manifest_images m).
Proof.
  unfold prune_old.
  destruct (cutoff_iso_of utcnow retention_days) as [cutoff|e];
    [|discriminate].
  cbn zeta.
  destruct (prune_loop_live L retention_days (to_delete_of m seen cutoff)
              [] m w (to_delete_has_images m seen cutoff))
    as (ds' & Hi & _ & _ & _ & Hout & _).
  cbn zeta in *. destruct (gc_outcome _) as [out|e]; [|discriminate].
  intros H; injection H as <-. now subst out.
Qed.

(** A prune pass on the manifest object, through the records it reads. *)
Lemma prune_manifest_returns (L : libs) (m : stored_manifest) (seen : pyset)
  (retention_days : Z) (dry_run : bool) (utcnow : datetime) (w : world)
  (ds : list string) :
  ph_outcome (prune_manifest L m seen retention_days dry_run utcnow w)
  = Ok ds ->
  exists images,
    images_of m = stored_records images
    /\ let g0 := prune_old L [("images", images)] seen retention_days dry_run
                   utcnow w in
       gc_outcome g0 = Ok ds
       /\ images_of (ph_manifest (prune_manifest L m seen retention_days
                                    dry_run utcnow w))
          = stored_records (manifest_images (gc_manifest g0))
       /\ (manifest_images (gc_manifest g0) = images ->
           ph_manifest (prune_manifest L m seen retention_days dry_run
                          utcnow w) = m).
Proof.
  destruct (prune_manifest_cases L m seen retention_days dry_run utcnow w)
    as [(e & -> & _) | (c & images & Hc & Hv & Ho & _ & Hm)];
    [discriminate|].
  cbn zeta in *. rewrite Ho, Hm. intros Hds. exists images.
  destruct (records_view_images m images Hv) as (Hi & Hk).
  split; [exact Hi|]. split; [exact Hds|].
  destruct (dict_get m "images") as [x|] eqn:Ex.
  - split; [apply images_of_set|]. intros ->. subst x.
    now apply dict_set_stored.
  - split; [|reflexivity]. rewrite Hi.
    assert (Hnone : manifest_images
                      (gc_manifest (prune_old L [("images", images)] seen
                                      retention_days dry_run utcnow w))
                    = images).
    { destruct dry_run.
      - now rewrite prune_old_dry_manifest.
      - rewrite (prune_old_live_ok _ _ _ _ _ _ _ Hds).
        cbn [manifest_images dict_get String.eqb Ascii.eqb Bool.eqb].
        subst images.
        clear. induction ds as [|p ds IH]; [reflexivity | exact IH]. }
    now rewrite Hnone.
Qed.

Lemma seen_not_candidate (m : manifest_t) (seen : pyset) (p : string) :
  In p seen -> forall cutoff, ~ In p (to_delete_of m seen cutoff).
Proof.
  intros Hp cutoff Hin. apply in_to_delete in Hin as (rec & _ & Hc).
  apply candidate_unprotected_unseen in Hc as (_ & Hs & _).
  apply set_mem_in in Hp. congruence.
Qed.

(** The requests that come before the manifest is saved. *)
Lemma before_save_sent (L : libs) (a : args) (events : list event)
  (utcnow_sync utcnow_prune : datetime) (w w1 : world) (r : sync_result) :
  process_events L events utcnow_sync w = (Ok r, w1) ->
  sent_only (fun q => req_method q = PUT ->
                      req_url q <> contents_url MANIFEST_PATH)
            w (ph_world (prune_phase L a r utcnow_prune w1)).
Proof.
  intros E. pose proof (process_events_sent L events utcnow_sync w) as Hs.
  rewrite E in Hs. cbn [snd] in Hs.
  eapply sent_only_trans.
  - eapply sent_only_weaken; [|exact Hs]. intros q Hq.
    now apply sync_request_kind in Hq.
  - eapply sent_only_weaken; [|apply (prune_phase_sent L a events)].
    cbn beta. intros q (_ & _ & cands & Hg) Hm.
    apply gc_request_kind in Hg as (Hnp & _). contradiction.
Qed.

(** X19. A run that completes has saved what it returns.  When [main]
    returns, the last request it sent is the PUT of the manifest, carrying
    the encoded manifest of the result, and the store answered it with a
    status below 400; the last line printed is the summary.  Without
    [--prune] nothing is reported deleted and the manifest saved is the one
    of the sync; with [--dry-run] it is the one of the sync too; in a live
    prune it is the one of the sync with exactly the reported paths popped.
    In every case the assets this run has seen keep their records and are
    not reported deleted. *)
Theorem main_success (L : libs) (a : args) (events : list event)
  (utcnow_sync utcnow_prune : datetime) (w w' : world) (res : run_result) :
  main L a events utcnow_sync utcnow_prune w = (Ok res, w') ->
  (exists sha rest,
      sent w'
      = put_request L w MANIFEST_PATH
          (json_dumps_manifest L (run_saved res))
          "Update manifest.json (auto)" sha :: rest)
  /\ accepted_put w w' MANIFEST_PATH
  /\ (exists out, stdout w' = finished_line a (run_deleted res) :: out)
  /\ (arg_prune a = false ->
      run_deleted res = []
      /\ run_saved res = res_manifest (run_sync res))
  /\ (arg_dry_run a = true ->
      run_saved res = res_manifest (run_sync res))
  /\ (arg_prune a = true -> arg_dry_run a = false ->
      images_of (run_saved res)
      = fold_left (@dict_pop _) (run_deleted res)
          (images_of (res_manifest (run_sync res))))
  /\ (forall p, In p (res_seen (run_sync res)) ->
        ~ In p (run_deleted res)
        /\ dict_get (images_of (run_saved res)) p
           = dict_get (images_of (res_manifest (run_sync res))) p).
Proof.
  rewrite main_unfold.
  pose proof (process_events_sent L events utcnow_sync w) as Hs.
  destruct (process_events L events utcnow_sync w) as [[r|e] w1] eqn:E;
    [|discriminate].
  cbn [snd] in Hs. cbn zeta.
  pose proof (prune_phase_sent L a events r utcnow_prune w1) as Hp.
  pose proof (prune_phase_spec L a r utcnow_prune w1) as Hspec.
  cbn zeta in Hspec.
  set (g := prune_phase L a r utcnow_prune w1) in *.
  destruct (ph_outcome g) as [deleted|e] eqn:Eg; [|discriminate].
  assert (Hwg : sent_only (fun _ => True) w (ph_world g)).
  { eapply sent_only_trans; eapply sent_only_any; eauto. }
  unfold save_manifest.
  destruct (gh_put_file L MANIFEST_PATH (json_dumps_manifest L (ph_manifest g))
              "Update manifest.json (auto)" (ph_world g))
    as [[[]|e] w2] eqn:Esave; [|discriminate].
  intros H; injection H as <- <-.
  cbn [run_saved run_deleted run_sync sent stdout].
  apply gh_put_file_ok_inv in Esave as (sha & resp & -> & Hnet & Hlt).
  split; [|split; [|split; [|split; [|split; [|split]]]]].
  - exists sha. eexists. cbn [record_request sent]. f_equal.
    apply put_request_token. apply Hwg.
  - eapply accepted_put_earlier; [exact Hwg|].
    exists [], [sha_lookup (ph_world g) MANIFEST_PATH],
      (put_request L (ph_world g) MANIFEST_PATH
         (json_dumps_manifest L (ph_manifest g))
         "Update manifest.json (auto)" sha), resp.
    split; [reflexivity|]. split; [reflexivity|]. split; [reflexivity|].
    split; [exact Hnet | exact Hlt].
  - eexists. reflexivity.
  - intros Hnp. rewrite Hnp in Hspec. subst g. rewrite Hspec in Eg |- *.
    cbn in Eg. injection Eg as <-. now split.
  - intros Hd. destruct (arg_prune a).
    + destruct Hspec as (Ho & -> & _). symmetry in Ho. rewrite Hd in Ho |- *.
      destruct (prune_manifest_returns _ _ _ _ _ _ _ _ Ho)
        as (images & _ & _ & _ & Hsame).
      apply Hsame. now rewrite prune_old_dry_manifest.
    + subst g. now rewrite Hspec.
  - intros Hpr Hd. rewrite Hpr in Hspec. destruct Hspec as (Ho & -> & _).
    symmetry in Ho. rewrite Hd in Ho |- *.
    destruct (prune_manifest_returns _ _ _ _ _ _ _ _ Ho)
      as (images & Hi & Hg0 & Him & _).
    cbv zeta in Hg0, Him.
    rewrite Him, Hi, (prune_old_live_ok _ _ _ _ _ _ _ Hg0).
    apply stored_records_pops.
  - intros p Hseen. destruct (arg_prune a).
    + destruct Hspec as (Ho & -> & _). symmetry in Ho.
      destruct (prune_manifest_returns _ _ _ _ _ _ _ _ Ho)
        as (images & Hi & Hg0 & Him & _).
      cbv zeta in Hg0, Him.
      destruct (prune_old_frame L [("images", images)] (res_seen r)
                  (arg_retention a) (arg_dry_run a) utcnow_prune w1 p
                  (seen_not_candidate _ _ _ Hseen)) as (Hget & Hnd & _).
      split; [now apply Hnd|].
      rewrite Him, Hi, !stored_records_get, Hget. reflexivity.
    + subst g. rewrite Hspec in Eg |- *. cbn in Eg. injection Eg as <-.
      split; [intros [] | reflexivity].
Qed.

Lemma main_success_witness :
  let x := main (demo_libs []) demo_args [demo_event] demo_t1 demo_now
             (demo_world (PStr "t") net_all_ok) in
  accepted_put (demo_world (PStr "t") net_all_ok) (snd x) MANIFEST_PATH
  /\ exists out,
       stdout (snd x) = finished_line demo_args [] :: out.
Proof.
  destruct (main_success (demo_libs []) demo_args [demo_event] demo_t1
              demo_now (demo_world (PStr "t") net_all_ok) _ _ eq_refl)
    as (_ & Hacc & Hout & _).
  split; [exact Hacc | exact Hout].
Defined.

Lemma save_manifest_sent_last (L : libs) (m : stored_manifest)
  (w0 w : world)
  (new : list request) :
  environ_token w0 = environ_token w ->
  sent w0 = (new ++ sent w)%list ->
  (forall q, In q new -> req_method q = PUT ->
             req_url q <> contents_url MANIFEST_PATH) ->
  exists new1,
    sent (snd (save_manifest L m w0)) = (new1 ++ sent w)%list
    /\ forall q,
        In q new1 -> req_method q = PUT ->
        req_url q = contents_url MANIFEST_PATH ->
        exists sha rest,
          new1 = q :: rest
          /\ q = put_request L w MANIFEST_PATH (json_dumps_manifest L m)
                   "Update manifest.json (auto)" sha.
Proof.
  intros Htok Hsn Hearly.
  unfold save_manifest. rewrite gh_put_file_unfold.
  set (content := json_dumps_manifest L m).
  set (look := sha_lookup w0 MANIFEST_PATH).
  assert (Hnone : exists new1,
             sent w0 = (new1 ++ sent w)%list
             /\ forall q, In q new1 -> req_method q = PUT ->
                  req_url q = contents_url MANIFEST_PATH ->
                  exists sha rest,
                    new1 = q :: rest
                    /\ q = put_request L w MANIFEST_PATH content
                             "Update manifest.json (auto)" sha).
  { exists new. split; [exact Hsn|]. intros q Hq Hm Hu.
    now elim (Hearly q Hq Hm). }
  assert (Hlook : exists new1,
             sent (record_request look w0) = (new1 ++ sent w)%list
             /\ forall q, In q new1 -> req_method q = PUT ->
                  req_url q = contents_url MANIFEST_PATH ->
                  exists sha rest,
                    new1 = q :: rest
                    /\ q = put_request L w MANIFEST_PATH content
                             "Update manifest.json (auto)" sha).
  { exists (look :: new). split; [cbn; now rewrite Hsn|].
    intros q [<- | Hq] Hm Hu; [discriminate Hm|].
    now elim (Hearly q Hq Hm). }
  assert (Hput : forall sha, exists new1,
             sent (record_request
                     (put_request L w0 MANIFEST_PATH content
                        "Update manifest.json (auto)" sha)
                     (record_request look w0))
             = (new1 ++ sent w)%list
             /\ forall q, In q new1 -> req_method q = PUT ->
                  req_url q = contents_url MANIFEST_PATH ->
                  exists sha rest,
                    new1 = q :: rest
                    /\ q = put_request L w MANIFEST_PATH content
                             "Update manifest.json (auto)" sha).
  { intros sha.
    exists (put_request L w0 MANIFEST_PATH content
              "Update manifest.json (auto)" sha :: look :: new).
    split; [cbn; now rewrite Hsn|].
    intros q [<- | [<- | Hq]] Hm Hu.
    - exists sha, (look :: new). split; [reflexivity|].
      now apply put_request_token.
    - discriminate Hm.
    - now elim (Hearly q Hq Hm). }
  destruct (negb (truthy (environ_token w0))); [exact Hnone|].
  cbn zeta. fold look.
  destruct (net w0 (look :: sent w0)) as [r1|e]; [|exact Hlook].
  destruct (sha_of_response L r1) as [sha|e]; [|exact Hlook].
  destruct (net w0 _) as [resp|e]; [|apply Hput].
  destruct (400 <=? status_code resp); apply Hput.
Qed.

(** X20. The manifest is written last or not at all.  In any run of
    [main], a PUT at the contents URL of the manifest is sent only after the
    sync returned and the prune block returned without raising; it is then
    the last request of the run and carries the manifest the prune block
    left.  So a run that fails in the sync or in the prune pass has not
    touched the stored manifest. *)
Theorem manifest_saved_last (L : libs) (a : args) (events : list event)
  (utcnow_sync utcnow_prune : datetime) (w : world) :
  exists new,
    sent (snd (main L a events utcnow_sync utcnow_prune w))
    = (new ++ sent w)%list
    /\ forall q,
        In q new -> req_method q = PUT ->
        req_url q = contents_url MANIFEST_PATH ->
        exists r w1 deleted sha rest,
          process_events L events utcnow_sync w = (Ok r, w1)
          /\ ph_outcome (prune_phase L a r utcnow_prune w1) = Ok deleted
          /\ new = q :: rest
          /\ q = put_request L w MANIFEST_PATH
                   (json_dumps_manifest L
                      (ph_manifest (prune_phase L a r utcnow_prune w1)))
                   "Update manifest.json (auto)" sha.
Proof.
  rewrite main_unfold.
  pose proof (process_events_sent L events utcnow_sync w) as Hs.
  destruct (process_events L events utcnow_sync w) as [[r|e] w1] eqn:E;
    cbn [snd] in Hs.
  2:{ destruct Hs as (_ & _ & new & Hsn & Hf). exists new.
      split; [exact Hsn|]. intros q Hq Hm Hu. rewrite Forall_forall in Hf.
      apply Hf, sync_request_kind in Hq as (_ & _ & Hc).
      now elim (Hc Hm). }
  cbn zeta.
  destruct (before_save_sent L a events utcnow_sync utcnow_prune w w1 r E)
    as (Htok & _ & new & Hsn & Hf).
  rewrite Forall_forall in Hf.
  destruct (ph_outcome (prune_phase L a r utcnow_prune w1))
    as [deleted|e] eqn:Eg.
  2:{ exists new. split; [exact Hsn|]. intros q Hq Hm Hu.
      now elim (Hf q Hq Hm). }
  destruct (save_manifest_sent_last L
              (ph_manifest (prune_phase L a r utcnow_prune w1))
              (ph_world (prune_phase L a r utcnow_prune w1)) w new
              Htok Hsn Hf) as (new1 & Hs1 & Hlast).
  exists new1. split.
  - destruct (save_manifest L _ _) as [[u|e] w2]; exact Hs1.
  - intros q Hq Hm Hu. destruct (Hlast q Hq Hm Hu) as (sha & rest & Hn & Hq').
    now exists r, w1, deleted, sha, rest.
Qed.

(** ** bulletin_assets.py, event by event *)

Lemma gh_put_world (L : libs) (path content message : string) (w : world) :
  snd (gh_put L path content message w)
  = snd (gh_put_file L path content message w).
Proof.
  rewrite gh_put_unfold, gh_put_file_unfold.
  destruct (negb (truthy (environ_token w))); [reflexivity|]. cbn zeta.
  destruct (net w (sha_lookup w path :: sent w)) as [r|e]; [|reflexivity].
  destruct (sha_of_response L r) as [sha|e]; [|reflexivity].
  destruct (net w _) as [resp|e]; [|reflexivity].
  destruct (400 <=? status_code resp); reflexivity.
Qed.


Lemma simple_fetch_and_upload_ok (L : libs) (to_jpg : string -> exc string)
  (title url date : string) (w w' : world) (u : string) :
  simple_fetch_and_upload L to_jpg title url date w = (Ok u, w') ->
  u = PAGES_BASE ++ "/" ++ "img/" ++ month_folder date ++ "/"
      ++ asset_fname L title url.
Proof.
  unfold simple_fetch_and_upload, bindM, lift, ret.
  destruct (send _ w) as [[r|e] w1]; [|discriminate].
  destruct (raise_for_status url r) as [[]|e]; [|discriminate].
  destruct (to_jpg (text r)) as [jpg|e]; [|discriminate].
  destruct (gh_put L _ jpg _ w1) as [[[]|e] w2]; [|discriminate].
  intros H; injection H as <- _. reflexivity.
Qed.

Lemma simple_fetch_and_upload_requests (L : libs)
  (to_jpg : string -> exc string) (title url date : string) (w : world) :
  let path := "img/" ++ month_folder date ++ "/" ++ asset_fname L title url in
  sent_only (fun q => q = image_request url
                      \/ (req_url q = contents_url path
                          /\ (req_method q = GET \/ req_method q = PUT)
                          /\ req_headers q <> None))
            w (snd (simple_fetch_and_upload L to_jpg title url date w))
  /\ sends_at_most 3 w
       (snd (simple_fetch_and_upload L to_jpg title url date w)).
Proof.
  cbn zeta. unfold simple_fetch_and_upload, bindM, send, lift.
  fold (image_request url).
  set (path := "img/" ++ month_folder date ++ "/" ++ asset_fname L title url).
  set (P := fun q => q = image_request url
                     \/ (req_url q = contents_url path
                         /\ (req_method q = GET \/ req_method q = PUT)
                         /\ req_headers q <> None)).
  assert (H1 : sent_only P w (record_request (image_request url) w)
               /\ sends_at_most 3 w (record_request (image_request url) w)).
  { split.
    - repeat split. exists [image_request url].
      split; [reflexivity|]. constructor; [now left | constructor].
    - exists [image_request url]. split; [reflexivity | cbn; lia]. }
  destruct (net w (image_request url :: sent w)) as [r|e]; [|exact H1].
  destruct (raise_for_status url r) as [[]|e]; [|exact H1].
  destruct (to_jpg (text r)) as [jpg|e]; [|exact H1].
  destruct (gh_put_file_requests L path jpg
              ("Add/Update " ++ asset_fname L title url)
              (record_request (image_request url) w)) as (Hs & Hn).
  rewrite <- gh_put_world in Hs, Hn.
  assert (H2 : sent_only P w
                 (snd (gh_put L path jpg
                         ("Add/Update " ++ asset_fname L title url)
                         (record_request (image_request url) w)))
               /\ sends_at_most 3 w
                    (snd (gh_put L path jpg
                            ("Add/Update " ++ asset_fname L title url)
                            (record_request (image_request url) w)))).
  { split.
    - apply (sent_only_trans _ _ _ _ (proj1 H1)).
      eapply sent_only_weaken; [|exact Hs]. intros q Hq. now right.
    - apply (sends_at_most_trans 1 2 w
               (record_request (image_request url) w)); [|exact Hn].
      exists [image_request url]. split; [reflexivity | cbn; lia]. }
  destruct (gh_put L path jpg _ _) as [[[]|e] w2]; exact H2.
Qed.

Lemma simple_request_more (L : libs) (evs evs' : list event) (q : request) :
  (forall e, In e evs -> In e evs') ->
  simple_request L evs q -> simple_request L evs' q.
Proof.
  intros Hsub [ev Hin Himg | ev q' Hin Himg Hu Hm Hh].
  - apply simple_image; auto.
  - eapply simple_store; eauto.
Qed.

Lemma simple_event_spec (L : libs) (to_jpg : string -> exc string)
  (ev : event) (w : world) :
  simple_annotated L ev (fst (simple_event L to_jpg ev w))
  /\ sent_only (simple_request L [ev]) w (snd (simple_event L to_jpg ev w))
  /\ sends_at_most (if has_image ev then 3 else 0) w
       (snd (simple_event L to_jpg ev w)).
Proof.
  unfold simple_event, has_image.
  destruct (truthy (get_val ev "image")) eqn:Himg; cbn [negb].
  - fold (event_title ev) (event_date ev) (event_src ev).
    pose proof (simple_fetch_and_upload_requests L to_jpg (event_title ev)
                  (event_src ev) (event_date ev) w) as (Hs & Hn).
    cbn zeta in Hs.
    assert (Hs' : sent_only (simple_request L [ev]) w
                    (snd (simple_fetch_and_upload L to_jpg (event_title ev)
                            (event_src ev) (event_date ev) w))).
    { eapply sent_only_weaken; [|exact Hs]. cbn beta.
      intros q [-> | (Hu & Hm & Hh)].
      - apply simple_image; [now left | exact Himg].
      - eapply simple_store; eauto. now left. }
    destruct (simple_fetch_and_upload L to_jpg (event_title ev)
                (event_src ev) (event_date ev) w) as [[u|e] w'] eqn:E;
      cbn [fst snd] in *.
    + apply simple_fetch_and_upload_ok in E. subst u.
      split; [now apply simple_ok | now split].
    + split; [now apply simple_error | now split].
  - cbn [fst snd].
    split; [now apply simple_no_image|].
    split; [apply sent_only_refl | apply sends_at_most_refl].
Qed.

Lemma simple_loop_spec (L : libs) (to_jpg : string -> exc string)
  (events : list event) :
  forall (out : list event) (w : world),
  exists outs,
    fst (simple_loop L to_jpg events out w) = (out ++ outs)%list
    /\ Forall2 (simple_annotated L) events outs
    /\ sent_only (simple_request L events) w
         (snd (simple_loop L to_jpg events out w))
    /\ sends_at_most (3 * List.length (filter has_image events)) w
         (snd (simple_loop L to_jpg events out w)).
Proof.
  induction events as [|ev rest IH]; intros out w; cbn [simple_loop].
  - exists []. rewrite app_nil_r. split; [reflexivity|].
    split; [constructor|].
    split; [apply sent_only_refl | apply sends_at_most_refl].
  - destruct (simple_event_spec L to_jpg ev w) as (Ha & Hs & Hn).
    destruct (simple_event L to_jpg ev w) as [ev' w']. cbn [fst snd] in *.
    destruct (IH (out ++ [ev'])%list w') as (outs & Ho & Hf & Hs2 & Hn2).
    exists (ev' :: outs). rewrite Ho, <- app_assoc.
    split; [reflexivity|]. split; [now constructor|]. split.
    + eapply sent_only_trans.
      * eapply sent_only_weaken; [|exact Hs]. intros q.
        apply simple_request_more. intros e [<- | []]. now left.
      * eapply sent_only_weaken; [|exact Hs2]. intros q.
        apply simple_request_more. intros e He. now right.
    + cbn [filter]. destruct (has_image ev); cbn [List.length];
        (eapply sends_at_most_more;
         [|exact (sends_at_most_trans _ _ _ _ _ Hn Hn2)]); lia.
Qed.

(** X21. bulletin_assets.py never fails on an event and never deletes.
    Whatever the events, the token and the network, its [main] returns; the
    list it writes has one event per input event, in input order, each
    either the input itself (no image), or the input with [image_jpg] set
    to the public URL under the month folder of [month_folder], or the
    input with [image_jpg_error] set.  It prints one line, leaves the
    credential alone, and sends at most three requests per event with an
    image: the fetch of the image and, with the credential, a lookup and a
    PUT at the contents URL of the asset; never a DELETE. *)
Theorem main_simple_annotates (L : libs) (to_jpg : string -> exc string)
  (events : list event) (w : world) :
  exists out w',
    main_simple L to_jpg events w = (Ok out, w')
    /\ Forall2 (simple_annotated L) events out
    /\ List.length out = List.length events
    /\ environ_token w' = environ_token w
    /\ stdout w' = "Done. Wrote updated_events.json" :: stdout w
    /\ exists new,
        sent w' = (new ++ sent w)%list
        /\ Forall (simple_request L events) new
        /\ Forall (fun q => req_method q <> DELETE) new
        /\ (List.length new <= 3 * List.length (filter has_image events))%nat.
Proof.
  unfold main_simple.
  destruct (simple_loop_spec L to_jpg events [] w)
    as (outs & Ho & Hf & Hs & Hn).
  assert (Hout : stdout (snd (simple_loop L to_jpg events [] w)) = stdout w).
  { clear. generalize (@nil event) as out. revert w.
    induction events as [|ev rest IH]; intros w out; cbn [simple_loop];
      [reflexivity|].
    assert (H1 : stdout (snd (simple_event L to_jpg ev w)) = stdout w).
    { unfold simple_event. destruct (negb _); [reflexivity|].
      unfold simple_fetch_and_upload, bindM, send, lift, ret.
      destruct (net w _) as [r|e]; [|reflexivity].
      destruct (raise_for_status _ r) as [[]|e]; [|reflexivity].
      destruct (to_jpg (text r)) as [jpg|e]; [|reflexivity].
      match goal with
      | |- context [gh_put L ?p ?c ?m ?w0] =>
          pose proof (gh_put_world L p c m w0) as Hw;
          pose proof (gh_put_file_unfold L p c m w0) as Hu;
          destruct (gh_put L p c m w0) as [[[]|e] w2]
      end; cbn [fst snd] in *; subst w2; rewrite Hu;
        destruct (negb _); try reflexivity; cbn zeta;
        destruct (net _ _); try reflexivity;
        destruct (sha_of_response _ _); try reflexivity;
        destruct (net _ _); try reflexivity;
        destruct (_ <=? _); reflexivity. }
    destruct (simple_event L to_jpg ev w) as [ev' w']. cbn [snd] in H1.
    now rewrite IH. }
  destruct (simple_loop L to_jpg events [] w) as [out w1].
  cbn [fst snd app] in *. subst out.
  unfold bindM, print, ret. do 2 eexists. split; [reflexivity|].
  split; [exact Hf|]. split; [symmetry; eapply Forall2_length; eauto|].
  cbn [environ_token stdout sent].
  destruct Hs as (Ht & _ & new & Hsn & Hfn). destruct Hn as (new' & Hsn' & Hl).
  rewrite Hsn in Hsn'. apply app_inv_tail in Hsn'. subst new'.
  split; [exact Ht|]. split; [now rewrite Hout|].
  exists new. split; [exact Hsn|]. split; [exact Hfn|]. split; [|exact Hl].
  eapply Forall_impl; [|exact Hfn].
  intros q [ev Hin Himg | ev q' Hin Himg Hu [Hm | Hm] Hh]; cbn; congruence.
Qed.



(** ** The comprehension of [save_events] *)

Lemma pyval_eqb_eq (a b : pyval) : pyval_eqb a b = true <-> a = b.
Proof.
  destruct a, b; simpl; split; intros H; try discriminate; try reflexivity.
  - apply String.eqb_eq in H. now subst.
  - injection H as ->. apply String.eqb_refl.
Qed.

Lemma key3_eqb_eq (a b : key3) : key3_eqb a b = true <-> a = b.
Proof.
  destruct a as [[a1 a2] a3], b as [[b1 b2] b3]. unfold key3_eqb.
  rewrite !andb_true_iff, !pyval_eqb_eq. split.
  - intros [[-> ->] ->]. reflexivity.
  - intros H. injection H as -> -> ->. auto.
Qed.

Lemma key3_eqb_refl (a : key3) : key3_eqb a a = true.
Proof. now apply key3_eqb_eq. Qed.

Lemma key3_eqb_neq (a b : key3) : key3_eqb a b = false <-> a <> b.
Proof.
  split.
  - intros H E. apply key3_eqb_eq in E. congruence.
  - intros H. destruct (key3_eqb a b) eqn:E; [|reflexivity].
    apply key3_eqb_eq in E. contradiction.
Qed.

Lemma key3_dec (a b : key3) : {a = b} + {a <> b}.
Proof.
  destruct (key3_eqb a b) eqn:E.
  - left. now apply key3_eqb_eq.
  - right. now apply key3_eqb_neq.
Defined.

Lemma kdict_get_set_same (d : kdict) (k : key3) (v : event) :
  kdict_get (kdict_set d k v) k = Some v.
Proof.
  induction d as [|[k' v'] d IH]; simpl.
  - now rewrite key3_eqb_refl.
  - destruct (key3_eqb k' k) eqn:E; simpl; rewrite E;
      [reflexivity | exact IH].
Qed.

Lemma kdict_get_set_other (d : kdict) (k k' : key3) (v : event) :
  k <> k' -> kdict_get (kdict_set d k v) k' = kdict_get d k'.
Proof.
  intros Hne. induction d as [|[k0 v0] d IH]; simpl.
  - apply key3_eqb_neq in Hne. now rewrite Hne.
  - destruct (key3_eqb k0 k) eqn:E; simpl.
    + apply key3_eqb_eq in E. subst k0.
      apply key3_eqb_neq in Hne. now rewrite Hne.
    + now rewrite IH.
Qed.

Lemma kdict_get_in_keys (d : kdict) (k : key3) :
  In k (map fst d) <-> kdict_get d k <> None.
Proof.
  induction d as [|[k0 v0] d IH]; simpl; [tauto|].
  destruct (key3_eqb k0 k) eqn:E.
  - apply key3_eqb_eq in E. split; [discriminate | auto].
  - apply key3_eqb_neq in E. rewrite <- IH. tauto.
Qed.

(** Assigning keeps the order of the keys and appends a new key. *)
Lemma kdict_set_keys (d : kdict) (k : key3) (v : event) :
  map fst (kdict_set d k v)
  = if in_dec key3_dec k (map fst d) then map fst d
    else (map fst d ++ [k])%list.
Proof.
  induction d as [|[k0 v0] d IH]; simpl; [reflexivity|].
  destruct (key3_eqb k0 k) eqn:E; simpl.
  - apply key3_eqb_eq in E. subst k0.
    destruct (key3_dec k k); [reflexivity | contradiction].
  - apply key3_eqb_neq in E. rewrite IH.
    destruct (key3_dec k0 k); [contradiction|].
    destruct (in_dec key3_dec k (map fst d)); reflexivity.
Qed.

Lemma kdict_set_nodup (d : kdict) (k : key3) (v : event) :
  NoDup (map fst d) -> NoDup (map fst (kdict_set d k v)).
Proof.
  intros H. rewrite kdict_set_keys.
  destruct (in_dec key3_dec k (map fst d)) as [Hin | Hnin]; [exact H|].
  apply NoDup_app; [exact H | repeat constructor; intros [] |].
  intros x Hx [<- | []]. contradiction.
Qed.

Lemma kdict_in_set (d : kdict) (k k0 : key3) (v v0 : event) :
  In (k0, v0) (kdict_set d k v) -> (k0, v0) = (k, v) \/ In (k0, v0) d.
Proof.
  induction d as [|[k1 v1] d IH]; simpl.
  - intros [H | []]. left. now symmetry.
  - destruct (key3_eqb k1 k) eqn:E; simpl.
    + apply key3_eqb_eq in E. subst k1.
      intros [H | H]; [left; now symmetry | right; now right].
    + intros [H | H]; [right; now left|].
      destruct (IH H); [now left | right; now right].
Qed.

Lemma kdict_get_in (d : kdict) (k : key3) (v : event) :
  NoDup (map fst d) -> (In (k, v) d <-> kdict_get d k = Some v).
Proof.
  induction d as [|[k0 v0] d IH]; simpl; intros Hnd.
  - split; [intros [] | discriminate].
  - inversion Hnd as [|? ? Hnin Hnd']; subst.
    destruct (key3_eqb k0 k) eqn:E.
    + apply key3_eqb_eq in E. subst k0. split.
      * intros [H | H]; [now injection H as -> |].
        exfalso. apply Hnin. apply in_map_iff. now exists (k, v).
      * intros H; injection H as ->. now left.
    + apply key3_eqb_neq in E. rewrite <- (IH Hnd'). split.
      * intros [H | H]; [injection H as -> ->; contradiction | exact H].
      * intros H. now right.
Qed.

(** Two dicts with the same keys in the same order and the same lookups are
    the same dict. *)
Lemma kdict_ext (d1 : kdict) :
  forall d2,
    map fst d1 = map fst d2 -> NoDup (map fst d1) ->
    (forall k, kdict_get d1 k = kdict_get d2 k) -> d1 = d2.
Proof.
  induction d1 as [|[k1 v1] d1 IH]; intros [|[k2 v2] d2] Hk Hnd Hget;
    try discriminate; [reflexivity|].
  simpl in Hk. injection Hk as <- Hk.
  inversion Hnd as [|? ? Hnin Hnd']; subst.
  pose proof (Hget k1) as H1. simpl in H1. rewrite key3_eqb_refl in H1.
  injection H1 as <-. f_equal. apply IH; [exact Hk | exact Hnd'|].
  intros k. specialize (Hget k). simpl in Hget.
  destruct (key3_eqb k1 k) eqn:E; [|exact Hget].
  apply key3_eqb_eq in E. subst k.
  assert (H1 : kdict_get d1 k1 = None).
  { destruct (kdict_get d1 k1) eqn:G; [|reflexivity].
    exfalso. apply Hnin. apply kdict_get_in_keys. congruence. }
  assert (H2 : kdict_get d2 k1 = None).
  { destruct (kdict_get d2 k1) eqn:G; [|reflexivity].
    exfalso. apply Hnin. rewrite Hk. apply kdict_get_in_keys. congruence. }
  congruence.
Qed.

(** One step of the comprehension, by [event_key]. *)
Lemma unique_loop_step (e : event) (rest : list event) (d : kdict) :
  unique_loop (e :: rest) d
  = match event_key e with
    | Raise x => Raise x
    | Ok None => unique_loop rest d
    | Ok (Some k) => unique_loop rest (kdict_set d k e)
    end.
Proof.
  cbn [unique_loop]. unfold event_key, bind.
  destruct (getitem e "title") as [title|x]; [|reflexivity].
  destruct (truthy title); [|reflexivity].
  destruct (getitem e "date") as [date|x]; [|reflexivity].
  destruct (truthy date); [|reflexivity].
  destruct (getitem e "location") as [location|x]; reflexivity.
Qed.

Lemma unique_loop_app (xs ys : list event) :
  forall d,
    unique_loop (xs ++ ys) d = (d1 <- unique_loop xs d ;; unique_loop ys d1).
Proof.
  induction xs as [|e xs IH]; intros d; [reflexivity|].
  rewrite <- app_comm_cons, !unique_loop_step.
  destruct (event_key e) as [[k|]|x]; [apply IH | apply IH | reflexivity].
Qed.

(** The comprehension, in full. *)
Lemma unique_loop_spec (xs : list event) :
  forall d d',
    unique_loop xs d = Ok d' ->
    (forall e, In e xs -> exists o, event_key e = Ok o)
    /\ (forall k, kdict_get d' k
                  = match last_with k xs with
                    | Some e => Some e
                    | None => kdict_get d k
                    end)
    /\ (NoDup (map fst d) -> NoDup (map fst d'))
    /\ (keyed d -> keyed d')
    /\ (exists extra, map fst d' = (map fst d ++ extra)%list)
    /\ ((forall e k, In e xs -> event_key e = Ok (Some k) ->
                     In k (map fst d)) ->
        map fst d' = map fst d).
Proof.
  induction xs as [|e xs IH]; intros d d'.
  - intros H; injection H as <-. split; [intros e []|].
    split; [reflexivity|]. split; [auto|]. split; [auto|].
    split; [exists []; now rewrite app_nil_r | reflexivity].
  - rewrite unique_loop_step.
    destruct (event_key e) as [[k0|]|x] eqn:Ek; [| |discriminate];
      intros H; destruct (IH _ _ H) as (Hall & Hget & Hnd & Hkey & Hext & Hsame).
    + split; [intros e' [<- | He]; [now exists (Some k0) | now apply Hall]|].
      split.
      { intros k. rewrite Hget. cbn [last_with]. rewrite Ek.
        destruct (last_with k xs); [reflexivity|].
        destruct (key3_eqb k0 k) eqn:E.
        - apply key3_eqb_eq in E. subst k0. apply kdict_get_set_same.
        - apply key3_eqb_neq in E. now apply kdict_get_set_other. }
      split; [intros Hd; apply Hnd; now apply kdict_set_nodup|].
      split.
      { intros Hk. apply Hkey. intros k e' Hin.
        apply kdict_in_set in Hin as [Heq | Hin]; [|now apply Hk].
        injection Heq as -> ->. exact Ek. }
      split.
      { destruct Hext as (extra & Hx). rewrite Hx, kdict_set_keys.
        destruct (in_dec key3_dec k0 (map fst d)); [now exists extra|].
        exists (k0 :: extra). now rewrite <- app_assoc. }
      intros Hin.
      assert (H0 : map fst (kdict_set d k0 e) = map fst d).
      { rewrite kdict_set_keys.
        destruct (in_dec key3_dec k0 (map fst d)) as [|Hn]; [reflexivity|].
        elim Hn. apply (Hin e k0); [now left | exact Ek]. }
      rewrite <- H0. apply Hsame. intros e' k He' Hk'. rewrite H0.
      apply (Hin e' k); [now right | exact Hk'].
    + split; [intros e' [<- | He]; [now exists None | now apply Hall]|].
      split.
      { intros k. rewrite Hget. cbn [last_with]. rewrite Ek.
        now destruct (last_with k xs). }
      split; [exact Hnd|]. split; [exact Hkey|]. split; [exact Hext|].
      intros Hin. apply Hsame. intros e' k He' Hk'.
      apply (Hin e' k); [now right | exact Hk'].
Qed.

Lemma unique_loop_total (xs : list event) :
  forall d,
    (forall e, In e xs -> exists o, event_key e = Ok o) ->
    exists d', unique_loop xs d = Ok d'.
Proof.
  induction xs as [|e xs IH]; intros d Hall; [now exists d|].
  rewrite unique_loop_step.
  destruct (Hall e (or_introl eq_refl)) as (o & ->).
  destruct o as [k|]; apply IH; intros e' He'; apply Hall; now right.
Qed.

Lemma last_with_in (k : key3) (xs : list event) (e : event) :
  last_with k xs = Some e -> In e xs /\ event_key e = Ok (Some k).
Proof.
  induction xs as [|x xs IH]; cbn [last_with]; [discriminate|].
  destruct (last_with k xs) as [e'|].
  - intros H; injection H as ->. split; [right|]; now apply IH.
  - destruct (event_key x) as [[k'|]|] eqn:Ek; try discriminate.
    destruct (key3_eqb k' k) eqn:E; [|discriminate].
    apply key3_eqb_eq in E. subst k'. intros H; injection H as <-.
    split; [now left | exact Ek].
Qed.

Lemma last_with_some (k : key3) (xs : list event) (e : event) :
  In e xs -> event_key e = Ok (Some k) -> last_with k xs <> None.
Proof.
  induction xs as [|x xs IH]; cbn [last_with]; [intros []|].
  intros [-> | Hin] Hk.
  - destruct (last_with k xs); [discriminate|].
    rewrite Hk, key3_eqb_refl. discriminate.
  - specialize (IH Hin Hk). destruct (last_with k xs); [discriminate|].
    contradiction.
Qed.

Lemma last_with_app (k : key3) (xs ys : list event) :
  last_with k (xs ++ ys)
  = match last_with k ys with
    | Some e => Some e
    | None => last_with k xs
    end.
Proof.
  induction xs as [|x xs IH]; cbn [app last_with].
  - now destruct (last_with k ys).
  - rewrite IH. destruct (last_with k ys); reflexivity.
Qed.

Lemma event_key_truthy (e : event) (k : key3) :
  event_key e = Ok (Some k) ->
  truthy (get_val e "title") = true /\ truthy (get_val e "date") = true
  /\ dict_mem e "location" = true
  /\ k = (get_val e "title", get_val e "date", get_val e "location").
Proof.
  unfold event_key, getitem, get_val, dict_mem, bind.
  destruct (dict_get e "title") as [t|]; [|discriminate].
  destruct (truthy t) eqn:Ht; [|discriminate].
  destruct (dict_get e "date") as [d|]; [|discriminate].
  destruct (truthy d) eqn:Hd; [|discriminate].
  destruct (dict_get e "location") as [l|]; [|discriminate].
  intros H; injection H as <-. auto.
Qed.

(** Rebuilding a dict from its own values. *)
Lemma unique_loop_rebuild (d : kdict) :
  forall d0,
    keyed d -> NoDup (map fst (d0 ++ d)) ->
    unique_loop (map snd d) d0 = Ok (d0 ++ d)%list.
Proof.
  induction d as [|[k e] d IH]; intros d0 Hk Hnd; cbn [map snd].
  - now rewrite app_nil_r.
  - rewrite unique_loop_step, (Hk k e (or_introl eq_refl)).
    assert (Hset : kdict_set d0 k e = (d0 ++ [(k, e)])%list).
    { assert (Hnin : ~ In k (map fst d0)).
      { rewrite map_app in Hnd. cbn [map fst] in Hnd.
        apply NoDup_remove_2 in Hnd. intros H. apply Hnd.
        apply in_or_app. now left. }
      clear -Hnin. induction d0 as [|[k0 v0] d0 IH]; simpl; [reflexivity|].
      destruct (key3_eqb k0 k) eqn:E.
      - apply key3_eqb_eq in E. subst k0. elim Hnin. now left.
      - rewrite IH; [reflexivity|]. intros H. apply Hnin. now right. }
    rewrite Hset, IH.
    + now rewrite <- app_assoc.
    + intros k' e' Hin. apply Hk. now right.
    + now rewrite <- app_assoc.
Qed.

Lemma event_key_well_keyed (e : event) :
  (exists o, event_key e = Ok o) <-> well_keyed e.
Proof.
  unfold well_keyed, event_key, getitem, get_val, dict_mem, bind.
  destruct (dict_get e "title") as [t|].
  2:{ split; [intros [o H]; discriminate | intros [H _]; discriminate]. }
  destruct (truthy t).
  2:{ split; [intros _; split; [reflexivity | discriminate]|].
      intros _. now exists None. }
  destruct (dict_get e "date") as [d|].
  2:{ split; [intros [o H]; discriminate|].
      intros [_ H]. destruct (H eq_refl). discriminate. }
  destruct (truthy d).
  2:{ split.
      - intros _. split; [reflexivity|]. intros _.
        split; [reflexivity | discriminate].
      - intros _. now exists None. }
  destruct (dict_get e "location") as [l|].
  - split; [|intros _; eexists; reflexivity].
    intros _. split; [reflexivity|]. intros _.
    split; [reflexivity|]. reflexivity.
  - split; [intros [o H]; discriminate|].
    intros [_ H]. destruct (H eq_refl) as [_ H']. now specialize (H' eq_refl).
Qed.

Lemma event_key_raises (e : event) (x : exn) :
  event_key e = Raise x ->
  x = KeyError "title" \/ x = KeyError "date" \/ x = KeyError "location".
Proof.
  unfold event_key, getitem, bind.
  destruct (dict_get e "title") as [t|]; [|intros H; injection H; auto].
  destruct (truthy t); [|discriminate].
  destruct (dict_get e "date") as [d|]; [|intros H; injection H; auto].
  destruct (truthy d); [|discriminate].
  destruct (dict_get e "location") as [l|]; [discriminate|].
  intros H; injection H; auto.
Qed.

Lemma unique_loop_raises (xs : list event) :
  forall d x,
    unique_loop xs d = Raise x ->
    exists e, In e xs /\ event_key e = Raise x.
Proof.
  induction xs as [|e xs IH]; intros d x; [discriminate|].
  rewrite unique_loop_step.
  destruct (event_key e) as [[k|]|x0] eqn:Ek.
  - intros H. destruct (IH _ _ H) as (e' & He' & Hx).
    exists e'. split; [now right | exact Hx].
  - intros H. destruct (IH _ _ H) as (e' & He' & Hx).
    exists e'. split; [now right | exact Hx].
  - intros H; injection H as ->. exists e. split; [now left | exact Ek].
Qed.

Lemma keyed_nodup_values (d : kdict) :
  keyed d -> NoDup (map fst d) -> NoDup (map event_key (map snd d)).
Proof.
  intros Hk Hnd.
  assert (E : map event_key (map snd d) = map (fun k => Ok (Some k)) (map fst d)).
  { rewrite !map_map. apply map_ext_in. intros [k e] Hin. cbn.
    now apply Hk. }
  rewrite E. clear E Hk. induction (map fst d) as [|k l IH]; cbn [map].
  - constructor.
  - inversion Hnd as [|? ? Hnin Hnd']; subst. constructor; [|now apply IH].
    intros Hin. apply in_map_iff in Hin as (k' & Hk' & Hin').
    injection Hk' as ->. contradiction.
Qed.

Lemma save_events_inv (file : option (list event)) (events out : list event)
  (line : string) :
  save_events file events = Ok (out, line) ->
  exists d,
    unique_loop (load_existing_events file ++ events) [] = Ok d
    /\ out = map snd d
    /\ line = check_mark ++ " Saved " ++ str_of_nat (List.length out)
              ++ " total unique events to events.json".
Proof.
  unfold save_events, bind.
  destruct (unique_loop _ []) as [d|x]; [|discriminate].
  intros H; injection H as <- <-. exists d.
  split; [reflexivity|]. split; [reflexivity|]. now rewrite length_map.
Qed.

(** X23. What [save_events] leaves in events.json.  When it returns, the
    file holds exactly the events that are the last one of their key
    [(title, date, location)] among the existing events followed by the new
    ones; no two events of the file share a key; every event of the file has
    a non-empty title and date; no key of an input event with a non-empty
    title and date is lost; and the line printed counts the events of the
    file. *)
Theorem save_events_dedupes (file : option (list event))
  (events out : list event) (line : string) :
  save_events file events = Ok (out, line) ->
  let all_combined := (load_existing_events file ++ events)%list in
  (forall e, In e out <-> exists k, last_with k all_combined = Some e)
  /\ NoDup (map event_key out)
  /\ (forall e, In e out ->
        In e all_combined
        /\ truthy (get_val e "title") = true
        /\ truthy (get_val e "date") = true)
  /\ (forall e k, In e all_combined -> event_key e = Ok (Some k) ->
        exists e', In e' out /\ event_key e' = Ok (Some k))
  /\ line = check_mark ++ " Saved " ++ str_of_nat (List.length out)
            ++ " total unique events to events.json".
Proof.
  intros H. cbn zeta.
  apply save_events_inv in H as (d & Hloop & -> & Hline).
  destruct (unique_loop_spec _ _ _ Hloop)
    as (_ & Hget & Hnd & Hkey & _ & _).
  specialize (Hnd (NoDup_nil _)).
  assert (Hkd : keyed d) by (apply Hkey; intros k e []).
  assert (Hin : forall e, In e (map snd d)
                          <-> exists k,
                              last_with k (load_existing_events file ++ events)
                              = Some e).
  { intros e. rewrite in_map_iff. split.
    - intros ([k e'] & He & Hp). cbn in He. subst e'. exists k.
      apply (kdict_get_in d k e Hnd) in Hp. rewrite Hget in Hp.
      destruct (last_with k _); [exact Hp | discriminate].
    - intros (k & Hl). exists (k, e). split; [reflexivity|].
      apply (kdict_get_in d k e Hnd). now rewrite Hget, Hl. }
  split; [exact Hin|]. split; [now apply keyed_nodup_values|].
  split; [|split; [|exact Hline]].
  - intros e He. apply Hin in He as (k & Hl).
    apply last_with_in in Hl as (Hall & Hk).
    apply event_key_truthy in Hk as (Ht & Hd & _). auto.
  - intros e k He Hk.
    destruct (last_with k (load_existing_events file ++ events)) as [e'|]
      eqn:Hl.
    + exists e'. split; [apply Hin; now exists k|].
      now apply last_with_in in Hl.
    + now elim (last_with_some k _ e He Hk).
Qed.

Lemma save_events_dedupes_witness :
  let old := [("title", PStr "Fair"); ("date", PStr "Sat, 06 Sep 2025");
              ("location", PStr "Chester, CA"); ("image", PNone)] in
  let new := [("title", PStr "Fair"); ("date", PStr "Sat, 06 Sep 2025");
              ("location", PStr "Chester, CA");
              ("image", PStr "https://x/a.png")] in
  let untitled := [("title", PStr "")] in
  (forall e, In e [new] <-> exists k, last_with k [old; untitled; new] = Some e)
  /\ NoDup (map event_key [new]).
Proof.
  cbn zeta.
  destruct (save_events_dedupes
              (Some [[("title", PStr "Fair");
                      ("date", PStr "Sat, 06 Sep 2025");
                      ("location", PStr "Chester, CA"); ("image", PNone)];
                     [("title", PStr "")]])
              [[("title", PStr "Fair"); ("date", PStr "Sat, 06 Sep 2025");
                ("location", PStr "Chester, CA");
                ("image", PStr "https://x/a.png")]]
              _ _ eq_refl) as (Hin & Hnd & _).
  split; [exact Hin | exact Hnd].
Defined.

(** X24. When [save_events] fails.  It returns exactly when every event,
    existing or new, has a title, a date unless the title is empty, and a
    location unless the title or the date is empty; otherwise it raises the
    [KeyError] of a missing ["title"], ["date"] or ["location"].  An event
    with an empty title is dropped without a look at its other fields. *)
Theorem save_events_returns_iff (file : option (list event))
  (events : list event) :
  let all_combined := (load_existing_events file ++ events)%list in
  ((exists out line, save_events file events = Ok (out, line))
   <-> forall e, In e all_combined -> well_keyed e)
  /\ (forall x, save_events file events = Raise x ->
        x = KeyError "title" \/ x = KeyError "date"
        \/ x = KeyError "location").
Proof.
  cbn zeta. split; [split|].
  - intros (out & line & H) e He.
    apply save_events_inv in H as (d & Hloop & _).
    destruct (unique_loop_spec _ _ _ Hloop) as (Hall & _).
    apply event_key_well_keyed. now apply Hall.
  - intros Hall.
    destruct (unique_loop_total (load_existing_events file ++ events) [])
      as (d & Hd).
    { intros e He. apply event_key_well_keyed. now apply Hall. }
    unfold save_events, bind. rewrite Hd. eexists. eexists. reflexivity.
  - intros x. unfold save_events, bind.
    destruct (unique_loop _ []) as [d|x0] eqn:E; [discriminate|].
    intros H; injection H as ->.
    apply unique_loop_raises in E as (e & _ & He).
    now apply event_key_raises in He.
Qed.

(** X25. Saving is idempotent.  Saving the same new events again over the
    file just written, or saving no new events over it, writes the same
    file and prints the same line. *)
Theorem save_events_idempotent (file : option (list event))
  (events out : list event) (line : string) :
  save_events file events = Ok (out, line) ->
  save_events (Some out) events = Ok (out, line)
  /\ save_events (Some out) [] = Ok (out, line).
Proof.
  intros H. apply save_events_inv in H as (d & Hloop & -> & Hline).
  destruct (unique_loop_spec _ _ _ Hloop)
    as (Hall & Hget & Hnd & Hkey & _ & _).
  specialize (Hnd (NoDup_nil _)).
  assert (Hkd : keyed d) by (apply Hkey; intros k e []).
  assert (Hre : unique_loop (map snd d) [] = Ok d)
    by (apply (unique_loop_rebuild d []); assumption).
  assert (Hagain : unique_loop (map snd d ++ events) [] = Ok d).
  { rewrite unique_loop_app, Hre. cbn [bind].
    destruct (unique_loop_total events d) as (d2 & Hd2).
    { intros e He. apply Hall. apply in_or_app. now right. }
    rewrite Hd2. f_equal.
    destruct (unique_loop_spec _ _ _ Hd2)
      as (_ & Hget2 & _ & _ & _ & Hsame).
    assert (Hkeys : map fst d2 = map fst d).
    { apply Hsame. intros e k He Hk. apply kdict_get_in_keys.
      rewrite Hget.
      pose proof (last_with_some k (load_existing_events file ++ events) e
                    (in_or_app _ _ _ (or_intror He)) Hk) as Hs.
      destruct (last_with k _); [discriminate | contradiction]. }
    apply kdict_ext; [exact Hkeys | now rewrite Hkeys|].
    intros k. rewrite Hget2.
    destruct (last_with k events) as [e|] eqn:Hl; [|reflexivity].
    now rewrite Hget, last_with_app, Hl. }
  unfold save_events, load_existing_events, bind.
  rewrite app_nil_r, Hagain, Hre, Hline, !length_map. now split.
Qed.

Lemma save_events_idempotent_witness :
  let old := [("title", PStr "Fair"); ("date", PStr "Sat, 06 Sep 2025");
              ("location", PStr "Chester, CA"); ("image", PNone)] in
  let new := [("title", PStr "Fair"); ("date", PStr "Sat, 06 Sep 2025");
              ("location", PStr "Chester, CA");
              ("image", PStr "https://x/a.png")] in
  save_events (Some [new]) [new] = save_events (Some [old]) [new]
  /\ save_events (Some [new]) [] = save_events (Some [old]) [new].
Proof.
  cbn zeta.
  destruct (save_events_idempotent
              (Some [[("title", PStr "Fair");
                      ("date", PStr "Sat, 06 Sep 2025");
                      ("location", PStr "Chester, CA"); ("image", PNone)]])
              [[("title", PStr "Fair"); ("date", PStr "Sat, 06 Sep 2025");
                ("location", PStr "Chester, CA");
                ("image", PStr "https://x/a.png")]]
              _ _ eq_refl) as (H1 & H2).
  split; [exact H1 | exact H2].
Defined.

(** X26. Existing events keep their places.  The keys of the file written
    with new events start with the keys of the file written without them,
    in the same order: a new event replaces the existing event of its key
    where that one stood, or is appended. *)
Theorem save_events_keeps_positions (file : option (list event))
  (events out0 out : list event) (line0 line : string) :
  save_events file [] = Ok (out0, line0) ->
  save_events file events = Ok (out, line) ->
  exists extra,
    map event_key out = (map event_key out0 ++ extra)%list
    /\ (List.length out0 <= List.length out)%nat.
Proof.
  intros H0 H.
  apply save_events_inv in H0 as (d0 & Hloop0 & -> & _).
  apply save_events_inv in H as (d & Hloop & -> & _).
  rewrite app_nil_r in Hloop0.
  rewrite unique_loop_app, Hloop0 in Hloop. cbn [bind] in Hloop.
  destruct (unique_loop_spec _ _ _ Hloop0) as (_ & _ & _ & Hkey0 & _ & _).
  destruct (unique_loop_spec _ _ _ Hloop)
    as (_ & _ & _ & Hkey & (extra & Hext) & _).
  assert (Hk0 : keyed d0) by (apply Hkey0; intros k e []).
  assert (Hk : keyed d) by (apply Hkey; exact Hk0).
  assert (E : forall d1, keyed d1 ->
                map event_key (map snd d1)
                = map (fun k => Ok (Some k)) (map fst d1)).
  { intros d1 Hd1. rewrite !map_map. apply map_ext_in.
    intros [k e] Hin. cbn. now apply Hd1. }
  exists (map (fun k => Ok (Some k)) extra).
  rewrite (E d Hk), (E d0 Hk0), Hext, map_app. split; [reflexivity|].
  rewrite !length_map.
  apply (f_equal (@List.length _)) in Hext.
  rewrite length_app, !length_map in Hext. lia.
Qed.

Lemma save_events_keeps_positions_witness :
  let old := [("title", PStr "Fair"); ("date", PStr "Sat, 06 Sep 2025");
              ("location", PStr "Chester, CA"); ("image", PNone)] in
  let other := [("title", PStr "Market"); ("date", PStr "Sun, 07 Sep 2025");
                ("location", PNone)] in
  exists extra,
    map event_key [old; other] = (map event_key [old] ++ extra)%list
    /\ (1 <= 2)%nat.
Proof.
  cbn zeta.
  exact (save_events_keeps_positions
           (Some [[("title", PStr "Fair"); ("date", PStr "Sat, 06 Sep 2025");
                   ("location", PStr "Chester, CA"); ("image", PNone)]])
           [[("title", PStr "Market"); ("date", PStr "Sun, 07 Sep 2025");
             ("location", PNone)]]
           _ _ _ _ eq_refl eq_refl).
Defined.

(** ** Scraped dates *)

Lemma digit_is_token (n : Z) : isspace (digit n) = false.
Proof.
  unfold digit. pose proof (Z.mod_pos_bound n 10 ltac:(lia)) as H.
  assert (E : n mod 10 = 0 \/ n mod 10 = 1 \/ n mod 10 = 2 \/ n mod 10 = 3
              \/ n mod 10 = 4 \/ n mod 10 = 5 \/ n mod 10 = 6
              \/ n mod 10 = 7 \/ n mod 10 = 8 \/ n mod 10 = 9) by lia.
  repeat (destruct E as [-> | E]; [reflexivity|]). now rewrite E.
Qed.

Lemma pad2_is_token (n : Z) : is_token (pad2 n) = true.
Proof.
  unfold is_token, pad2. cbn [is_empty no_space negb andb].
  now rewrite !digit_is_token.
Qed.

Lemma pad4_is_token (n : Z) : is_token (pad4 n) = true.
Proof.
  unfold is_token, pad4. cbn [is_empty no_space negb andb].
  now rewrite !digit_is_token.
Qed.

Lemma month_name_folder (m : Z) :
  1 <= m <= 12 ->
  is_token (nth (Z.to_nat (m - 1)) month_names "") = true
  /\ dict_get months (nth (Z.to_nat (m - 1)) month_names "") = Some (pad2 m).
Proof.
  intros H.
  assert (E : m = 1 \/ m = 2 \/ m = 3 \/ m = 4 \/ m = 5 \/ m = 6 \/ m = 7
              \/ m = 8 \/ m = 9 \/ m = 10 \/ m = 11 \/ m = 12) by lia.
  repeat (destruct E as [-> | E]; [split; reflexivity|]).
  subst m. split; reflexivity.
Qed.

Lemma day_name_is_token (t : datetime) :
  is_token (nth (Z.to_nat (weekday t)) day_names "" ++ ",") = true.
Proof.
  unfold weekday.
  pose proof (Z.mod_pos_bound
                (ymd2ord (dt_year t) (dt_month t) (dt_day t) + 6) 7
                ltac:(lia)) as H.
  set (k := (ymd2ord (dt_year t) (dt_month t) (dt_day t) + 6) mod 7) in *.
  assert (E : k = 0 \/ k = 1 \/ k = 2 \/ k = 3 \/ k = 4 \/ k = 5 \/ k = 6)
    by lia.
  repeat (destruct E as [-> | E]; [reflexivity|]). now rewrite E.
Qed.

(** From the year 1000 on the decimal of a year has four digits. *)
Lemma str_of_Z_four_digits (y : Z) :
  1000 <= y <= 9999 -> str_of_Z y = pad4 y.
Proof.
  intros H.
  assert (Hall : forallb (fun k => (str_of_Z (1000 + Z.of_nat k)
                                    =? pad4 (1000 + Z.of_nat k))%string)
                         (seq 0 (Z.to_nat 9000)) = true)
    by (vm_compute; reflexivity).
  rewrite forallb_forall in Hall.
  specialize (Hall (Z.to_nat (y - 1000))).
  rewrite Z2Nat.id in Hall by lia.
  replace (1000 + (y - 1000)) with y in Hall by lia.
  apply String.eqb_eq, Hall, in_seq. lia.
Qed.

Lemma strftime_tokens (t : datetime) :
  1 <= dt_month t <= 12 ->
  1000 <= dt_year t <= 9999 ->
  split (strftime_a_d_b_Y t)
  = [nth (Z.to_nat (weekday t)) day_names "" ++ ","; pad2 (dt_day t);
     nth (Z.to_nat (dt_month t - 1)) month_names ""; pad4 (dt_year t)].
Proof.
  intros Hm Hy. unfold strftime_a_d_b_Y.
  rewrite (str_of_Z_four_digits _ Hy).
  replace (nth (Z.to_nat (weekday t)) day_names "" ++ ", "
           ++ pad2 (dt_day t) ++ " "
           ++ nth (Z.to_nat (dt_month t - 1)) month_names "" ++ " "
           ++ pad4 (dt_year t))
    with ((nth (Z.to_nat (weekday t)) day_names "" ++ ",") ++ " "
          ++ pad2 (dt_day t) ++ " "
          ++ nth (Z.to_nat (dt_month t - 1)) month_names "" ++ " "
          ++ pad4 (dt_year t))
    by (rewrite append_assoc; reflexivity).
  apply split_four_tokens.
  - apply day_name_is_token.
  - apply pad2_is_token.
  - now apply month_name_folder.
  - apply pad4_is_token.
Qed.

(** Before the year 1000 the year is printed with fewer digits. *)
Example strftime_year_999 :
  strftime_a_d_b_Y (mkDT 999 1 5 0 0 0 0) = "Sat, 05 Jan 999"
  /\ month_folder_from_date (strftime_a_d_b_Y (mkDT 999 1 5 0 0 0 0))
     = "999/01".
Proof. vm_compute. split; reflexivity. Qed.

(** X27. The dates the scraper writes are filed by month.  For a date
    [dt] of a year from 1000 on, the text [dt.strftime("%a, %d %b %Y")] that
    [scrape_allevents] stores as the date of an event has four tokens (the
    day name with its comma, the two-digit day, the month name, the
    four-digit year), and both month-folder functions turn it into the
    four-digit year, a slash and the two-digit month: never ["undated"],
    never a month [00], and never under the protected prefix. *)
Theorem scraped_date_folder (L : libs) (t : datetime) (title src : string) :
  dt_valid t = true ->
  1000 <= dt_year t ->
  split (strftime_a_d_b_Y t)
  = [nth (Z.to_nat (weekday t)) day_names "" ++ ","; pad2 (dt_day t);
     nth (Z.to_nat (dt_month t - 1)) month_names ""; pad4 (dt_year t)]
  /\ month_folder_from_date (strftime_a_d_b_Y t)
     = pad4 (dt_year t) ++ "/" ++ pad2 (dt_month t)
  /\ month_folder (strftime_a_d_b_Y t)
     = pad4 (dt_year t) ++ "/" ++ pad2 (dt_month t)
  /\ is_protected (asset_path L title src (strftime_a_d_b_Y t)) = false.
Proof.
  intros Hv Hy1. apply dt_valid_ranges in Hv as (Hy & Hm & _).
  assert (Hyr : 1000 <= dt_year t <= 9999) by lia.
  destruct (month_name_folder (dt_month t) Hm) as (_ & Hget).
  assert (H1 : month_folder_from_date (strftime_a_d_b_Y t)
               = pad4 (dt_year t) ++ "/" ++ pad2 (dt_month t)).
  { rewrite month_folder_from_date_tokens, strftime_tokens by assumption.
    cbn [nth_error last]. unfold months_get. now rewrite Hget. }
  split; [now apply strftime_tokens|]. split; [exact H1|]. split.
  - rewrite month_folder_tokens, strftime_tokens by assumption.
    cbn [nth_error last]. now rewrite Hget.
  - unfold asset_path. rewrite H1. unfold is_protected, PROTECT_PREFIXES.
    cbn [existsb]. rewrite orb_false_r. unfold startswith, pad4.
    cbn [append]. rewrite !prefix_cons.
    destruct (ascii_dec "i" "i"); [|reflexivity].
    destruct (ascii_dec "m" "m"); [|reflexivity].
    destruct (ascii_dec "g" "g"); [|reflexivity].
    destruct (ascii_dec "/" "/"); [|reflexivity].
    destruct (ascii_dec "s" (digit (dt_year t / 1000))) as [E|]; [|reflexivity].
    exfalso. unfold digit in E.
    pose proof (Z.mod_pos_bound (dt_year t / 1000) 10 ltac:(lia)) as Hb.
    apply (f_equal N_of_ascii) in E.
    set (k := dt_year t / 1000 mod 10) in *.
    rewrite N_ascii_embedding in E by lia.
    change (N_of_ascii "s") with 115%N in E. lia.
Qed.

Lemma scraped_date_folder_witness :
  split (strftime_a_d_b_Y (mkDT 2025 9 6 0 0 0 0))
  = ["Sat,"; "06"; "Sep"; "2025"]
  /\ month_folder_from_date "Sat, 06 Sep 2025" = "2025/09"
  /\ month_folder "Sat, 06 Sep 2025" = "2025/09"
  /\ is_protected (asset_path (demo_libs []) "farmers-market"
                     "https://x/a.png" "Sat, 06 Sep 2025") = false.
Proof.
  exact (scraped_date_folder (demo_libs []) (mkDT 2025 9 6 0 0 0 0)
           "farmers-market" "https://x/a.png" eq_refl
           ltac:(cbn [dt_year]; lia)).
Defined.
